(** * GPS L1 C/A acquisition (PCPS with auxiliary peaks) and CADLL tracking

    A shallow embedding of the two GNU Radio blocks of the receiver core,
    [pcps_sd_acquisition_cc] and [Gps_L1_Ca_Dll_Pll_CADLL_Tracking_cc],
    and the properties of their [general_work] procedures.

    Numbers.  The C++ [float] and [double] values are embedded as exact
    rationals ([Q]): the rounding error of every floating-point operation
    is left out, and so are infinities.  A NaN only appears where the code
    tests for it (the prompt correlator).  A division whose divisor is a
    run-time quantity is checked: IEEE would give an infinity or a NaN,
    which has no value in [Q], so the embedding stops with
    [DivisionByZero].  Divisions by literals and by the constants of
    GPS_L1_CA.h are plain rational divisions.  Integers are [Z]; the
    unsigned counters wrap as in C++. *)

From Stdlib Require Import ZArith QArith Qround Qabs Lia Lqa.
From stdpp Require Import base option list gmap sorting.

Open Scope Q_scope.

(** ** Results of fallible code *)

Inductive error : Type :=
| DivisionByZero
| OutOfRange.

Inductive res (A : Type) : Type :=
| Ok (a : A)
| Err (e : error).

Arguments Ok {A} a.
Arguments Err {A} e.

#[global] Instance res_ret : MRet res := fun A a => Ok a.

#[global] Instance res_bind : MBind res := fun A B k c =>
  match c with
  | Ok a => k a
  | Err e => Err e
  end.

(** [for (i = start; i < start + n; i++) body]. *)
Fixpoint for_loop {S : Type} (n start : nat) (body : nat -> S -> res S) (s : S)
  : res S :=
  match n with
  | O => Ok s
  | Datatypes.S n' => s' ← body start s; for_loop n' (Datatypes.S start) body s'
  end.

(** [holds r P]: the computation returned and its result satisfies [P]. *)
Definition holds {A : Type} (r : res A) (P : A -> Prop) : Prop :=
  match r with
  | Ok a => P a
  | Err _ => False
  end.

(** ** Arithmetic of <cmath> on the rational idealisation *)

Definition Qltb (x y : Q) : bool := negb (Qle_bool y x).

(** [round]: nearest integer, halfway cases away from zero. *)
Definition round (x : Q) : Z :=
  if Qle_bool 0 x then Qfloor (x + (1 # 2)) else Qceiling (x - (1 # 2)).

(** Conversion to an integer type: truncation toward zero. *)
Definition trunc (x : Q) : Z :=
  if Qle_bool 0 x then Qfloor x else Qceiling x.

(** [fmod x y = x - n*y], [n] the quotient [x/y] truncated toward zero. *)
Definition fmod (x y : Q) : Q := x - inject_Z (trunc (x / y)) * y.

Definition fdiv (x y : Q) : res Q :=
  if Qeq_bool y 0 then Err DivisionByZero else Ok (x / y).

Definition fmod_checked (x y : Q) : res Q :=
  if Qeq_bool y 0 then Err DivisionByZero else Ok (fmod x y).

(** Integer [/] and [%] on non-negative operands; a zero divisor traps. *)
Definition idiv (x y : Z) : res Z :=
  if (y =? 0)%Z then Err DivisionByZero else Ok (x / y)%Z.

Definition imod (x y : Z) : res Z :=
  if (y =? 0)%Z then Err DivisionByZero else Ok (x mod y)%Z.

Definition wrap32 (z : Z) : Z := (z mod 2 ^ 32)%Z.
Definition wrap64 (z : Z) : Z := (z mod 2 ^ 64)%Z.

(** [gr_complex]. *)
Record gr_complex : Type := Cplx { real : Q; imag : Q }.

Definition magnitude_squared (c : gr_complex) : Q :=
  real c * real c + imag c * imag c.

(** ** The synchronization record shared by acquisition and tracking *)

Record Gnss_Synchro : Type := mkSynchro {
  PRN : Z;
  Acq_delay_samples : Q;
  Acq_doppler_hz : Q;
  Acq_samplestamp_samples : Z;
  Prompt_I : Q;
  Prompt_Q : Q;
  Tracking_timestamp_secs : Q;
  Carrier_phase_rads : Q;
  Carrier_Doppler_hz : Q;
  Code_phase_secs : Q;
  CN0_dB_hz : Q;
  Flag_valid_tracking : bool
}.

Definition set_acq (s : Gnss_Synchro) (delay doppler : Q) (stamp : Z)
  : Gnss_Synchro :=
  {| PRN := PRN s;
     Acq_delay_samples := delay;
     Acq_doppler_hz := doppler;
     Acq_samplestamp_samples := stamp;
     Prompt_I := Prompt_I s;
     Prompt_Q := Prompt_Q s;
     Tracking_timestamp_secs := Tracking_timestamp_secs s;
     Carrier_phase_rads := Carrier_phase_rads s;
     Carrier_Doppler_hz := Carrier_Doppler_hz s;
     Code_phase_secs := Code_phase_secs s;
     CN0_dB_hz := CN0_dB_hz s;
     Flag_valid_tracking := Flag_valid_tracking s |}.

(** * Acquisition: [pcps_sd_acquisition_cc] *)

Module Acquisition.

(** Constructor arguments and the values installed by the setters
    ([set_threshold], [set_doppler_step], [set_peak]) and by [init]
    ([d_num_doppler_bins]); none of them changes during [general_work]. *)
Record config : Type := mkConfig {
  d_fft_size : Z;               (* unsigned: d_sampled_ms * d_samples_per_ms *)
  d_samples_per_code : Z;
  d_max_dwells : Z;
  d_doppler_max : Z;
  d_doppler_step : Z;
  d_num_doppler_bins : nat;
  d_threshold : Q;
  d_bit_transition_flag : bool;
  d_peak : Z
}.

(** The members [general_work] writes.  [d_state]: 0 idle, 1 dwell,
    2 positive acquisition, 3 negative acquisition. *)
Record state : Type := mkState {
  d_sample_counter : Z;
  d_active : bool;
  d_state : Z;
  d_well_count : Z;
  d_mag : Q;
  d_mag_2nd_highest : Q;
  d_input_power : Q;
  d_test_statistics : Q;
  d_gnss_synchro : Gnss_Synchro;
  d_channel_internal_queue : list Z
}.

(** One call: the number of available input items, the first item (a block
    of [d_fft_size] samples), and the content of [d_magnitude] after the
    FFT kernel and VOLK have processed Doppler bin [k]:
    [|IFFT(FFT(in .* wipeoff_k) .* fft_codes)|^2] at each code phase. *)
Record work_input : Type := mkInput {
  ninput_items : Z;
  in_samples : nat -> gr_complex;
  magnitude_grid : nat -> nat -> Q
}.

(** An entry of [peaks]: [map<string,double>] with the three keys
    "code phase", "doppler" and "sample counter"; each holds an integer
    converted to double, kept here as the integer. *)
Record peak_values : Type := mkPeak {
  code_phase : Z;
  doppler : Z;
  sample_counter : Z
}.

(** [std::map<double, ...>]: keys ascending, no key twice. *)
Definition peak_map : Type := list (Q * peak_values).

(** [peaks[k] = v]. *)
Fixpoint peaks_insert (k : Q) (v : peak_values) (m : peak_map) : peak_map :=
  match m with
  | [] => [(k, v)]
  | (k', v') :: m' =>
      if Qltb k k' then (k, v) :: m
      else if Qltb k' k then (k', v') :: peaks_insert k v m'
      else (k', v) :: m'
  end.

(** [volk_32f_index_max_16u_a]: the index of the largest of the first [n]
    values, the first one when it occurs several times. *)
Fixpoint index_max_from (src : nat -> Q) (n i target : nat) : nat :=
  match n with
  | O => target
  | S n' =>
      index_max_from src n' (S i) (if Qltb (src target) (src i) then i else target)
  end.

Definition volk_32f_index_max (src : nat -> Q) (num_points : nat) : nat :=
  index_max_from src (pred num_points) 1 0.

(** [volk_32f_accumulator_s32f_a] over [volk_32fc_magnitude_squared_32f_a]. *)
Fixpoint accumulate_power (src : nat -> gr_complex) (n : nat) : Q :=
  match n with
  | O => 0
  | S n' => accumulate_power src n' + magnitude_squared (src n')
  end.

Definition fft_normalization_factor (cfg : config) : Q :=
  inject_Z (d_fft_size cfg) * inject_Z (d_fft_size cfg).

Definition set_state (st : state) (s : Z) : state :=
  {| d_sample_counter := d_sample_counter st;
     d_active := d_active st;
     d_state := s;
     d_well_count := d_well_count st;
     d_mag := d_mag st;
     d_mag_2nd_highest := d_mag_2nd_highest st;
     d_input_power := d_input_power st;
     d_test_statistics := d_test_statistics st;
     d_gnss_synchro := d_gnss_synchro st;
     d_channel_internal_queue := d_channel_internal_queue st |}.

Definition set_mag (st : state) (mag mag_2nd : Q) : state :=
  {| d_sample_counter := d_sample_counter st;
     d_active := d_active st;
     d_state := d_state st;
     d_well_count := d_well_count st;
     d_mag := mag;
     d_mag_2nd_highest := mag_2nd;
     d_input_power := d_input_power st;
     d_test_statistics := d_test_statistics st;
     d_gnss_synchro := d_gnss_synchro st;
     d_channel_internal_queue := d_channel_internal_queue st |}.

(** The three [Acq_*] fields of the shared record and [d_test_statistics]. *)
Definition set_estimate (st : state) (delay doppler : Q) (stamp : Z)
    (test_statistics : Q) : state :=
  {| d_sample_counter := d_sample_counter st;
     d_active := d_active st;
     d_state := d_state st;
     d_well_count := d_well_count st;
     d_mag := d_mag st;
     d_mag_2nd_highest := d_mag_2nd_highest st;
     d_input_power := d_input_power st;
     d_test_statistics := test_statistics;
     d_gnss_synchro := set_acq (d_gnss_synchro st) delay doppler stamp;
     d_channel_internal_queue := d_channel_internal_queue st |}.

(** The largest value of [d_magnitude] in Doppler bin [k], as [indext]
    addresses it, and the normalization applied to it. *)
Definition bin_maximum (cfg : config) (inp : work_input) (k : nat) : Q :=
  magnitude_grid inp k
    (volk_32f_index_max (magnitude_grid inp k) (Z.to_nat (d_fft_size cfg))).

Definition normalization (cfg : config) : Q :=
  fft_normalization_factor cfg * fft_normalization_factor cfg.

(** The body of [for (i = 0; i < d_fft_size; i++)]: every code phase above
    [threshold_spoofing] enters [peaks] under its normalized magnitude. *)
Definition collect_peak (cfg : config) (st : state) (d_magnitude : nat -> Q)
    (threshold_spoofing : Q) (doppler : Z) (i : nat) (peaks : peak_map)
  : res peak_map :=
  if Qltb threshold_spoofing (d_magnitude i) then
    tmp ← fdiv (d_magnitude i)
               (fft_normalization_factor cfg * fft_normalization_factor cfg);
    phase ← imod (Z.of_nat i) (d_samples_per_code cfg);
    Ok (peaks_insert tmp (mkPeak phase doppler (d_sample_counter st)) peaks)
  else Ok peaks.

(** The body of the Doppler frequency search loop. *)
Definition doppler_bin (cfg : config) (inp : work_input) (threshold_spoofing : Q)
    (doppler_index : nat) (s : state * peak_map) : res (state * peak_map) :=
  let '(st, peaks) := s in
  let doppler := (- d_doppler_max cfg + d_doppler_step cfg * Z.of_nat doppler_index)%Z in
  let d_magnitude := magnitude_grid inp doppler_index in
  let indext := volk_32f_index_max d_magnitude (Z.to_nat (d_fft_size cfg)) in
  magt ← fdiv (d_magnitude indext)
              (fft_normalization_factor cfg * fft_normalization_factor cfg);
  peaks ← for_loop (Z.to_nat (d_fft_size cfg)) 0
            (collect_peak cfg st d_magnitude threshold_spoofing doppler) peaks;
  if Qltb (d_mag st) magt then
    let st := set_mag st magt (d_mag st) in
    statistic ← fdiv (d_mag st) (d_input_power st);
    if Qltb (d_test_statistics st) statistic || negb (d_bit_transition_flag cfg) then
      phase ← imod (Z.of_nat indext) (d_samples_per_code cfg);
      Ok (set_estimate st (inject_Z phase) (inject_Z doppler) (d_sample_counter st)
            statistic, peaks)
    else Ok (st, peaks)
  else Ok (st, peaks).

(** What the Doppler search loop keeps true: [st0] is the state at its
    start, [k] the number of bins processed. *)
Definition bin_invariant (cfg : config) (inp : work_input) (st0 : state) (k : nat)
    (s : state * peak_map) : Prop :=
  let st := fst s in
  d_state st = d_state st0
  /\ d_well_count st = d_well_count st0
  /\ d_input_power st = d_input_power st0
  /\ d_channel_internal_queue st = d_channel_internal_queue st0
  /\ (d_bit_transition_flag cfg = true ->
      d_test_statistics st0 <= d_test_statistics st)
  /\ (forall j, (j < k)%nat -> bin_maximum cfg inp j / normalization cfg <= d_mag st)
  /\ (d_mag st == 0
      \/ exists j, (j < k)%nat /\ d_mag st == bin_maximum cfg inp j / normalization cfg)
  /\ (d_mag_2nd_highest st == 0
      \/ exists j, (j < k)%nat
                   /\ d_mag_2nd_highest st == bin_maximum cfg inp j / normalization cfg)
  /\ d_mag_2nd_highest st <= d_mag st.

(** The test on one entry of [higher_peaks]; the source reads
    [it->first] into both [next_code_phase] and [next_doppler]. *)
Definition too_close (cfg : config) (candidate : peak_values) (it : Z * Z) : bool :=
  let next_code_phase := fst it in
  let next_doppler := fst it in
  (Z.abs (next_code_phase - code_phase candidate) <? 2 * d_samples_per_code cfg)%Z
  && (next_doppler =? doppler candidate)%Z.

Definition use_this_peak (cfg : config) (higher_peaks : gset (Z * Z))
    (candidate : peak_values) : bool :=
  negb (existsb (too_close cfg candidate) (elements higher_peaks)).

(** The loop over [peaks] from [rbegin()] to [rend()]: the first [d_peak]
    entries go to [higher_peaks], the first later entry that passes
    [use_this_peak] is returned. *)
Fixpoint select_peak (cfg : config) (rits : list (Q * peak_values)) (i : Z)
    (higher_peaks : gset (Z * Z)) : option (Q * peak_values) :=
  match rits with
  | [] => None
  | (magnitude, values) :: rest =>
      if (i <? d_peak cfg)%Z then
        select_peak cfg rest (i + 1)%Z
          ({[ (code_phase values, doppler values) ]} ∪ higher_peaks)
      else if use_this_peak cfg higher_peaks values then Some (magnitude, values)
      else select_peak cfg rest i higher_peaks
  end.

(** The selection as the specification words it, for comparison with
    [select_peak]: a candidate is taken when, for every peak selected
    before it, it is more than [2 * d_samples_per_code] away in code phase
    or differs in Doppler. *)
Definition spec_disjoint (cfg : config) (candidate : peak_values) (it : Z * Z) : bool :=
  (2 * d_samples_per_code cfg <? Z.abs (fst it - code_phase candidate))%Z
  || negb (snd it =? doppler candidate)%Z.

Fixpoint spec_select_peak (cfg : config) (rits : list (Q * peak_values)) (i : Z)
    (higher_peaks : gset (Z * Z)) : option (Q * peak_values) :=
  match rits with
  | [] => None
  | (magnitude, values) :: rest =>
      if (i <? d_peak cfg)%Z then
        spec_select_peak cfg rest (i + 1)%Z
          ({[ (code_phase values, doppler values) ]} ∪ higher_peaks)
      else if forallb (spec_disjoint cfg values) (elements higher_peaks)
           then Some (magnitude, values)
      else spec_select_peak cfg rest i higher_peaks
  end.

(** Auxiliary-peak resolution after the search loop: the new state and
    [found_peak]. *)
Definition auxiliary_peak (cfg : config) (st : state) (peaks : peak_map)
  : res (state * bool) :=
  if (1 <? d_peak cfg)%Z then
    match select_peak cfg (reverse peaks) 0 ∅ with
    | Some (magnitude, values) =>
        statistic ← fdiv magnitude (d_input_power st);
        Ok (set_estimate st (inject_Z (code_phase values))
              (inject_Z (doppler values)) (sample_counter values) statistic, true)
    | None => Ok (st, false)
    end
  else Ok (st, false).

(** The decision that closes a dwell; the state stays 1 when no branch
    assigns it. *)
Definition decide_state (cfg : config) (st : state) (found_peak : bool) : Z :=
  let acquire_auxiliary_peaks := (1 <? d_peak cfg)%Z in
  if negb (d_bit_transition_flag cfg) then
    if acquire_auxiliary_peaks && negb found_peak then 3%Z
    else if Qltb (d_threshold cfg) (d_test_statistics st) then 2%Z
    else if (d_well_count st =? d_max_dwells cfg)%Z then 3%Z
    else d_state st
  else
    if (d_well_count st =? d_max_dwells cfg)%Z then
      if acquire_auxiliary_peaks && negb found_peak then 3%Z
      else if Qltb (d_threshold cfg) (d_test_statistics st) then 2%Z
      else 3%Z
    else d_state st.

(** [case 1] up to the end of the Doppler search loop. *)
Definition search (cfg : config) (st : state) (inp : work_input)
  : res (state * peak_map) :=
  let n := Z.to_nat (d_fft_size cfg) in
  input_power ← fdiv (accumulate_power (in_samples inp) n) (inject_Z (d_fft_size cfg));
  let st :=
    {| d_sample_counter := wrap64 (d_sample_counter st + d_fft_size cfg);
       d_active := d_active st;
       d_state := d_state st;
       d_well_count := wrap32 (d_well_count st + 1);
       d_mag := 0;
       d_mag_2nd_highest := 0;
       d_input_power := input_power;
       d_test_statistics := d_test_statistics st;
       d_gnss_synchro := d_gnss_synchro st;
       d_channel_internal_queue := d_channel_internal_queue st |} in
  let threshold_spoofing :=
    d_threshold cfg * d_input_power st
    * (fft_normalization_factor cfg * fft_normalization_factor cfg) in
  for_loop (d_num_doppler_bins cfg) 0 (doppler_bin cfg inp threshold_spoofing) (st, []).

(** [case 1]: one dwell. *)
Definition dwell (cfg : config) (st : state) (inp : work_input) : res state :=
  '(st, peaks) ← search cfg st inp;
  '(st, found_peak) ← auxiliary_peak cfg st peaks;
  Ok (set_state st (decide_state cfg st found_peak)).

(** [case 0]. *)
Definition idle (cfg : config) (st : state) (inp : work_input) : state :=
  let counter :=
    wrap64 (d_sample_counter st + wrap32 (d_fft_size cfg * ninput_items inp)) in
  if d_active st then
    {| d_sample_counter := counter;
       d_active := true;
       d_state := 1;
       d_well_count := 0;
       d_mag := 0;
       d_mag_2nd_highest := 0;
       d_input_power := 0;
       d_test_statistics := 0;
       d_gnss_synchro := set_acq (d_gnss_synchro st) 0 0 0;
       d_channel_internal_queue := d_channel_internal_queue st |}
  else
    {| d_sample_counter := counter;
       d_active := d_active st;
       d_state := d_state st;
       d_well_count := d_well_count st;
       d_mag := d_mag st;
       d_mag_2nd_highest := d_mag_2nd_highest st;
       d_input_power := d_input_power st;
       d_test_statistics := d_test_statistics st;
       d_gnss_synchro := d_gnss_synchro st;
       d_channel_internal_queue := d_channel_internal_queue st |}.

(** [case 2] and [case 3]: back to idle, the message pushed on the channel
    queue (1 = ACQ_SUCCESS, 2 = ACQ_FAIL). *)
Definition declare (cfg : config) (st : state) (inp : work_input)
    (acquisition_message : Z) : state :=
  {| d_sample_counter :=
       wrap64 (d_sample_counter st + wrap32 (d_fft_size cfg * ninput_items inp));
     d_active := false;
     d_state := 0;
     d_well_count := d_well_count st;
     d_mag := d_mag st;
     d_mag_2nd_highest := d_mag_2nd_highest st;
     d_input_power := d_input_power st;
     d_test_statistics := d_test_statistics st;
     d_gnss_synchro := d_gnss_synchro st;
     d_channel_internal_queue := d_channel_internal_queue st ++ [acquisition_message] |}.

(** [general_work]: the new state and the number of items consumed. *)
Definition general_work (cfg : config) (st : state) (inp : work_input)
  : res (state * Z) :=
  if (d_state st =? 0)%Z then Ok (idle cfg st inp, ninput_items inp)
  else if (d_state st =? 1)%Z then st' ← dwell cfg st inp; Ok (st', 1%Z)
  else if (d_state st =? 2)%Z then Ok (declare cfg st inp 1, ninput_items inp)
  else if (d_state st =? 3)%Z then Ok (declare cfg st inp 2, ninput_items inp)
  else Ok (st, 0%Z).

(** ** [init] *)

(** An unsigned value read as [int]. *)
Definition to_int (z : Z) : Z := ((z + 2 ^ 31) mod 2 ^ 32 - 2 ^ 31)%Z.

(** The counting loop of [init],
    [for (doppler = (int)(-d_doppler_max); doppler <= (int)d_doppler_max;
          doppler += d_doppler_step) d_num_doppler_bins++],
    run for at most [fuel] tests of its condition: [None] when the loop
    has not left by then.  The sum is formed on unsigned operands and
    stored in an [int]; the bins are counted without the wrap of the
    unsigned counter. *)
Fixpoint count_doppler_bins (fuel : nat) (cfg : config) (doppler : Z) (bins : nat)
  : option nat :=
  match fuel with
  | O => None
  | S fuel' =>
      if (doppler <=? to_int (d_doppler_max cfg))%Z then
        count_doppler_bins fuel' cfg (to_int (doppler + d_doppler_step cfg)) (S bins)
      else Some bins
  end.

(** [init]: the estimate and the magnitudes are cleared and the Doppler
    bins counted; the wipeoff signal of bin [doppler_index] is generated
    for [-(int)d_doppler_max + d_doppler_step * doppler_index], the
    frequency [doppler_bin] reports for it. *)
Definition init (fuel : nat) (cfg : config) (st : state) : option (config * state) :=
  bins ← count_doppler_bins fuel cfg (to_int (- d_doppler_max cfg)) 0;
  Some ({| d_fft_size := d_fft_size cfg;
           d_samples_per_code := d_samples_per_code cfg;
           d_max_dwells := d_max_dwells cfg;
           d_doppler_max := d_doppler_max cfg;
           d_doppler_step := d_doppler_step cfg;
           d_num_doppler_bins := bins;
           d_threshold := d_threshold cfg;
           d_bit_transition_flag := d_bit_transition_flag cfg;
           d_peak := d_peak cfg |},
        {| d_sample_counter := d_sample_counter st;
           d_active := d_active st;
           d_state := d_state st;
           d_well_count := d_well_count st;
           d_mag := 0;
           d_mag_2nd_highest := 0;
           d_input_power := 0;
           d_test_statistics := d_test_statistics st;
           d_gnss_synchro := set_acq (d_gnss_synchro st) 0 0 0;
           d_channel_internal_queue := d_channel_internal_queue st |}).

(** The scheduler: [general_work] called once per entry of [inputs]; the
    state after the last call. *)
Fixpoint run (cfg : config) (st : state) (inputs : list work_input) : res state :=
  match inputs with
  | [] => Ok st
  | inp :: rest => '(st', _) ← general_work cfg st inp; run cfg st' rest
  end.

End Acquisition.

(** * Tracking: [Gps_L1_Ca_Dll_Pll_CADLL_Tracking_cc] *)

Module Tracking.

Definition CN0_ESTIMATION_SAMPLES : Z := 20.
Definition MINIMUM_VALID_CN0 : Q := 25.
Definition MAXIMUM_LOCK_FAIL_COUNTER : Z := 50.
Definition CARRIER_LOCK_THRESHOLD : Q := 85 # 100.

(** Modelled from the spec: GPS_L1_CA.h is not among the sources; the C/A
    code is the length-1023 chip sequence, [GPS_L1_CA_CODE_LENGTH_CHIPS]. *)
Definition GPS_L1_CA_CODE_LENGTH_CHIPS : Q := 1023.

(** What the block takes from the rest of the receiver and from libm: the
    other constants of GPS_L1_CA.h, the DLL discriminator, the CN0 and
    lock detectors, the C/A code generator and the loop filter classes
    (a filter is its state, [initialize] and the update that returns the
    new state with the filtered value). *)
Class Externals : Type := {
  GPS_L1_CA_CODE_RATE_HZ : Q;
  GPS_L1_FREQ_HZ : Q;
  GPS_L1_CA_CODE_PERIOD : Q;
  GPS_TWO_PI : Q;
  atan2 : Q -> Q -> Q;
  dll_nc_e_minus_l_normalized : gr_complex -> gr_complex -> Q;
  cn0_svn_estimator : list gr_complex -> Z -> Z -> Q -> Q;
  carrier_lock_detector : list gr_complex -> Z -> Q;
  gps_l1_ca_code_gen_complex : Z -> Z -> list gr_complex;
  Tracking_2nd_PLL_filter : Type;
  pll_initialize : Tracking_2nd_PLL_filter -> Tracking_2nd_PLL_filter;
  get_carrier_nco : Tracking_2nd_PLL_filter -> Q -> Tracking_2nd_PLL_filter * Q;
  Tracking_2nd_DLL_filter : Type;
  dll_initialize : Tracking_2nd_DLL_filter -> Tracking_2nd_DLL_filter;
  get_code_nco : Tracking_2nd_DLL_filter -> Q -> Tracking_2nd_DLL_filter * Q;
  Tracking_ALL_filter : Type;
  all_initialize : Tracking_ALL_filter -> Tracking_ALL_filter;
  get_amplitude_nco : Tracking_ALL_filter -> Q -> Tracking_ALL_filter * Q
}.

(** Modelled from the spec: tracking_discriminators.h is not among the
    sources; [pll_cloop_two_quadrant_atan(prompt)] is
    [atan2(prompt.imag, prompt.real) / (2 pi)]. *)
Definition pll_cloop_two_quadrant_atan `{Externals} (prompt : gr_complex) : Q :=
  atan2 (imag prompt) (real prompt) / GPS_TWO_PI.

(** A correlator output that [std::isnan] is applied to. *)
Inductive correlation : Type :=
| Finite (c : gr_complex)
| NotANumber.

(** Constructor arguments; [d_queue_attached] is
    [d_queue != gr::msg_queue::sptr()]. *)
Record config : Type := mkConfig {
  d_fs_in : Z;
  d_early_late_spc_chips : Q;
  d_channel : Z;
  d_queue_attached : bool
}.

(** The members the block reads and writes.  [d_queue] holds the control
    messages handed to the queue, (channel, payload), oldest first.  The
    write-only members [d_code_phase_samples], [d_sample_counter_f] and
    [d_sample_counter_fm], the replica buffers and the dump file are left
    out. *)
Record state `{Externals} : Type := mkState {
  d_code_freq_chips : Q;
  d_rem_code_phase_samples : Q;
  d_rem_code_phase_samples_m : Q;
  d_rem_carr_phase_rad : Q;
  d_acc_carrier_phase_rad : Q;
  d_acc_code_phase_secs : Q;
  d_acc_code_phase_secs_m : Q;
  d_sample_counter : Z;
  d_sample_counter_m : Z;
  d_acq_sample_stamp : Z;
  d_acq_code_phase_samples : Q;
  d_acq_carrier_doppler_hz : Q;
  d_carrier_doppler_hz : Q;
  d_enable_tracking : bool;
  d_pull_in : bool;
  CADLL_init : bool;
  d_last_seg : Z;
  d_current_prn_length_samples : Z;
  d_current_prn_length_samples_m : Z;
  d_cn0_estimation_counter : Z;
  d_Prompt_buffer : list gr_complex;
  d_carrier_lock_test : Q;
  d_CN0_SNV_dB_Hz : Q;
  d_carrier_lock_fail_counter : Z;
  d_ca_code : list gr_complex;
  d_Early : gr_complex;
  d_Prompt : correlation;
  d_Late : gr_complex;
  d_Early_m : gr_complex;
  d_Prompt_m : gr_complex;
  d_Late_m : gr_complex;
  a1 : Q;
  a2 : Q;
  d_carrier_loop_filter : Tracking_2nd_PLL_filter;
  d_code_loop_filter : Tracking_2nd_DLL_filter;
  d_code_loop_filter_m : Tracking_2nd_DLL_filter;
  d_amplitude_loop_filter : Tracking_ALL_filter;
  d_amplitude_loop_filter_m : Tracking_ALL_filter;
  d_queue : list (Z * Z);
  d_acquisition_gnss_synchro : Gnss_Synchro
}.

(** One call: the number of available input samples and what
    [d_correlator] computes from them and the local replicas.  In
    initialization mode only [Early], [Prompt], [Late] are produced. *)
Record work_input : Type := mkInput {
  ninput_items : Z;
  Early : gr_complex;
  Prompt : correlation;
  Late : gr_complex;
  Early_m : gr_complex;
  Prompt_m : gr_complex;
  Late_m : gr_complex;
  corr : Q;
  corr_m : Q
}.

(** The process variables of a steady-state step (the dump file records
    them). *)
Record process_vars : Type := mkVars {
  carr_error_hz : Q;
  carr_error_filt_hz : Q;
  code_error_chips : Q;
  code_error_filt_chips : Q;
  code_error_filt_secs : Q;
  code_error_filt_secs_m : option Q;      (* assigned in CADLL mode only *)
  T_prn_samples : Q;
  K_blk_samples : Q;
  K_blk_samples_m : Q
}.

(** What a call leaves behind: [out[0]] when it is written, the number of
    samples consumed, and the process variables of a steady-state step. *)
Record work_output : Type := mkOutput {
  out : option Gnss_Synchro;
  consumed : Z;
  vars : option process_vars
}.

Definition to_int32 (z : Z) : Z := ((z + 2 ^ 31) mod 2 ^ 32 - 2 ^ 31)%Z.

(** ** Local code replicas *)

Record replicas : Type := mkReplicas {
  early_code : list gr_complex;
  prompt_code : list gr_complex;
  late_code : list gr_complex
}.

Definition code_length_chips : Z := trunc GPS_L1_CA_CODE_LENGTH_CHIPS.

(** [1 + round(fmod(tcode_chips - d_early_late_spc_chips, code_length_chips))]. *)
Definition associated_chip_index (cfg : config) (tcode_chips : Q) : Z :=
  (1 + round (fmod (tcode_chips - d_early_late_spc_chips cfg)
                   (inject_Z code_length_chips)))%Z.

(** [d_ca_code[index]]; the table has the entries the list has. *)
Definition read_code (ca_code : list gr_complex) (index : Z) : res gr_complex :=
  if (index <? 0)%Z then Err OutOfRange
  else match ca_code !! Z.to_nat index with
       | Some c => Ok c
       | None => Err OutOfRange
       end.

(** The unified loop for the E, P, L code vectors and the two [memcpy]:
    [wrap] is what the loop does to the index before the table is read.
    [Qred] keeps the running code phase in lowest terms and leaves its
    value as it is. *)
Definition epl_replicas (cfg : config) (ca_code : list gr_complex)
    (code_freq_chips rem_code_phase_samples : Q) (prn_length_samples : Z)
    (wrap : Z -> Z) : res replicas :=
  code_phase_step_chips ← fdiv code_freq_chips (inject_Z (d_fs_in cfg));
  let rem_code_phase_chips := rem_code_phase_samples * code_phase_step_chips in
  let tcode_chips := - rem_code_phase_chips in
  spacing ← fdiv (d_early_late_spc_chips cfg) code_phase_step_chips;
  let early_late_spc_samples := round spacing in
  let epl_loop_length_samples := (prn_length_samples + early_late_spc_samples * 2)%Z in
  '(_, early) ← for_loop (Z.to_nat epl_loop_length_samples) 0
      (fun _ '(tcode_chips, early) =>
         c ← read_code ca_code (wrap (associated_chip_index cfg tcode_chips));
         Ok (Qred (tcode_chips + code_phase_step_chips), early ++ [c]))
      (tcode_chips, []);
  Ok {| early_code := early;
        prompt_code := take (Z.to_nat prn_length_samples)
                         (drop (Z.to_nat early_late_spc_samples) early);
        late_code := take (Z.to_nat prn_length_samples)
                       (drop (Z.to_nat (early_late_spc_samples * 2)) early) |}.

Definition update_local_code `{Externals} (cfg : config) (st : state) : res replicas :=
  epl_replicas cfg (d_ca_code st) (d_code_freq_chips st)
    (d_rem_code_phase_samples st) (d_current_prn_length_samples st)
    (fun associated_chip_index => associated_chip_index).

Definition update_local_code_m `{Externals} (cfg : config) (st : state) : res replicas :=
  epl_replicas cfg (d_ca_code st) (d_code_freq_chips st)
    (d_rem_code_phase_samples_m st) (d_current_prn_length_samples_m st)
    (fun associated_chip_index =>
       if (associated_chip_index <? 0)%Z then (1023 + associated_chip_index)%Z
       else associated_chip_index).

(** The code table after [start_tracking]: chips 1..1023 from the
    generator, then the two guard entries. *)
Definition write_at {A : Type} (offset : nat) (src dst : list A) : list A :=
  take offset dst ++ take (length dst - offset) src
  ++ drop (offset + length src) dst.

Definition seed_ca_code `{Externals} (ca_code : list gr_complex) (prn : Z)
  : res (list gr_complex) :=
  let ca_code := write_at 1 (gps_l1_ca_code_gen_complex prn 0) ca_code in
  last_chip ← read_code ca_code code_length_chips;
  let ca_code := <[ 0%nat := last_chip ]> ca_code in
  first_chip ← read_code ca_code 1;
  Ok (<[ Z.to_nat (code_length_chips + 1) := first_chip ]> ca_code).

(** ** [start_tracking] *)

Definition start_tracking `{Externals} (cfg : config) (st : state) : res state :=
  let acq_code_phase_samples := Acq_delay_samples (d_acquisition_gnss_synchro st) in
  let acq_carrier_doppler_hz := Acq_doppler_hz (d_acquisition_gnss_synchro st) in
  let acq_sample_stamp := Acq_samplestamp_samples (d_acquisition_gnss_synchro st) in
  let fs_in := inject_Z (d_fs_in cfg) in
  let acq_trk_diff_samples := (d_sample_counter st - acq_sample_stamp)%Z in
  acq_trk_diff_seconds ← fdiv (inject_Z acq_trk_diff_samples) fs_in;
  let radial_velocity := (GPS_L1_FREQ_HZ + acq_carrier_doppler_hz) / GPS_L1_FREQ_HZ in
  let code_freq_chips := radial_velocity * GPS_L1_CA_CODE_RATE_HZ in
  T_chip_mod_seconds ← fdiv 1 code_freq_chips;
  let T_prn_mod_seconds := T_chip_mod_seconds * GPS_L1_CA_CODE_LENGTH_CHIPS in
  let T_prn_mod_samples := T_prn_mod_seconds * fs_in in
  let T_prn_true_seconds := GPS_L1_CA_CODE_LENGTH_CHIPS / GPS_L1_CA_CODE_RATE_HZ in
  let T_prn_true_samples := T_prn_true_seconds * fs_in in
  let T_prn_diff_seconds := T_prn_true_seconds - T_prn_mod_seconds in
  let N_prn_diff := acq_trk_diff_seconds / T_prn_true_seconds in
  corrected ← fmod_checked
    (acq_code_phase_samples + T_prn_diff_seconds * N_prn_diff * fs_in)
    T_prn_true_samples;
  let corrected_acq_phase_samples :=
    if Qltb corrected 0 then T_prn_mod_samples + corrected else corrected in
  ca_code ← seed_ca_code (d_ca_code st) (PRN (d_acquisition_gnss_synchro st));
  Ok {| d_code_freq_chips := code_freq_chips;
        d_rem_code_phase_samples := 0;
        d_rem_code_phase_samples_m := 0;
        d_rem_carr_phase_rad := 0;
        d_acc_carrier_phase_rad := 0;
        d_acc_code_phase_secs := 0;
        d_acc_code_phase_secs_m := d_acc_code_phase_secs_m st;
        d_sample_counter := d_sample_counter st;
        d_sample_counter_m := d_sample_counter_m st;
        d_acq_sample_stamp := acq_sample_stamp;
        d_acq_code_phase_samples := corrected_acq_phase_samples;
        d_acq_carrier_doppler_hz := acq_carrier_doppler_hz;
        d_carrier_doppler_hz := acq_carrier_doppler_hz;
        d_enable_tracking := true;
        d_pull_in := true;
        CADLL_init := CADLL_init st;
        d_last_seg := d_last_seg st;
        d_current_prn_length_samples := round T_prn_mod_samples;
        d_current_prn_length_samples_m := round T_prn_mod_samples;
        d_cn0_estimation_counter := d_cn0_estimation_counter st;
        d_Prompt_buffer := d_Prompt_buffer st;
        d_carrier_lock_test := d_carrier_lock_test st;
        d_CN0_SNV_dB_Hz := d_CN0_SNV_dB_Hz st;
        d_carrier_lock_fail_counter := 0;
        d_ca_code := ca_code;
        d_Early := d_Early st;
        d_Prompt := d_Prompt st;
        d_Late := d_Late st;
        d_Early_m := d_Early_m st;
        d_Prompt_m := d_Prompt_m st;
        d_Late_m := d_Late_m st;
        a1 := a1 st;
        a2 := a2 st;
        d_carrier_loop_filter := pll_initialize (d_carrier_loop_filter st);
        d_code_loop_filter := dll_initialize (d_code_loop_filter st);
        d_code_loop_filter_m := dll_initialize (d_code_loop_filter_m st);
        d_amplitude_loop_filter := all_initialize (d_amplitude_loop_filter st);
        d_amplitude_loop_filter_m := all_initialize (d_amplitude_loop_filter_m st);
        d_queue := d_queue st;
        d_acquisition_gnss_synchro := d_acquisition_gnss_synchro st |}.

(** ** [general_work] *)

(** The members that change outside the steady-state step: the two sample
    counters, [d_pull_in], [d_last_seg] and the correlator outputs. *)
Definition set_stream `{Externals} (st : state) (sample_counter sample_counter_m : Z)
    (pull_in : bool) (last_seg : Z) (E : gr_complex) (P : correlation)
    (L E_m P_m L_m : gr_complex) : state :=
  {| d_code_freq_chips := d_code_freq_chips st;
     d_rem_code_phase_samples := d_rem_code_phase_samples st;
     d_rem_code_phase_samples_m := d_rem_code_phase_samples_m st;
     d_rem_carr_phase_rad := d_rem_carr_phase_rad st;
     d_acc_carrier_phase_rad := d_acc_carrier_phase_rad st;
     d_acc_code_phase_secs := d_acc_code_phase_secs st;
     d_acc_code_phase_secs_m := d_acc_code_phase_secs_m st;
     d_sample_counter := sample_counter;
     d_sample_counter_m := sample_counter_m;
     d_acq_sample_stamp := d_acq_sample_stamp st;
     d_acq_code_phase_samples := d_acq_code_phase_samples st;
     d_acq_carrier_doppler_hz := d_acq_carrier_doppler_hz st;
     d_carrier_doppler_hz := d_carrier_doppler_hz st;
     d_enable_tracking := d_enable_tracking st;
     d_pull_in := pull_in;
     CADLL_init := CADLL_init st;
     d_last_seg := last_seg;
     d_current_prn_length_samples := d_current_prn_length_samples st;
     d_current_prn_length_samples_m := d_current_prn_length_samples_m st;
     d_cn0_estimation_counter := d_cn0_estimation_counter st;
     d_Prompt_buffer := d_Prompt_buffer st;
     d_carrier_lock_test := d_carrier_lock_test st;
     d_CN0_SNV_dB_Hz := d_CN0_SNV_dB_Hz st;
     d_carrier_lock_fail_counter := d_carrier_lock_fail_counter st;
     d_ca_code := d_ca_code st;
     d_Early := E;
     d_Prompt := P;
     d_Late := L;
     d_Early_m := E_m;
     d_Prompt_m := P_m;
     d_Late_m := L_m;
     a1 := a1 st;
     a2 := a2 st;
     d_carrier_loop_filter := d_carrier_loop_filter st;
     d_code_loop_filter := d_code_loop_filter st;
     d_code_loop_filter_m := d_code_loop_filter_m st;
     d_amplitude_loop_filter := d_amplitude_loop_filter st;
     d_amplitude_loop_filter_m := d_amplitude_loop_filter_m st;
     d_queue := d_queue st;
     d_acquisition_gnss_synchro := d_acquisition_gnss_synchro st |}.

(** Receiver signal alignment, the first call after [start_tracking];
    [out[0]] is not written. *)
Definition pull_in `{Externals} (cfg : config) (st : state) : res (state * work_output) :=
  let acq_to_trk_delay_samples := to_int32 (d_sample_counter st - d_acq_sample_stamp st) in
  shift ← fmod_checked (inject_Z acq_to_trk_delay_samples)
                       (inject_Z (d_current_prn_length_samples st));
  let acq_trk_shif_correction_samples :=
    inject_Z (d_current_prn_length_samples st) - shift in
  let samples_offset :=
    round (d_acq_code_phase_samples st + acq_trk_shif_correction_samples) in
  let sample_counter := wrap64 (d_sample_counter st + samples_offset) in
  Ok (set_stream st sample_counter sample_counter false (d_last_seg st)
        (d_Early st) (d_Prompt st) (d_Late st)
        (d_Early_m st) (d_Prompt_m st) (d_Late_m st),
      {| out := None; consumed := samples_offset; vars := None |}).

(** The block the samples consistency check skips. *)
Definition nan_block `{Externals} (cfg : config) (st : state) (inp : work_input)
  : res (state * work_output) :=
  let samples_available := ninput_items inp in
  let sample_counter := wrap64 (d_sample_counter st + samples_available) in
  timestamp ← fdiv (inject_Z sample_counter) (inject_Z (d_fs_in cfg));
  let acq := d_acquisition_gnss_synchro st in
  Ok (set_stream st sample_counter (d_sample_counter_m st) (d_pull_in st)
        (d_last_seg st) (d_Early st) (d_Prompt st) (d_Late st)
        (d_Early_m st) (d_Prompt_m st) (d_Late_m st),
      {| out := Some {| PRN := PRN acq;
                        Acq_delay_samples := Acq_delay_samples acq;
                        Acq_doppler_hz := Acq_doppler_hz acq;
                        Acq_samplestamp_samples := Acq_samplestamp_samples acq;
                        Prompt_I := 0;
                        Prompt_Q := 0;
                        Tracking_timestamp_secs := timestamp;
                        Carrier_phase_rads := 0;
                        Carrier_Doppler_hz := Carrier_Doppler_hz acq;
                        Code_phase_secs := 0;
                        CN0_dB_hz := 0;
                        Flag_valid_tracking := false |};
         consumed := samples_available;
         vars := None |}).

(** [floor(d_sample_counter / d_fs_in)] of the debug output, stored in
    [d_last_seg] when it differs. *)
Definition second_counter (cfg : config) (sample_counter last_seg : Z) : res Z :=
  seg ← idiv sample_counter (d_fs_in cfg);
  Ok (if (seg =? last_seg)%Z then last_seg else seg).

(** Tracking disabled: the acquisition record is passed on as it is. *)
Definition disabled `{Externals} (cfg : config) (st : state) : res (state * work_output) :=
  last_seg ← second_counter cfg (d_sample_counter st) (d_last_seg st);
  Ok (set_stream st
        (wrap64 (d_sample_counter st + d_current_prn_length_samples st))
        (wrap64 (d_sample_counter_m st + d_current_prn_length_samples_m st))
        (d_pull_in st) last_seg
        (Cplx 0 0) (Finite (Cplx 0 0)) (Cplx 0 0)
        (d_Early_m st) (d_Prompt_m st) (d_Late_m st),
      {| out := Some (d_acquisition_gnss_synchro st);
         consumed := d_current_prn_length_samples st;
         vars := None |}).

(** The correlators as [d_correlator] leaves them: [Carrier_wipeoff_and_EPL_volk]
    writes the primary three, [Carrier_wipeoff_and_EPL_CADLL_volk] all six. *)
Definition correlate `{Externals} (st : state) (inp : work_input) : state :=
  if CADLL_init st then
    set_stream st (d_sample_counter st) (d_sample_counter_m st) (d_pull_in st)
      (d_last_seg st) (Early inp) (Prompt inp) (Late inp)
      (d_Early_m st) (d_Prompt_m st) (d_Late_m st)
  else
    set_stream st (d_sample_counter st) (d_sample_counter_m st) (d_pull_in st)
      (d_last_seg st) (Early inp) (Prompt inp) (Late inp)
      (Early_m inp) (Prompt_m inp) (Late_m inp).

(** [float corr = 1.0], overwritten by the CADLL correlator. *)
Definition input_power `{Externals} (st : state) (inp : work_input) : Q :=
  if CADLL_init st then 1 else corr inp.

(** The amplitude loops: the new [a1], [a2] and the two filters. *)
Definition amplitude_loops `{Externals} (st : state) (prompt : gr_complex)
    (d_input_power : Q)
  : res (Q * Q * Tracking_ALL_filter * Tracking_ALL_filter) :=
  if CADLL_init st then
    let a1_ := d_input_power / (99 # 100) in
    let nco := get_amplitude_nco (d_amplitude_loop_filter st) a1_ in
    let f_a1 := snd nco in
    Ok (f_a1, f_a1 / (1284025416687741 # 1000000000000000), fst nco,
        d_amplitude_loop_filter_m st)
  else
    let t := real prompt + real (d_Prompt_m st) in
    d ← fdiv d_input_power t;
    let Z := d * real prompt in
    let Z_m := d * real (d_Prompt_m st) in
    let a1_ := Z / (99 # 100) in
    let a2_ := Z_m / (99 # 100) in
    let nco := get_amplitude_nco (d_amplitude_loop_filter st) a1_ in
    let nco_m := get_amplitude_nco (d_amplitude_loop_filter_m st) a2_ in
    Ok (snd nco, snd nco_m, fst nco, fst nco_m).

(** What the CN0 estimation and lock detector block writes. *)
Record lock_detectors : Type := mkLock {
  cn0_estimation_counter : Z;
  Prompt_buffer : list gr_complex;
  carrier_lock_test : Q;
  CN0_SNV_dB_Hz : Q;
  carrier_lock_fail_counter : Z;
  queue : list (Z * Z);
  enable_tracking : bool
}.

(** The fail counter after the increment or decrement of an evaluation,
    before it is compared with [MAXIMUM_LOCK_FAIL_COUNTER]. *)
Definition next_fail_counter (lock_failed : bool) (fail_counter : Z) : Z :=
  if lock_failed then (fail_counter + 1)%Z
  else if (0 <? fail_counter)%Z then (fail_counter - 1)%Z
  else fail_counter.

(** The loss of lock detection of one evaluation: [lock_failed] is
    [d_carrier_lock_test < d_carrier_lock_threshold or
     d_CN0_SNV_dB_Hz < MINIMUM_VALID_CN0]; the result is the fail counter,
    the queue and [d_enable_tracking]. *)
Definition loss_of_lock (cfg : config) (lock_failed : bool) (fail_counter : Z)
    (queue : list (Z * Z)) (enable_tracking : bool) : Z * list (Z * Z) * bool :=
  let fail_counter := next_fail_counter lock_failed fail_counter in
  if (MAXIMUM_LOCK_FAIL_COUNTER <? fail_counter)%Z then
    (0%Z,
     if d_queue_attached cfg then queue ++ [(d_channel cfg, 2%Z)] else queue,
     false)
  else (fail_counter, queue, enable_tracking).

(** [d_carrier_lock_threshold] is [CARRIER_LOCK_THRESHOLD] since the
    constructor. *)
Definition lock_failed (lock_test CN0 : Q) : bool :=
  Qltb lock_test CARRIER_LOCK_THRESHOLD || Qltb CN0 MINIMUM_VALID_CN0.


Definition cn0_and_lock_detectors `{Externals} (cfg : config) (st : state)
    (prompt : gr_complex) : lock_detectors :=
  if (d_cn0_estimation_counter st <? CN0_ESTIMATION_SAMPLES)%Z then
    {| cn0_estimation_counter := (d_cn0_estimation_counter st + 1)%Z;
       Prompt_buffer :=
         <[ Z.to_nat (d_cn0_estimation_counter st) := prompt ]> (d_Prompt_buffer st);
       carrier_lock_test := d_carrier_lock_test st;
       CN0_SNV_dB_Hz := d_CN0_SNV_dB_Hz st;
       carrier_lock_fail_counter := d_carrier_lock_fail_counter st;
       queue := d_queue st;
       enable_tracking := d_enable_tracking st |}
  else
    let CN0 := cn0_svn_estimator (d_Prompt_buffer st) CN0_ESTIMATION_SAMPLES
                 (d_fs_in cfg) GPS_L1_CA_CODE_LENGTH_CHIPS in
    let lock_test := carrier_lock_detector (d_Prompt_buffer st) CN0_ESTIMATION_SAMPLES in
    let loss :=
      loss_of_lock cfg (lock_failed lock_test CN0) (d_carrier_lock_fail_counter st)
        (d_queue st) (d_enable_tracking st) in
    {| cn0_estimation_counter := 0;
       Prompt_buffer := d_Prompt_buffer st;
       carrier_lock_test := lock_test;
       CN0_SNV_dB_Hz := CN0;
       carrier_lock_fail_counter := fst (fst loss);
       queue := snd (fst loss);
       enable_tracking := snd loss |}.

(** The PLL update of a steady-state step. *)
Record carrier_loop `{Externals} : Type := mkCarrier {
  pll_carr_error_hz : Q;
  pll_carr_error_filt_hz : Q;
  pll_filter : Tracking_2nd_PLL_filter;
  pll_carrier_doppler_hz : Q;
  pll_code_freq_chips : Q;
  pll_acc_carrier_phase_rad : Q;
  pll_rem_carr_phase_rad : Q
}.

Definition carrier_pll `{Externals} (st : state) (prompt : gr_complex) : carrier_loop :=
  let carr_error_hz := pll_cloop_two_quadrant_atan prompt / GPS_TWO_PI in
  let nco := get_carrier_nco (d_carrier_loop_filter st) carr_error_hz in
  let carr_error_filt_hz := snd nco in
  let carrier_doppler_hz := d_acq_carrier_doppler_hz st + carr_error_filt_hz in
  {| pll_carr_error_hz := carr_error_hz;
     pll_carr_error_filt_hz := carr_error_filt_hz;
     pll_filter := fst nco;
     pll_carrier_doppler_hz := carrier_doppler_hz;
     pll_code_freq_chips :=
       GPS_L1_CA_CODE_RATE_HZ
       + (carrier_doppler_hz * GPS_L1_CA_CODE_RATE_HZ) / GPS_L1_FREQ_HZ;
     pll_acc_carrier_phase_rad :=
       d_acc_carrier_phase_rad st
       + GPS_TWO_PI * carrier_doppler_hz * GPS_L1_CA_CODE_PERIOD;
     pll_rem_carr_phase_rad :=
       fmod (d_rem_carr_phase_rad st
             + GPS_TWO_PI * carrier_doppler_hz * GPS_L1_CA_CODE_PERIOD) GPS_TWO_PI |}.

(** The steady-state step on a finite prompt correlator, from the PLL to
    the update of the sample counters; [st] holds the correlator outputs
    of this block.  The step is given the results of its four checked
    operations: [T_chip_seconds = 1 / d_code_freq_chips], the amplitude
    loops, [Tracking_timestamp_secs] and the second counter. *)
Definition steady_update `{Externals} (cfg : config) (st : state) (inp : work_input)
    (prompt : gr_complex) (T_chip_seconds : Q)
    (amplitude : Q * Q * Tracking_ALL_filter * Tracking_ALL_filter)
    (timestamp : Q) (last_seg : Z) : state * work_output :=
  let fs_in := inject_Z (d_fs_in cfg) in
  (* PLL *)
  let pll := carrier_pll st prompt in
  let carr_error_hz := pll_carr_error_hz pll in
  let carr_error_filt_hz := pll_carr_error_filt_hz pll in
  let carrier_loop_filter := pll_filter pll in
  let carrier_doppler_hz := pll_carrier_doppler_hz pll in
  let code_freq_chips := pll_code_freq_chips pll in
  let acc_carrier_phase_rad := pll_acc_carrier_phase_rad pll in
  let rem_carr_phase_rad := pll_rem_carr_phase_rad pll in
  (* DLL1 *)
  let code_error_chips := dll_nc_e_minus_l_normalized (d_Early st) (d_Late st) in
  let nco := get_code_nco (d_code_loop_filter st) code_error_chips in
  let code_loop_filter := fst nco in
  let code_error_filt_chips := snd nco in
  let code_error_filt_secs :=
    (GPS_L1_CA_CODE_PERIOD * code_error_filt_chips) / GPS_L1_CA_CODE_RATE_HZ in
  let acc_code_phase_secs := d_acc_code_phase_secs st + code_error_filt_secs in
  (* DLL2 *)
  let code_error_chips_m := dll_nc_e_minus_l_normalized (d_Early_m st) (d_Late_m st) in
  let nco_m := get_code_nco (d_code_loop_filter_m st) code_error_chips_m in
  let code_error_filt_chips_m := snd nco_m in
  let code_error_filt_secs_m :=
    (GPS_L1_CA_CODE_PERIOD * code_error_filt_chips_m) / GPS_L1_CA_CODE_RATE_HZ in
  let code_loop_filter_m :=
    if CADLL_init st then d_code_loop_filter_m st else fst nco_m in
  let acc_code_phase_secs_m :=
    if CADLL_init st then d_acc_code_phase_secs_m st
    else d_acc_code_phase_secs_m st + code_error_filt_secs_m in
  (* carrier and code NCO buffer alignment *)
  let T_prn_seconds := T_chip_seconds * GPS_L1_CA_CODE_LENGTH_CHIPS in
  let T_prn_samples := T_prn_seconds * fs_in in
  let K_blk_samples :=
    T_prn_samples + d_rem_code_phase_samples st + code_error_filt_secs * fs_in in
  let K_blk_samples_m :=
    if CADLL_init st then K_blk_samples
    else T_prn_samples + d_rem_code_phase_samples_m st + code_error_filt_secs_m * fs_in in
  let current_prn_length_samples := round K_blk_samples in
  let current_prn_length_samples_m := round K_blk_samples_m in
  (* ALL *)
  let a1' := fst (fst (fst amplitude)) in
  let a2' := snd (fst (fst amplitude)) in
  let amplitude_loop_filter := snd (fst amplitude) in
  let amplitude_loop_filter_m := snd amplitude in
  (* CN0 estimation and lock detectors *)
  let lock := cn0_and_lock_detectors cfg st prompt in
  (* output *)
  let rem_code_phase_samples :=
    K_blk_samples - inject_Z current_prn_length_samples in
  let rem_code_phase_samples_m :=
    K_blk_samples_m - inject_Z current_prn_length_samples in
  let promote := CADLL_init st && Qltb 1 timestamp in
  let acq := d_acquisition_gnss_synchro st in
  ({| d_code_freq_chips := code_freq_chips;
         d_rem_code_phase_samples := rem_code_phase_samples;
         d_rem_code_phase_samples_m :=
           if promote then rem_code_phase_samples - 27 else rem_code_phase_samples_m;
         d_rem_carr_phase_rad := rem_carr_phase_rad;
         d_acc_carrier_phase_rad := acc_carrier_phase_rad;
         d_acc_code_phase_secs := acc_code_phase_secs;
         d_acc_code_phase_secs_m :=
           if promote then acc_code_phase_secs else acc_code_phase_secs_m;
         d_sample_counter := wrap64 (d_sample_counter st + current_prn_length_samples);
         d_sample_counter_m :=
           wrap64 (d_sample_counter_m st + current_prn_length_samples_m);
         d_acq_sample_stamp := d_acq_sample_stamp st;
         d_acq_code_phase_samples := d_acq_code_phase_samples st;
         d_acq_carrier_doppler_hz := d_acq_carrier_doppler_hz st;
         d_carrier_doppler_hz := carrier_doppler_hz;
         d_enable_tracking := enable_tracking lock;
         d_pull_in := d_pull_in st;
         CADLL_init := if promote then false else CADLL_init st;
         d_last_seg := last_seg;
         d_current_prn_length_samples := current_prn_length_samples;
         d_current_prn_length_samples_m := current_prn_length_samples_m;
         d_cn0_estimation_counter := cn0_estimation_counter lock;
         d_Prompt_buffer := Prompt_buffer lock;
         d_carrier_lock_test := carrier_lock_test lock;
         d_CN0_SNV_dB_Hz := CN0_SNV_dB_Hz lock;
         d_carrier_lock_fail_counter := carrier_lock_fail_counter lock;
         d_ca_code := d_ca_code st;
         d_Early := d_Early st;
         d_Prompt := d_Prompt st;
         d_Late := d_Late st;
         d_Early_m := d_Early_m st;
         d_Prompt_m := d_Prompt_m st;
         d_Late_m := d_Late_m st;
         a1 := a1';
         a2 := a2';
         d_carrier_loop_filter := carrier_loop_filter;
         d_code_loop_filter := code_loop_filter;
         d_code_loop_filter_m := code_loop_filter_m;
         d_amplitude_loop_filter := amplitude_loop_filter;
         d_amplitude_loop_filter_m := amplitude_loop_filter_m;
         d_queue := queue lock;
         d_acquisition_gnss_synchro := acq |},
      {| out := Some {| PRN := PRN acq;
                        Acq_delay_samples := Acq_delay_samples acq;
                        Acq_doppler_hz := Acq_doppler_hz acq;
                        Acq_samplestamp_samples := Acq_samplestamp_samples acq;
                        Prompt_I := real prompt;
                        Prompt_Q := imag prompt;
                        Tracking_timestamp_secs := timestamp;
                        Carrier_phase_rads := acc_carrier_phase_rad;
                        Carrier_Doppler_hz := carrier_doppler_hz;
                        Code_phase_secs := 0;
                        CN0_dB_hz := CN0_SNV_dB_Hz lock;
                        Flag_valid_tracking := Flag_valid_tracking acq |};
         consumed := current_prn_length_samples;
         vars := Some {| carr_error_hz := carr_error_hz;
                         carr_error_filt_hz := carr_error_filt_hz;
                         code_error_chips := code_error_chips;
                         code_error_filt_chips := code_error_filt_chips;
                         code_error_filt_secs := code_error_filt_secs;
                         code_error_filt_secs_m :=
                           if CADLL_init st then None else Some code_error_filt_secs_m;
                         T_prn_samples := T_prn_samples;
                         K_blk_samples := K_blk_samples;
                         K_blk_samples_m := K_blk_samples_m |} |}).

Definition steady_state `{Externals} (cfg : config) (st : state) (inp : work_input)
    (prompt : gr_complex) : res (state * work_output) :=
  T_chip_seconds ← fdiv 1 (pll_code_freq_chips (carrier_pll st prompt));
  amplitude ← amplitude_loops st prompt (input_power st inp);
  timestamp ← fdiv (inject_Z (d_sample_counter st) + d_rem_code_phase_samples st)
                   (inject_Z (d_fs_in cfg));
  last_seg ← second_counter cfg (d_sample_counter st) (d_last_seg st);
  Ok (steady_update cfg st inp prompt T_chip_seconds amplitude timestamp last_seg).

(** [general_work].  [update_local_carrier] only fills the carrier replica
    the correlator reads. *)
Definition general_work `{Externals} (cfg : config) (st : state) (inp : work_input)
  : res (state * work_output) :=
  if d_enable_tracking st then
    if d_pull_in st then pull_in cfg st
    else
      _ ← update_local_code cfg st;
      _ ← update_local_code_m cfg st;
      let st := correlate st inp in
      match d_Prompt st with
      | NotANumber => nan_block cfg st inp
      | Finite prompt => steady_state cfg st inp prompt
      end
  else disabled cfg st.

(** [emits r P]: the call returned and wrote [out[0]], and the new state
    and the record satisfy [P]. *)
Definition emits `{Externals} (r : res (state * work_output))
    (P : state -> Gnss_Synchro -> Prop) : Prop :=
  holds r (fun '(st', o) =>
             match out o with
             | Some record => P st' record
             | None => False
             end).

(** [steady r P]: the call returned from a steady-state step, and the new
    state, the output and the process variables satisfy [P]. *)
Definition steady `{Externals} (r : res (state * work_output))
    (P : state -> work_output -> process_vars -> Prop) : Prop :=
  holds r (fun '(st', o) =>
             match vars o with
             | Some v => P st' o v
             | None => False
             end).

(** ** [stop_tracking] *)

Definition stop_tracking `{Externals} (cfg : config) (st : state) : state :=
  {| d_code_freq_chips := d_code_freq_chips st;
     d_rem_code_phase_samples := d_rem_code_phase_samples st;
     d_rem_code_phase_samples_m := d_rem_code_phase_samples_m st;
     d_rem_carr_phase_rad := d_rem_carr_phase_rad st;
     d_acc_carrier_phase_rad := d_acc_carrier_phase_rad st;
     d_acc_code_phase_secs := d_acc_code_phase_secs st;
     d_acc_code_phase_secs_m := d_acc_code_phase_secs_m st;
     d_sample_counter := d_sample_counter st;
     d_sample_counter_m := d_sample_counter_m st;
     d_acq_sample_stamp := d_acq_sample_stamp st;
     d_acq_code_phase_samples := d_acq_code_phase_samples st;
     d_acq_carrier_doppler_hz := d_acq_carrier_doppler_hz st;
     d_carrier_doppler_hz := d_carrier_doppler_hz st;
     d_enable_tracking := false;
     d_pull_in := d_pull_in st;
     CADLL_init := CADLL_init st;
     d_last_seg := d_last_seg st;
     d_current_prn_length_samples := d_current_prn_length_samples st;
     d_current_prn_length_samples_m := d_current_prn_length_samples_m st;
     d_cn0_estimation_counter := d_cn0_estimation_counter st;
     d_Prompt_buffer := d_Prompt_buffer st;
     d_carrier_lock_test := d_carrier_lock_test st;
     d_CN0_SNV_dB_Hz := d_CN0_SNV_dB_Hz st;
     d_carrier_lock_fail_counter := d_carrier_lock_fail_counter st;
     d_ca_code := d_ca_code st;
     d_Early := d_Early st;
     d_Prompt := d_Prompt st;
     d_Late := d_Late st;
     d_Early_m := d_Early_m st;
     d_Prompt_m := d_Prompt_m st;
     d_Late_m := d_Late_m st;
     a1 := a1 st;
     a2 := a2 st;
     d_carrier_loop_filter := d_carrier_loop_filter st;
     d_code_loop_filter := d_code_loop_filter st;
     d_code_loop_filter_m := d_code_loop_filter_m st;
     d_amplitude_loop_filter := d_amplitude_loop_filter st;
     d_amplitude_loop_filter_m := d_amplitude_loop_filter_m st;
     d_queue :=
       if d_queue_attached cfg then d_queue st ++ [(d_channel cfg, 2%Z)]
       else d_queue st;
     d_acquisition_gnss_synchro := d_acquisition_gnss_synchro st |}.

(** The scheduler: [general_work] called once per entry of [inputs]; the
    state after the last call and what each call left behind. *)
Fixpoint run `{Externals} (cfg : config) (st : state) (inputs : list work_input)
  : res (state * list work_output) :=
  match inputs with
  | [] => Ok (st, [])
  | inp :: rest =>
      '(st', o) ← general_work cfg st inp;
      '(st'', outputs) ← run cfg st' rest;
      Ok (st'', o :: outputs)
  end.


End Tracking.

(** * A nominal receiver for the examples

    Stand-ins for the collaborators, used where a property is run on
    concrete data: the constants are those of GPS L1 C/A, [atan2] is exact
    on the axes and a rational approximation elsewhere, the loop filters
    pass their input through, the discriminator and the two detectors are
    simple functions of their arguments, and the code generator yields an
    alternating chip sequence of the right length. *)

Module Nominal.

Definition two_pi : Q := 6283185307179586 # 1000000000000000.

Definition atan_unit (z : Q) : Q := z / (1 + (28 # 100) * z * z).

Definition atan2 (y x : Q) : Q :=
  let pi := two_pi / 2 in
  if Qeq_bool x 0 then
    if Qltb 0 y then pi / 2 else if Qltb y 0 then - (pi / 2) else 0
  else if Qle_bool (Qabs y) (Qabs x) then
    let a := atan_unit (y / x) in
    if Qltb 0 x then a else if Qle_bool 0 y then a + pi else a - pi
  else
    let a := atan_unit (x / y) in
    if Qltb 0 y then pi / 2 - a else - (pi / 2) - a.

Definition discriminator (E L : gr_complex) : Q :=
  let e := magnitude_squared E in
  let l := magnitude_squared L in
  if Qeq_bool (e + l) 0 then 0 else Qred ((e - l) / (e + l)).

(** The detectors read the newest entry of the prompt buffer: its real
    part stands for the CN0 estimate, its imaginary part for the lock
    test. *)
Definition newest (buffer : list gr_complex) : gr_complex :=
  default (Cplx 0 0) (last buffer).

Definition chips : list gr_complex :=
  map (fun i => Cplx (if Nat.even i then 1 else - (1)) 0) (seq 0 1023).

Definition externals : Tracking.Externals :=
  {| Tracking.GPS_L1_CA_CODE_RATE_HZ := 1023000;
     Tracking.GPS_L1_FREQ_HZ := 1575420000;
     Tracking.GPS_L1_CA_CODE_PERIOD := 1 # 1000;
     Tracking.GPS_TWO_PI := two_pi;
     Tracking.atan2 := atan2;
     Tracking.dll_nc_e_minus_l_normalized := discriminator;
     Tracking.cn0_svn_estimator := fun buffer _ _ _ => real (newest buffer);
     Tracking.carrier_lock_detector := fun buffer _ => imag (newest buffer);
     Tracking.gps_l1_ca_code_gen_complex := fun _ _ => chips;
     Tracking.Tracking_2nd_PLL_filter := unit;
     Tracking.pll_initialize := fun f => f;
     Tracking.get_carrier_nco := fun f x => (f, Qred x);
     Tracking.Tracking_2nd_DLL_filter := unit;
     Tracking.dll_initialize := fun f => f;
     Tracking.get_code_nco := fun f x => (f, Qred x);
     Tracking.Tracking_ALL_filter := unit;
     Tracking.all_initialize := fun f => f;
     Tracking.get_amplitude_nco := fun f x => (f, Qred x) |}.

(** A front end at two samples per chip. *)
Definition config : Tracking.config :=
  {| Tracking.d_fs_in := 2046000;
     Tracking.d_early_late_spc_chips := 1 # 2;
     Tracking.d_channel := 0;
     Tracking.d_queue_attached := true |}.

(** The acquisition result handed to the channel. *)
Definition acquired : Gnss_Synchro :=
  {| PRN := 1;
     Acq_delay_samples := 317;
     Acq_doppler_hz := 0;
     Acq_samplestamp_samples := 4092;
     Prompt_I := 0;
     Prompt_Q := 0;
     Tracking_timestamp_secs := 0;
     Carrier_phase_rads := 0;
     Carrier_Doppler_hz := 0;
     Code_phase_secs := 0;
     CN0_dB_hz := 0;
     Flag_valid_tracking := false |}.

(** The block as the constructor leaves it ([d_vector_length] 2046), after
    [sample_counter] samples have gone by with tracking disabled. *)
Definition constructed (sample_counter : Z) (init : bool)
  : @Tracking.state externals :=
  {| Tracking.d_code_freq_chips := 1023000;
     Tracking.d_rem_code_phase_samples := 0;
     Tracking.d_rem_code_phase_samples_m := 0;
     Tracking.d_rem_carr_phase_rad := 0;
     Tracking.d_acc_carrier_phase_rad := 0;
     Tracking.d_acc_code_phase_secs := 0;
     Tracking.d_acc_code_phase_secs_m := 0;
     Tracking.d_sample_counter := sample_counter;
     Tracking.d_sample_counter_m := sample_counter;
     Tracking.d_acq_sample_stamp := 0;
     Tracking.d_acq_code_phase_samples := 0;
     Tracking.d_acq_carrier_doppler_hz := 0;
     Tracking.d_carrier_doppler_hz := 0;
     Tracking.d_enable_tracking := false;
     Tracking.d_pull_in := false;
     Tracking.CADLL_init := init;
     Tracking.d_last_seg := 0;
     Tracking.d_current_prn_length_samples := 2046;
     Tracking.d_current_prn_length_samples_m := 2046;
     Tracking.d_cn0_estimation_counter := 0;
     Tracking.d_Prompt_buffer := replicate 20 (Cplx 0 0);
     Tracking.d_carrier_lock_test := 1;
     Tracking.d_CN0_SNV_dB_Hz := 0;
     Tracking.d_carrier_lock_fail_counter := 0;
     Tracking.d_ca_code := replicate 1025 (Cplx 0 0);
     Tracking.d_Early := Cplx 0 0;
     Tracking.d_Prompt := Tracking.Finite (Cplx 0 0);
     Tracking.d_Late := Cplx 0 0;
     Tracking.d_Early_m := Cplx 0 0;
     Tracking.d_Prompt_m := Cplx 0 0;
     Tracking.d_Late_m := Cplx 0 0;
     Tracking.a1 := 0;
     Tracking.a2 := 0;
     Tracking.d_carrier_loop_filter := (tt : @Tracking.Tracking_2nd_PLL_filter externals);
     Tracking.d_code_loop_filter := (tt : @Tracking.Tracking_2nd_DLL_filter externals);
     Tracking.d_code_loop_filter_m := (tt : @Tracking.Tracking_2nd_DLL_filter externals);
     Tracking.d_amplitude_loop_filter := (tt : @Tracking.Tracking_ALL_filter externals);
     Tracking.d_amplitude_loop_filter_m := (tt : @Tracking.Tracking_ALL_filter externals);
     Tracking.d_queue := [];
     Tracking.d_acquisition_gnss_synchro := acquired |}.

(** The code table [start_tracking] builds from [chips]. *)
Definition table : list gr_complex := [Cplx 1 0] ++ chips ++ [Cplx 1 0].

(** The block in steady state: tracking enabled, pull-in done, the given
    sample counter, mode, code phase remainders, PRN length and lock
    detector counters. *)
Definition locked (sample_counter : Z) (init : bool) (rem rem_m : Q)
    (prn_length fail_counter cn0_counter : Z) : @Tracking.state externals :=
  {| Tracking.d_code_freq_chips := 1023000;
     Tracking.d_rem_code_phase_samples := rem;
     Tracking.d_rem_code_phase_samples_m := rem_m;
     Tracking.d_rem_carr_phase_rad := 0;
     Tracking.d_acc_carrier_phase_rad := 0;
     Tracking.d_acc_code_phase_secs := 0;
     Tracking.d_acc_code_phase_secs_m := 0;
     Tracking.d_sample_counter := sample_counter;
     Tracking.d_sample_counter_m := sample_counter;
     Tracking.d_acq_sample_stamp := 4092;
     Tracking.d_acq_code_phase_samples := 317;
     Tracking.d_acq_carrier_doppler_hz := 0;
     Tracking.d_carrier_doppler_hz := 0;
     Tracking.d_enable_tracking := true;
     Tracking.d_pull_in := false;
     Tracking.CADLL_init := init;
     Tracking.d_last_seg := 0;
     Tracking.d_current_prn_length_samples := prn_length;
     Tracking.d_current_prn_length_samples_m := prn_length;
     Tracking.d_cn0_estimation_counter := cn0_counter;
     Tracking.d_Prompt_buffer := replicate 20 (Cplx 0 0);
     Tracking.d_carrier_lock_test := 1;
     Tracking.d_CN0_SNV_dB_Hz := 0;
     Tracking.d_carrier_lock_fail_counter := fail_counter;
     Tracking.d_ca_code := table;
     Tracking.d_Early := Cplx 0 0;
     Tracking.d_Prompt := Tracking.Finite (Cplx 0 0);
     Tracking.d_Late := Cplx 0 0;
     Tracking.d_Early_m := Cplx 0 0;
     Tracking.d_Prompt_m := Cplx 0 0;
     Tracking.d_Late_m := Cplx 0 0;
     Tracking.a1 := 0;
     Tracking.a2 := 0;
     Tracking.d_carrier_loop_filter := (tt : @Tracking.Tracking_2nd_PLL_filter externals);
     Tracking.d_code_loop_filter := (tt : @Tracking.Tracking_2nd_DLL_filter externals);
     Tracking.d_code_loop_filter_m := (tt : @Tracking.Tracking_2nd_DLL_filter externals);
     Tracking.d_amplitude_loop_filter := (tt : @Tracking.Tracking_ALL_filter externals);
     Tracking.d_amplitude_loop_filter_m := (tt : @Tracking.Tracking_ALL_filter externals);
     Tracking.d_queue := [];
     Tracking.d_acquisition_gnss_synchro := acquired |}.

(** A front end below the chip rate: one sample every three chips. *)
Definition undersampled : Tracking.config :=
  {| Tracking.d_fs_in := 341000;
     Tracking.d_early_late_spc_chips := 1 # 2;
     Tracking.d_channel := 0;
     Tracking.d_queue_attached := true |}.

(** Correlator outputs of a block. *)
Definition block (P : Tracking.correlation) (P_m : gr_complex) : Tracking.work_input :=
  {| Tracking.ninput_items := 4092;
     Tracking.Early := Cplx 3 0;
     Tracking.Prompt := P;
     Tracking.Late := Cplx 3 0;
     Tracking.Early_m := Cplx 2 0;
     Tracking.Prompt_m := P_m;
     Tracking.Late_m := Cplx 2 0;
     Tracking.corr := 1;
     Tracking.corr_m := 1 |}.

(** Two states of the loop: in CADLL mode, the secondary 27 samples
    behind; and in initialization mode, one second into the stream. *)
Definition cadll : @Tracking.state externals :=
  locked 8184 false (2 # 5) (- (133 # 5)) 2046 0 0.

Definition initializing : @Tracking.state externals :=
  locked 2046000 true (2 # 5) (2 # 5) 2046 0 0.

(** The loop when the prompt buffer is full and the detectors are about
    to be evaluated, after [failures] failing evaluations in a row. *)
Definition evaluating (failures : Z) : @Tracking.state externals :=
  locked 8184 true (2 # 5) (2 # 5) 2046 failures 20.

(** Blocks: prompt correlators in phase, in quadrature, not a number, and
    cancelling each other. *)
Definition in_phase : Tracking.work_input :=
  block (Tracking.Finite (Cplx 5 0)) (Cplx 4 0).

Definition quadrature : Tracking.work_input :=
  block (Tracking.Finite (Cplx 0 5)) (Cplx 0 4).

Definition not_a_number : Tracking.work_input :=
  block Tracking.NotANumber (Cplx 4 0).

Definition cancelling : Tracking.work_input :=
  block (Tracking.Finite (Cplx 5 0)) (Cplx (- (5)) 0).

End Nominal.

(** * Captures for the acquisition examples *)

Module Capture.

(** A block of unit samples: input power 1. *)
Definition unit_samples : nat -> gr_complex := fun _ => Cplx 1 0.

(** [d_magnitude] given bin by bin; zero where nothing is listed. *)
Definition grid (rows : list (list Q)) : nat -> nat -> Q :=
  fun k i => default 0 (rows !! k ≫= fun row => row !! i).

Definition block (rows : list (list Q)) : Acquisition.work_input :=
  {| Acquisition.ninput_items := 1;
     Acquisition.in_samples := unit_samples;
     Acquisition.magnitude_grid := grid rows |}.

(** Four samples per block and per code period, one Doppler bin at 0 Hz,
    threshold 2. *)
Definition config (peak : Z) (bit_transition_flag : bool) : Acquisition.config :=
  {| Acquisition.d_fft_size := 4;
     Acquisition.d_samples_per_code := 4;
     Acquisition.d_max_dwells := 2;
     Acquisition.d_doppler_max := 0;
     Acquisition.d_doppler_step := 500;
     Acquisition.d_num_doppler_bins := 1;
     Acquisition.d_threshold := 2;
     Acquisition.d_bit_transition_flag := bit_transition_flag;
     Acquisition.d_peak := peak |}.

Definition synchro : Gnss_Synchro :=
  {| PRN := 1;
     Acq_delay_samples := 0;
     Acq_doppler_hz := 0;
     Acq_samplestamp_samples := 0;
     Prompt_I := 0;
     Prompt_Q := 0;
     Tracking_timestamp_secs := 0;
     Carrier_phase_rads := 0;
     Carrier_Doppler_hz := 0;
     Code_phase_secs := 0;
     CN0_dB_hz := 0;
     Flag_valid_tracking := false |}.

(** The engine as [case 0] leaves it when the channel is activated. *)
Definition dwelling : Acquisition.state :=
  {| Acquisition.d_sample_counter := 0;
     Acquisition.d_active := true;
     Acquisition.d_state := 1;
     Acquisition.d_well_count := 0;
     Acquisition.d_mag := 0;
     Acquisition.d_mag_2nd_highest := 0;
     Acquisition.d_input_power := 0;
     Acquisition.d_test_statistics := 0;
     Acquisition.d_gnss_synchro := synchro;
     Acquisition.d_channel_internal_queue := [] |}.

(** One correlation peak at code phase 1 (normalized magnitude 9). *)
Definition single_peak : Acquisition.work_input :=
  block [[0; 2304; 0; 0]].

(** Three values above the threshold at code phases 1, 2 and 3 of the same
    Doppler bin (normalized magnitudes 9, 8 and 7). *)
Definition three_peaks : Acquisition.work_input :=
  block [[0; 2304; 2048; 1792]].

End Capture.

(** * Properties *)

(** ** Results, comparisons and checked divisions *)

Lemma bind_Ok {A B : Type} (a : A) (k : A -> res B) : (Ok a ≫= k) = k a.
Proof. reflexivity. Qed.

Lemma bind_inv {A B : Type} (c : res A) (k : A -> res B) (b : B) :
  (c ≫= k) = Ok b -> exists a, c = Ok a /\ k a = Ok b.
Proof. destruct c as [a|e]; [exists a; auto | discriminate]. Qed.

Lemma holds_Ok {A : Type} (r : res A) (P : A -> Prop) :
  holds r P -> exists a, r = Ok a /\ P a.
Proof. destruct r as [a|e]; simpl; [eauto | contradiction]. Qed.

Lemma Qltb_true (x y : Q) : Qltb x y = true <-> x < y.
Proof.
  unfold Qltb. rewrite negb_true_iff.
  destruct (Qle_bool y x) eqn:E.
  - apply Qle_bool_iff in E. split; [discriminate | intro; lra].
  - split; [intros _ | reflexivity].
    apply Qnot_le_lt. intro Hle. apply Qle_bool_iff in Hle. congruence.
Qed.

Lemma Qltb_false (x y : Q) : Qltb x y = false <-> y <= x.
Proof.
  destruct (Qltb x y) eqn:E.
  - apply Qltb_true in E. split; [discriminate | intro; lra].
  - split; [intros _ | reflexivity].
    apply Qnot_lt_le. intro Hlt. apply Qltb_true in Hlt. congruence.
Qed.

Lemma Qle_bool_false (x y : Q) : Qle_bool x y = false <-> y < x.
Proof.
  destruct (Qle_bool x y) eqn:E.
  - apply Qle_bool_iff in E. split; [discriminate | intro; lra].
  - split; [intros _ | reflexivity].
    apply Qnot_le_lt. intro Hle. apply Qle_bool_iff in Hle. congruence.
Qed.

Lemma fdiv_Ok (x y : Q) : ~ y == 0 -> fdiv x y = Ok (x / y).
Proof.
  intro Hy. unfold fdiv. destruct (Qeq_bool y 0) eqn:E; [|reflexivity].
  apply Qeq_bool_iff in E. contradiction.
Qed.

Lemma fdiv_Err (x y : Q) : y == 0 -> fdiv x y = Err DivisionByZero.
Proof. intro Hy. unfold fdiv. apply Qeq_bool_iff in Hy. now rewrite Hy. Qed.

Lemma imod_Ok (x y : Z) : y <> 0%Z -> imod x y = Ok (x mod y)%Z.
Proof. intro Hy. unfold imod. apply Z.eqb_neq in Hy. now rewrite Hy. Qed.

Lemma idiv_Ok (x y : Z) : y <> 0%Z -> idiv x y = Ok (x / y)%Z.
Proof. intro Hy. unfold idiv. apply Z.eqb_neq in Hy. now rewrite Hy. Qed.

(** A loop whose body keeps an invariant and never fails ends in a state
    that satisfies the invariant. *)
Lemma for_loop_invariant {S : Type} (I : nat -> S -> Prop)
    (body : nat -> S -> res S) (n : nat) :
  forall (start : nat) (s : S),
    I start s ->
    (forall i s, (start <= i < start + n)%nat -> I i s ->
                 exists s', body i s = Ok s' /\ I (Datatypes.S i) s') ->
    exists s', for_loop n start body s = Ok s' /\ I (start + n)%nat s'.
Proof.
  induction n as [|n IH]; intros start s Hs Hbody; simpl.
  - exists s. rewrite Nat.add_0_r. auto.
  - destruct (Hbody start s) as (s1 & E1 & H1); [lia | assumption |].
    rewrite E1, bind_Ok.
    destruct (IH (Datatypes.S start) s1 H1) as (s2 & E2 & H2).
    + intros i s' Hi. apply Hbody. lia.
    + exists s2. split; [assumption|].
      now replace (start + Datatypes.S n)%nat with (Datatypes.S start + n)%nat by lia.
Qed.

Lemma Qdiv_le_compat_r (a b c : Q) : a <= b -> 0 < c -> a / c <= b / c.
Proof.
  intros Hab Hc. unfold Qdiv. apply Qmult_le_compat_r; [assumption|].
  apply Qinv_le_0_compat. lra.
Qed.

Lemma Qdiv_nonzero (a b : Q) : ~ a == 0 -> ~ b == 0 -> ~ a / b == 0.
Proof.
  intros Ha Hb H. apply Ha.
  assert (a == a / b * b) as E by (field; assumption).
  rewrite E, H. ring.
Qed.

(** ** Acquisition *)

Module AcquisitionFacts.
Import Acquisition.

Lemma index_max_from_spec (src : nat -> Q) (n : nat) :
  forall i target : nat,
    (target < i)%nat ->
    (forall j, (j < i)%nat -> src j <= src target) ->
    (forall j, (j < i + n)%nat -> src j <= src (index_max_from src n i target))
    /\ (index_max_from src n i target < i + n)%nat.
Proof.
  induction n as [|n IH]; intros i target Hlt Hmax; simpl.
  - rewrite Nat.add_0_r. auto.
  - replace (i + S n)%nat with (S i + n)%nat by lia.
    destruct (Qltb (src target) (src i)) eqn:E.
    + apply Qltb_true in E. apply IH; [lia|].
      intros j Hj. destruct (Nat.eq_dec j i) as [->|Hne]; [lra|].
      specialize (Hmax j ltac:(lia)). lra.
    + apply Qltb_false in E. apply IH; [lia|].
      intros j Hj. destruct (Nat.eq_dec j i) as [->|Hne]; [lra|].
      apply Hmax. lia.
Qed.

(** [indext] addresses a largest value of the block. *)
Lemma volk_32f_index_max_spec (src : nat -> Q) (n i : nat) :
  (i < n)%nat -> src i <= src (volk_32f_index_max src n).
Proof.
  intro Hi. unfold volk_32f_index_max.
  destruct (index_max_from_spec src (pred n) 1 0) as [H _].
  - lia.
  - intros j Hj. replace j with 0%nat by lia. lra.
  - apply H. lia.
Qed.

Lemma normalization_pos (cfg : config) :
  (0 < d_fft_size cfg)%Z -> 0 < normalization cfg.
Proof.
  intro HN. unfold normalization, fft_normalization_factor.
  assert (0 < inject_Z (d_fft_size cfg)) as Hq.
  { change 0 with (inject_Z 0). now rewrite <- Zlt_Qlt. }
  repeat apply Qmult_lt_0_compat; assumption.
Qed.


Lemma collect_peaks_total (cfg : config) (st : state) (d_magnitude : nat -> Q)
    (threshold_spoofing : Q) (doppler : Z) (peaks : peak_map) (n : nat) :
  (0 < d_fft_size cfg)%Z -> d_samples_per_code cfg <> 0%Z ->
  exists peaks',
    for_loop n 0 (collect_peak cfg st d_magnitude threshold_spoofing doppler) peaks
    = Ok peaks'.
Proof.
  intros HN Hspc.
  destruct (for_loop_invariant (fun _ _ => True)
              (collect_peak cfg st d_magnitude threshold_spoofing doppler) n 0 peaks)
    as (peaks' & E & _); [exact I| |eauto].
  intros i p _ _. unfold collect_peak.
  destruct (Qltb threshold_spoofing (d_magnitude i)); [|eauto].
  pose proof (normalization_pos cfg HN) as Hpos. unfold normalization in Hpos.
  rewrite fdiv_Ok by lra. rewrite bind_Ok, imod_Ok by assumption. eauto.
Qed.

Lemma doppler_bin_invariant (cfg : config) (inp : work_input)
    (threshold_spoofing : Q) (st0 : state) (k : nat) (s : state * peak_map) :
  (0 < d_fft_size cfg)%Z -> d_samples_per_code cfg <> 0%Z ->
  ~ d_input_power st0 == 0 ->
  bin_invariant cfg inp st0 k s ->
  exists s', doppler_bin cfg inp threshold_spoofing k s = Ok s'
             /\ bin_invariant cfg inp st0 (S k) s'.
Proof.
  intros HN Hspc Hpow Hinv. destruct s as [st peaks].
  destruct Hinv as (Hst & Hwc & Hip & Hq & Hts & Hmax & Hmag & H2nd & Hle).
  simpl in Hst, Hwc, Hip, Hq, Hts, Hmax, Hmag, H2nd, Hle.
  pose proof (normalization_pos cfg HN) as Hpos.
  unfold doppler_bin.
  fold (bin_maximum cfg inp k). fold (normalization cfg).
  rewrite fdiv_Ok by lra. rewrite bind_Ok.
  destruct (collect_peaks_total cfg st (magnitude_grid inp k) threshold_spoofing
              (- d_doppler_max cfg + d_doppler_step cfg * Z.of_nat k)%Z peaks
              (Z.to_nat (d_fft_size cfg)) HN Hspc) as (peaks' & ->).
  rewrite bind_Ok.
  assert (forall j, (j < S k)%nat -> j = k \/ (j < k)%nat) as Hcase by (intros; lia).
  destruct (Qltb (d_mag st) (bin_maximum cfg inp k / normalization cfg)) eqn:E.
  - apply Qltb_true in E.
    assert (forall st1 : state,
               d_state st1 = d_state st -> d_well_count st1 = d_well_count st ->
               d_input_power st1 = d_input_power st ->
               d_channel_internal_queue st1 = d_channel_internal_queue st ->
               (d_bit_transition_flag cfg = true ->
                d_test_statistics st <= d_test_statistics st1) ->
               d_mag st1 = bin_maximum cfg inp k / normalization cfg ->
               d_mag_2nd_highest st1 = d_mag st ->
               bin_invariant cfg inp st0 (S k) (st1, peaks')) as Hnew.
    { intros st1 E1 E2 E3 E4 E5 E6 E7. unfold bin_invariant. simpl.
      rewrite E1, E2, E3, E4, E6, E7.
      repeat split; try assumption.
      - intro Hb. specialize (Hts Hb). specialize (E5 Hb). lra.
      - intros j Hj. destruct (Hcase j Hj) as [->|Hj']; [lra|].
        specialize (Hmax j Hj'). lra.
      - right. exists k. split; [lia | reflexivity].
      - destruct Hmag as [H0|(j & Hj & Hj')]; [now left|].
        right. exists j. split; [lia | assumption].
      - lra. }
    simpl. rewrite Hip, fdiv_Ok by assumption. rewrite bind_Ok.
    destruct (Qltb (d_test_statistics st)
                (bin_maximum cfg inp k / normalization cfg / d_input_power st0)
              || negb (d_bit_transition_flag cfg)) eqn:Eupd.
    + rewrite imod_Ok by assumption. rewrite bind_Ok.
      eexists. split; [reflexivity|].
      apply Hnew; try reflexivity. simpl. intro Hb. rewrite Hb in Eupd.
      rewrite orb_false_r in Eupd. apply Qltb_true in Eupd. lra.
    + eexists. split; [reflexivity|].
      apply Hnew; try reflexivity. simpl. intros _. lra.
  - apply Qltb_false in E. eexists. split; [reflexivity|].
    unfold bin_invariant. simpl. repeat split; try assumption.
    + intros j Hj. destruct (Hcase j Hj) as [->|Hj']; [lra | now apply Hmax].
    + destruct Hmag as [H0|(j & Hj & Hj')]; [now left|].
      right. exists j. split; [lia | assumption].
    + destruct H2nd as [H0|(j & Hj & Hj')]; [now left|].
      right. exists j. split; [lia | assumption].
Qed.

(** The search loop of a dwell returns, and [bin_invariant] holds of its
    result for all the bins. *)
Lemma search_spec (cfg : config) (st : state) (inp : work_input) :
  (0 < d_fft_size cfg)%Z -> d_samples_per_code cfg <> 0%Z ->
  ~ accumulate_power (in_samples inp) (Z.to_nat (d_fft_size cfg)) == 0 ->
  exists st1 peaks,
    search cfg st inp = Ok (st1, peaks)
    /\ d_state st1 = d_state st
    /\ d_well_count st1 = wrap32 (d_well_count st + 1)
    /\ d_channel_internal_queue st1 = d_channel_internal_queue st
    /\ ~ d_input_power st1 == 0
    /\ (d_bit_transition_flag cfg = true ->
        d_test_statistics st <= d_test_statistics st1)
    /\ (forall j, (j < d_num_doppler_bins cfg)%nat ->
                  bin_maximum cfg inp j / normalization cfg <= d_mag st1)
    /\ (d_mag st1 == 0
        \/ exists j, (j < d_num_doppler_bins cfg)%nat
                     /\ d_mag st1 == bin_maximum cfg inp j / normalization cfg)
    /\ (d_mag_2nd_highest st1 == 0
        \/ exists j, (j < d_num_doppler_bins cfg)%nat
                     /\ d_mag_2nd_highest st1
                        == bin_maximum cfg inp j / normalization cfg)
    /\ d_mag_2nd_highest st1 <= d_mag st1.
Proof.
  intros HN Hspc Hacc. unfold search.
  assert (~ inject_Z (d_fft_size cfg) == 0) as HNq.
  { intro H. unfold Qeq in H. simpl in H. lia. }
  rewrite fdiv_Ok by assumption. rewrite bind_Ok.
  set (st0 := mkState _ _ _ _ _ _ _ _ _ _).
  set (thr := d_threshold cfg * _ * _).
  assert (~ d_input_power st0 == 0) as Hpow by (now apply Qdiv_nonzero).
  destruct (for_loop_invariant (bin_invariant cfg inp st0)
              (doppler_bin cfg inp thr) (d_num_doppler_bins cfg) 0 (st0, []))
    as ([st1 peaks] & E & Hinv).
  - unfold bin_invariant. simpl. repeat split; try reflexivity; try lra.
    intros j Hj. lia.
  - intros i s _ Hs. now apply doppler_bin_invariant.
  - exists st1, peaks. split; [assumption|].
    destruct Hinv as (H1 & H2 & H3 & H4 & H5 & H6 & H7 & H8 & H9).
    simpl in H1, H2, H3, H4, H5, H6, H7, H8, H9.
    rewrite H1, H2, H3, H4. repeat split; assumption.
Qed.

(** Auxiliary-peak resolution returns once the input power is not zero; it
    leaves the magnitudes, the state and the dwell count as they are, and
    without a selected peak it changes nothing. *)
Lemma auxiliary_peak_spec (cfg : config) (st : state) (peaks : peak_map) :
  ~ d_input_power st == 0 ->
  exists st2 found,
    auxiliary_peak cfg st peaks = Ok (st2, found)
    /\ d_mag st2 = d_mag st
    /\ d_mag_2nd_highest st2 = d_mag_2nd_highest st
    /\ d_state st2 = d_state st
    /\ d_well_count st2 = d_well_count st
    /\ d_channel_internal_queue st2 = d_channel_internal_queue st
    /\ (found = false -> st2 = st)
    /\ ((d_peak cfg <= 1)%Z -> found = false).
Proof.
  intro Hpow. unfold auxiliary_peak.
  destruct (1 <? d_peak cfg)%Z eqn:Epeak.
  - apply Z.ltb_lt in Epeak.
    destruct (select_peak cfg (reverse peaks) 0 ∅) as [[magnitude values]|].
    + rewrite fdiv_Ok by assumption. rewrite bind_Ok.
      eexists _, true. repeat split; try reflexivity; intros; try discriminate; lia.
    + exists st, false. repeat split; intros; try reflexivity; lia.
  - exists st, false. repeat split; intros; reflexivity.
Qed.

(** The state after a dwell, as [decide_state] computes it. *)
Lemma decide_state_spec (cfg : config) (st : state) (found : bool) :
  d_state st = 1%Z ->
  let miss := (1 <? d_peak cfg)%Z && negb found in
  let s := decide_state cfg st found in
  (d_bit_transition_flag cfg = false -> miss = false ->
   (s = 2%Z <-> d_threshold cfg < d_test_statistics st)
   /\ (d_test_statistics st <= d_threshold cfg ->
       d_well_count st = d_max_dwells cfg -> s = 3%Z)
   /\ (d_test_statistics st <= d_threshold cfg ->
       d_well_count st <> d_max_dwells cfg -> s = 1%Z))
  /\ (d_bit_transition_flag cfg = true ->
      d_well_count st <> d_max_dwells cfg -> s = 1%Z)
  /\ (d_bit_transition_flag cfg = true ->
      d_well_count st = d_max_dwells cfg -> miss = false ->
      (s = 2%Z <-> d_threshold cfg < d_test_statistics st)
      /\ (d_test_statistics st <= d_threshold cfg -> s = 3%Z))
  /\ (miss = true ->
      d_bit_transition_flag cfg = false \/ d_well_count st = d_max_dwells cfg ->
      s = 3%Z).
Proof.
  intros Hst miss s. subst miss s. unfold decide_state. rewrite Hst.
  destruct (d_bit_transition_flag cfg); simpl;
    destruct ((1 <? d_peak cfg)%Z && negb found);
    destruct (Qltb (d_threshold cfg) (d_test_statistics st)) eqn:Ets;
    first [apply Qltb_true in Ets | apply Qltb_false in Ets];
    destruct (Z.eqb_spec (d_well_count st) (d_max_dwells cfg));
    repeat split; intros; try discriminate; try congruence; try lra;
    try tauto; try (exfalso; lra);
    match goal with
    | H : _ \/ _ |- _ => destruct H; [discriminate | contradiction]
    end.
Qed.

(** A dwell returns whenever the block and the code period are not empty
    and the input power is not zero; its result is the search loop, the
    auxiliary-peak resolution and the decision, in this order. *)
Lemma dwell_spec (cfg : config) (st : state) (inp : work_input) :
  d_state st = 1%Z ->
  (0 < d_fft_size cfg)%Z -> d_samples_per_code cfg <> 0%Z ->
  ~ accumulate_power (in_samples inp) (Z.to_nat (d_fft_size cfg)) == 0 ->
  exists st1 peaks st2 found,
    search cfg st inp = Ok (st1, peaks)
    /\ auxiliary_peak cfg st1 peaks = Ok (st2, found)
    /\ general_work cfg st inp
       = Ok (set_state st2 (decide_state cfg st2 found), 1%Z)
    /\ d_state st2 = 1%Z
    /\ d_well_count st2 = wrap32 (d_well_count st + 1)
    /\ d_mag st2 = d_mag st1
    /\ d_mag_2nd_highest st2 = d_mag_2nd_highest st1
    /\ (found = false -> st2 = st1)
    /\ ((d_peak cfg <= 1)%Z -> found = false).
Proof.
  intros Hst HN Hspc Hacc.
  destruct (search_spec cfg st inp HN Hspc Hacc)
    as (st1 & peaks & E1 & Hs1 & Hw1 & _ & Hpow & _).
  destruct (auxiliary_peak_spec cfg st1 peaks Hpow)
    as (st2 & found & E2 & Hm & Hm2 & Hs2 & Hw2 & _ & Hnf & Hoff).
  exists st1, peaks, st2, found.
  repeat split; try assumption; try congruence.
  unfold general_work. rewrite Hst. simpl. unfold dwell.
  rewrite E1, bind_Ok, E2, bind_Ok. reflexivity.
Qed.




Lemma decide_state_final (cfg : config) (st : state) (found : bool) :
  d_bit_transition_flag cfg = true -> d_well_count st = d_max_dwells cfg ->
  decide_state cfg st found = 2%Z \/ decide_state cfg st found = 3%Z.
Proof.
  intros Hb Hw. unfold decide_state. rewrite Hb. simpl.
  apply Z.eqb_eq in Hw. rewrite Hw.
  destruct ((1 <? d_peak cfg)%Z && negb found); [now right|].
  destruct (Qltb (d_threshold cfg) (d_test_statistics st)); auto.
Qed.

(** C5 (as the code has it).  A dwell on a non-empty block of non-zero
    power ends as follows, [found] telling whether auxiliary-peak
    resolution selected a peak and [miss] being auxiliary-peak mode
    without a selected peak.  Without [bit_transition_flag] and without a
    miss: POSITIVE (2) exactly when [test_statistics > threshold];
    otherwise NEGATIVE (3) when [well_count == max_dwells], else the engine
    stays in DWELL (1).  With [bit_transition_flag]: no decision before the
    dwell that brings [well_count] to [max_dwells]; at that dwell, without
    a miss, POSITIVE exactly when [test_statistics > threshold], otherwise
    NEGATIVE; [test_statistics] is not reset: when no auxiliary peak is
    selected it does not decrease across the dwell.  A miss gives NEGATIVE
    whatever [test_statistics] is (at once without [bit_transition_flag],
    at the final dwell with it).  With [max_dwells = 2] and a fresh attempt
    the first dwell takes no decision and the second one does. *)
Theorem C5_dwell_decision (cfg : config) (st : state) (inp : work_input) :
  d_state st = 1%Z ->
  (0 < d_fft_size cfg)%Z -> d_samples_per_code cfg <> 0%Z ->
  ~ accumulate_power (in_samples inp) (Z.to_nat (d_fft_size cfg)) == 0 ->
  exists st1 peaks st2 found st',
    search cfg st inp = Ok (st1, peaks)
    /\ auxiliary_peak cfg st1 peaks = Ok (st2, found)
    /\ general_work cfg st inp = Ok (st', 1%Z)
    /\ d_well_count st' = wrap32 (d_well_count st + 1)
    /\ ((d_peak cfg <= 1)%Z -> found = false)
    /\ let miss := (1 <? d_peak cfg)%Z && negb found in
       (d_bit_transition_flag cfg = false -> miss = false ->
        (d_state st' = 2%Z <-> d_threshold cfg < d_test_statistics st')
        /\ (d_test_statistics st' <= d_threshold cfg ->
            d_well_count st' = d_max_dwells cfg -> d_state st' = 3%Z)
        /\ (d_test_statistics st' <= d_threshold cfg ->
            d_well_count st' <> d_max_dwells cfg -> d_state st' = 1%Z))
       /\ (d_bit_transition_flag cfg = true ->
           d_well_count st' <> d_max_dwells cfg -> d_state st' = 1%Z)
       /\ (d_bit_transition_flag cfg = true ->
           d_well_count st' = d_max_dwells cfg -> miss = false ->
           (d_state st' = 2%Z <-> d_threshold cfg < d_test_statistics st')
           /\ (d_test_statistics st' <= d_threshold cfg -> d_state st' = 3%Z))
       /\ (miss = true ->
           d_bit_transition_flag cfg = false
           \/ d_well_count st' = d_max_dwells cfg ->
           d_state st' = 3%Z)
       /\ (d_bit_transition_flag cfg = true -> found = false ->
           d_test_statistics st <= d_test_statistics st')
       /\ (d_bit_transition_flag cfg = true -> d_max_dwells cfg = 2%Z ->
           d_well_count st = 0%Z ->
           d_state st' = 1%Z
           /\ forall inp2,
               ~ accumulate_power (in_samples inp2) (Z.to_nat (d_fft_size cfg)) == 0 ->
               exists st'',
                 general_work cfg st' inp2 = Ok (st'', 1%Z)
                 /\ (d_state st'' = 2%Z \/ d_state st'' = 3%Z)).
Proof.
  intros Hst HN Hspc Hacc.
  destruct (dwell_spec cfg st inp Hst HN Hspc Hacc)
    as (st1 & peaks & st2 & found & E1 & E2 & E & Hs2 & Hw2 & _ & _ & Hnf & Hoff).
  destruct (search_spec cfg st inp HN Hspc Hacc)
    as (st1' & peaks' & E1' & _ & _ & _ & _ & Hts & _).
  rewrite E1 in E1'. injection E1' as <- <-.
  exists st1, peaks, st2, found. eexists.
  split; [exact E1|]. split; [exact E2|]. split; [exact E|].
  destruct (decide_state_spec cfg st2 found Hs2) as (D1 & D2 & D3 & D4).
  simpl. split; [assumption|]. split; [assumption|].
  split; [exact D1|]. split; [exact D2|]. split; [exact D3|]. split; [exact D4|].
  split.
  - intros Hb Hf. rewrite (Hnf Hf). now apply Hts.
  - intros Hb Hmax Hw0.
    assert (d_well_count st2 = 1%Z) as Hone by (rewrite Hw2, Hw0; reflexivity).
    assert (decide_state cfg st2 found = 1%Z) as Hstay.
    { apply D2; [assumption|]. rewrite Hone, Hmax. discriminate. }
    split; [assumption|].
    intros inp2 Hacc2.
    destruct (dwell_spec cfg (set_state st2 (decide_state cfg st2 found)) inp2)
      as (_ & _ & st4 & found' & _ & _ & E' & _ & Hw4 & _); try assumption.
    eexists. split; [exact E'|]. simpl.
    apply decide_state_final; [assumption|].
    rewrite Hw4. simpl. rewrite Hone, Hmax. reflexivity.
Qed.

Lemma C5_dwell_decision_witness :
  (d_state Capture.dwelling = 1%Z
   /\ (0 < d_fft_size (Capture.config 1 true))%Z
   /\ d_samples_per_code (Capture.config 1 true) <> 0%Z
   /\ ~ accumulate_power (in_samples Capture.single_peak)
          (Z.to_nat (d_fft_size (Capture.config 1 true))) == 0)
  /\ exists st',
      general_work (Capture.config 1 true) Capture.dwelling Capture.single_peak
      = Ok (st', 1%Z)
      /\ d_well_count st' = 1%Z.
Proof.
  assert (d_state Capture.dwelling = 1%Z) as H1 by reflexivity.
  assert (0 < d_fft_size (Capture.config 1 true))%Z as H2 by (simpl; lia).
  assert (d_samples_per_code (Capture.config 1 true) <> 0%Z) as H3
    by (simpl; lia).
  assert (~ accumulate_power (in_samples Capture.single_peak)
              (Z.to_nat (d_fft_size (Capture.config 1 true))) == 0) as H4
    by (vm_compute; discriminate).
  split; [auto|].
  destruct (C5_dwell_decision (Capture.config 1 true) Capture.dwelling
              Capture.single_peak H1 H2 H3 H4)
    as (st1 & peaks & st2 & found & st' & _ & _ & E & Hw & _).
  exists st'. split; assumption.
Defined.

(** C5 as stated fails: in auxiliary-peak mode ([peak = 2]) a dwell with a
    single correlation peak ends with [test_statistics = 9 > threshold = 2]
    and yet in the NEGATIVE state, with [bit_transition_flag] false and
    [well_count = 1] short of [max_dwells = 2]. *)
Lemma C5_counterexample :
  exists st',
    general_work (Capture.config 2 false) Capture.dwelling Capture.single_peak
    = Ok (st', 1%Z)
    /\ d_bit_transition_flag (Capture.config 2 false) = false
    /\ d_threshold (Capture.config 2 false) < d_test_statistics st'
    /\ d_well_count st' <> d_max_dwells (Capture.config 2 false)
    /\ d_state st' = 3%Z
    /\ ~ (d_state st' = 2%Z
          <-> d_threshold (Capture.config 2 false) < d_test_statistics st').
Proof.
  eexists. split; [vm_compute; reflexivity|].
  split; [reflexivity|]. split; [vm_compute; reflexivity|].
  split; [vm_compute; discriminate|]. split; [reflexivity|].
  intros [_ H]. simpl in H. discriminate H. vm_compute. reflexivity.
Qed.

(** C1 (the code at a failing input).  In auxiliary-peak mode with
    [peak = 2] and three values above the threshold at code phases 1, 2, 3
    of one Doppler bin, the two strongest are the selected peaks and the
    third is a candidate at the same Doppler, one sample away: the
    selection worded by the specification rejects it and finds no peak,
    while [select_peak], which compares the candidate's Doppler with the
    code phase of each selected peak, takes it, and the dwell ends POSITIVE
    with the candidate as the acquisition result. *)
Theorem C1_auxiliary_peak_not_disjoint :
  let cfg := Capture.config 2 false in
  exists st1 peaks magnitude st',
    search cfg Capture.dwelling Capture.three_peaks = Ok (st1, peaks)
    /\ select_peak cfg (reverse peaks) 0 ∅ = Some (magnitude, mkPeak 3 0 4)
    /\ magnitude == 7
    /\ spec_disjoint cfg (mkPeak 3 0 4) (2%Z, 0%Z) = false
    /\ spec_select_peak cfg (reverse peaks) 0 ∅ = None
    /\ general_work cfg Capture.dwelling Capture.three_peaks = Ok (st', 1%Z)
    /\ d_state st' = 2%Z
    /\ Acq_delay_samples (d_gnss_synchro st') == 3
    /\ Acq_doppler_hz (d_gnss_synchro st') == 0.
Proof.
  do 4 eexists.
  split; [vm_compute; reflexivity|].
  split; [vm_compute; reflexivity|].
  split; [reflexivity|].
  split; [reflexivity|].
  split; [vm_compute; reflexivity|].
  split; [vm_compute; reflexivity|].
  repeat split.
Qed.

End AcquisitionFacts.

(** ** Rounding and remainders *)

Lemma inject_Z_pred (z : Z) : inject_Z (z - 1) = inject_Z z - 1.
Proof. unfold Z.sub. now rewrite inject_Z_plus. Qed.

Lemma round_ge (x : Q) (z : Z) : inject_Z z - (1 # 2) < x -> (z <= round x)%Z.
Proof.
  intro Hx. unfold round. destruct (Qle_bool 0 x) eqn:E.
  - rewrite <- (Qfloor_Z z). apply Qfloor_resp_le. lra.
  - pose proof (Qle_ceiling (x - (1 # 2))) as Hc.
    assert (inject_Z (z - 1) < inject_Z (Qceiling (x - (1 # 2)))) as Hlt.
    { rewrite inject_Z_pred. lra. }
    rewrite <- Zlt_Qlt in Hlt. lia.
Qed.

Lemma round_le (x : Q) (z : Z) : x < inject_Z z + (1 # 2) -> (round x <= z)%Z.
Proof.
  intro Hx. unfold round. destruct (Qle_bool 0 x) eqn:E.
  - pose proof (Qfloor_le (x + (1 # 2))) as Hf.
    assert (inject_Z (Qfloor (x + (1 # 2))) < inject_Z (z + 1)) as Hlt.
    { rewrite inject_Z_plus. change (inject_Z 1) with 1. lra. }
    rewrite <- Zlt_Qlt in Hlt. lia.
  - rewrite <- (Qceiling_Z z). apply Qceiling_resp_le. lra.
Qed.

(** [fmod] by a positive divisor: between [-y] and [y], not negative on a
    non-negative argument, and not below a negative argument. *)
Lemma fmod_bounds (x y : Q) :
  0 < y ->
  - y < fmod x y < y /\ (0 <= x -> 0 <= fmod x y) /\ (x < 0 -> x <= fmod x y).
Proof.
  intro Hy. unfold fmod, trunc.
  assert (x == x / y * y) as Hx by (field; lra).
  set (q := x / y) in *.
  destruct (Qle_bool 0 q) eqn:E.
  - apply Qle_bool_iff in E.
    pose proof (Qfloor_le q) as H1. pose proof (Qlt_floor q) as H2.
    rewrite inject_Z_plus in H2. change (inject_Z 1) with 1 in H2.
    set (n := inject_Z (Qfloor q)) in *.
    assert (0 <= n) as Hn.
    { subst n. change 0 with (inject_Z 0). rewrite <- Zle_Qle.
      rewrite <- (Qfloor_Z 0). now apply Qfloor_resp_le. }
    assert (0 <= (q - n) * y) as H3 by (apply Qmult_le_0_compat; lra).
    assert (0 < (n + 1 - q) * y) as H4 by (apply Qmult_lt_0_compat; lra).
    assert (0 <= n * y) as H5 by (apply Qmult_le_0_compat; lra).
    assert (0 <= q * y) as H6 by (apply Qmult_le_0_compat; lra).
    repeat split; intros; lra.
  - apply Qle_bool_false in E.
    pose proof (Qle_ceiling q) as H1. pose proof (Qceiling_lt q) as H2.
    rewrite inject_Z_pred in H2.
    set (n := inject_Z (Qceiling q)) in *.
    assert (n <= 0) as Hn.
    { subst n. change 0 with (inject_Z 0). rewrite <- Zle_Qle.
      rewrite <- (Qceiling_Z 0). apply Qceiling_resp_le.
      change (inject_Z 0) with 0. lra. }
    assert (0 <= (n - q) * y) as H3 by (apply Qmult_le_0_compat; lra).
    assert (0 < (q - (n - 1)) * y) as H4 by (apply Qmult_lt_0_compat; lra).
    assert (0 <= (- n) * y) as H5 by (apply Qmult_le_0_compat; lra).
    assert (0 < (- q) * y) as H6 by (apply Qmult_lt_0_compat; lra).
    repeat split; intros; lra.
Qed.

(** ** Tracking *)

Module TrackingFacts.
Import Tracking.

Lemma code_length_chips_value : code_length_chips = 1023%Z.
Proof. reflexivity. Qed.

(** The index never exceeds the upper guard entry and, before the wrap of
    [update_local_code_m], never falls below -1022. *)
Lemma associated_chip_index_bounds (cfg : config) (tcode_chips : Q) :
  (- 1022 <= associated_chip_index cfg tcode_chips <= 1024)%Z.
Proof.
  unfold associated_chip_index. rewrite code_length_chips_value.
  destruct (fmod_bounds (tcode_chips - d_early_late_spc_chips cfg) (inject_Z 1023))
    as ([Hlo Hhi] & _); [reflexivity|].
  set (r := fmod _ _) in *. unfold inject_Z in Hlo, Hhi.
  assert (- 1023 <= round r)%Z by (apply round_ge; unfold inject_Z; lra).
  assert (round r <= 1023)%Z by (apply round_le; unfold inject_Z; lra).
  lia.
Qed.

(** It reaches the lower guard entry at most, as long as the code phase is
    less than a chip and a half behind. *)
Lemma associated_chip_index_nonneg (cfg : config) (tcode_chips : Q) :
  - (3 # 2) < tcode_chips - d_early_late_spc_chips cfg ->
  (0 <= associated_chip_index cfg tcode_chips)%Z.
Proof.
  intro Harg. unfold associated_chip_index. rewrite code_length_chips_value.
  destruct (fmod_bounds (tcode_chips - d_early_late_spc_chips cfg) (inject_Z 1023))
    as (_ & Hpos & Hneg); [reflexivity|].
  set (x := tcode_chips - d_early_late_spc_chips cfg) in *.
  set (r := fmod _ _) in *.
  assert (- 1 <= round r)%Z; [|lia].
  apply round_ge. unfold inject_Z.
  destruct (Qlt_le_dec x 0) as [Hx|Hx].
  - specialize (Hneg Hx). lra.
  - specialize (Hpos Hx). lra.
Qed.

Lemma read_code_in_range (ca_code : list gr_complex) (index : Z) :
  (0 <= index < Z.of_nat (length ca_code))%Z ->
  exists c, read_code ca_code index = Ok c.
Proof.
  intro Hi. unfold read_code.
  destruct (Z.ltb_spec index 0) as [Hneg|_]; [lia|].
  destruct (lookup_lt_is_Some_2 ca_code (Z.to_nat index)) as [c ->]; [lia|].
  eauto.
Qed.

Lemma read_code_Ok (ca_code : list gr_complex) (index : Z) (c : gr_complex) :
  read_code ca_code index = Ok c ->
  (0 <= index < Z.of_nat (length ca_code))%Z.
Proof.
  unfold read_code.
  destruct (Z.ltb_spec index 0) as [Hneg|Hpos]; [discriminate|].
  destruct (ca_code !! Z.to_nat index) as [c'|] eqn:E; [|discriminate].
  intros _. apply lookup_lt_Some in E. lia.
Qed.

Lemma read_code_lookup (ca_code : list gr_complex) (index : Z) (c : gr_complex) :
  (0 <= index)%Z -> ca_code !! Z.to_nat index = Some c ->
  read_code ca_code index = Ok c.
Proof.
  intros Hi E. unfold read_code.
  destruct (Z.ltb_spec index 0) as [Hneg|_]; [lia|]. now rewrite E.
Qed.

(** The replica loop returns when the sample rate and the code frequency
    are not zero and every code phase it runs through, described by [J],
    gives an index inside the table. *)
Lemma epl_replicas_total (cfg : config) (ca_code : list gr_complex)
    (code_freq_chips rem_code_phase_samples : Q) (prn_length_samples : Z)
    (wrap : Z -> Z) (J : Q -> Prop) :
  ~ inject_Z (d_fs_in cfg) == 0 -> ~ code_freq_chips == 0 ->
  J (- (rem_code_phase_samples * (code_freq_chips / inject_Z (d_fs_in cfg)))) ->
  (forall t, J t -> J (Qred (t + code_freq_chips / inject_Z (d_fs_in cfg)))) ->
  (forall t, J t ->
     (0 <= wrap (associated_chip_index cfg t) < Z.of_nat (length ca_code))%Z) ->
  exists r,
    epl_replicas cfg ca_code code_freq_chips rem_code_phase_samples
      prn_length_samples wrap = Ok r.
Proof.
  intros Hfs Hfreq Hinit Hstep Hidx. unfold epl_replicas.
  rewrite fdiv_Ok by assumption. rewrite bind_Ok.
  rewrite fdiv_Ok by (now apply Qdiv_nonzero). rewrite bind_Ok.
  set (step := code_freq_chips / inject_Z (d_fs_in cfg)) in *.
  match goal with
  | |- context [for_loop ?n 0 ?body ?s0] =>
      destruct (for_loop_invariant (fun _ (p : Q * list gr_complex) => J (fst p))
                  body n 0 s0) as ([t early] & -> & _)
  end.
  - exact Hinit.
  - intros i [t early] _ Ht. simpl in Ht.
    destruct (read_code_in_range ca_code (wrap (associated_chip_index cfg t)))
      as [c ->]; [now apply Hidx|].
    rewrite bind_Ok. eexists. split; [reflexivity|]. simpl. now apply Hstep.
  - rewrite bind_Ok. eauto.
Qed.

(** The table [start_tracking] leaves: the generated chips in entries
    1..1023, the last chip in entry 0, the first chip in entry 1024. *)
Lemma seed_ca_code_spec `{Externals} (ca_code : list gr_complex) (prn : Z) :
  length ca_code = 1025%nat ->
  length (gps_l1_ca_code_gen_complex prn 0) = 1023%nat ->
  exists seeded,
    seed_ca_code ca_code prn = Ok seeded
    /\ length seeded = 1025%nat
    /\ seeded !! 0%nat = gps_l1_ca_code_gen_complex prn 0 !! 1022%nat
    /\ seeded !! 1024%nat = gps_l1_ca_code_gen_complex prn 0 !! 0%nat
    /\ (forall i, (i < 1023)%nat ->
                  seeded !! S i = gps_l1_ca_code_gen_complex prn 0 !! i).
Proof.
  intros Hlen Hgen. unfold seed_ca_code.
  set (code := gps_l1_ca_code_gen_complex prn 0) in *.
  assert (exists g0 g1, write_at 1 code ca_code = [g0] ++ code ++ [g1])
    as (g0 & g1 & ->).
  { unfold write_at. destruct ca_code as [|g0 tl]; [discriminate|].
    simpl in Hlen. injection Hlen as Hlen.
    rewrite Hgen. simpl length. rewrite Hlen.
    replace (S 1024 - 1)%nat with 1024%nat by lia.
    rewrite (take_ge code 1024) by lia.
    change (take 1 (g0 :: tl)) with [g0].
    change (drop (1 + 1023) (g0 :: tl)) with (drop 1023 tl).
    assert (length (drop 1023 tl) = 1%nat) as Hd by (rewrite length_drop; lia).
    destruct (drop 1023 tl) as [|g1 [|? ?]]; try discriminate.
    eauto. }
  destruct (lookup_lt_is_Some_2 code 1022) as [last_chip Hlast]; [lia|].
  destruct (lookup_lt_is_Some_2 code 0) as [first_chip Hfirst]; [lia|].
  assert (([g0] ++ code ++ [g1]) !! 1023%nat = Some last_chip) as E1.
  { change (([g0] ++ code ++ [g1]) !! 1023%nat) with ((code ++ [g1]) !! 1022%nat).
    rewrite lookup_app_l by lia. assumption. }
  rewrite code_length_chips_value.
  rewrite (read_code_lookup _ 1023 last_chip) by (try lia; exact E1).
  rewrite bind_Ok.
  change (<[0%nat:=last_chip]> ([g0] ++ code ++ [g1]))
    with ([last_chip] ++ code ++ [g1]).
  assert (([last_chip] ++ code ++ [g1]) !! 1%nat = Some first_chip) as E2.
  { change (([last_chip] ++ code ++ [g1]) !! 1%nat) with ((code ++ [g1]) !! 0%nat).
    rewrite lookup_app_l by lia. assumption. }
  rewrite (read_code_lookup _ 1 first_chip) by (try lia; exact E2).
  rewrite bind_Ok.
  change (Z.to_nat (1023 + 1)) with 1024%nat.
  eexists. split; [reflexivity|].
  assert (length ([last_chip] ++ code ++ [g1]) = 1025%nat) as Hl.
  { rewrite !length_app, Hgen. reflexivity. }
  split; [now rewrite length_insert|].
  split.
  { rewrite list_lookup_insert_ne by lia. now rewrite Hlast. }
  split.
  { rewrite list_lookup_insert_eq by lia. now rewrite Hfirst. }
  intros i Hi. rewrite list_lookup_insert_ne by lia.
  change (([last_chip] ++ code ++ [g1]) !! S i) with ((code ++ [g1]) !! i).
  now rewrite lookup_app_l by lia.
Qed.

Lemma start_tracking_seeds `{Externals} (cfg : config) (st0 st1 : state) :
  start_tracking cfg st0 = Ok st1 ->
  seed_ca_code (d_ca_code st0) (PRN (d_acquisition_gnss_synchro st0))
  = Ok (d_ca_code st1).
Proof.
  unfold start_tracking. intro E.
  apply bind_inv in E as (q1 & _ & E).
  apply bind_inv in E as (q2 & _ & E).
  apply bind_inv in E as (q3 & _ & E).
  apply bind_inv in E as (seeded & Eseed & E).
  injection E as <-. exact Eseed.
Qed.

(** C8 (as the code has it).  [start_tracking] seeds the 1025-entry table
    with the last chip in entry 0 and the first chip in entry 1024.  With
    a positive sample rate and code frequency, [update_local_code_m] reads
    the table in range for any code phase remainder: its index lies in
    [-1022, 1024] and a negative one is moved up by 1023.
    [update_local_code] has no such wrap; it reads the table in range when
    [|rem_code_phase_samples| < 1], [early_late_spc_chips <= 0.5] and, in
    addition, the code frequency does not exceed the sample rate (at most
    one chip per sample).  [read_code] fails on any index outside the
    table, so a returned replica means every access was in range. *)
Theorem C8_code_table_access_in_range `{Externals}
    (cfg : config) (st : state) (ca_code : list gr_complex) (prn : Z) :
  length ca_code = 1025%nat ->
  length (gps_l1_ca_code_gen_complex prn 0) = 1023%nat ->
  length (d_ca_code st) = 1025%nat ->
  (0 < d_fs_in cfg)%Z ->
  0 < d_code_freq_chips st ->
  (exists seeded,
      seed_ca_code ca_code prn = Ok seeded
      /\ length seeded = 1025%nat
      /\ seeded !! 0%nat = gps_l1_ca_code_gen_complex prn 0 !! 1022%nat
      /\ seeded !! 1024%nat = gps_l1_ca_code_gen_complex prn 0 !! 0%nat)
  /\ (forall st0 st1,
         start_tracking cfg st0 = Ok st1 ->
         seed_ca_code (d_ca_code st0) (PRN (d_acquisition_gnss_synchro st0))
         = Ok (d_ca_code st1))
  /\ (forall table index c,
         read_code table index = Ok c ->
         (0 <= index < Z.of_nat (length table))%Z)
  /\ (forall tcode_chips,
         - (3 # 2) < tcode_chips - d_early_late_spc_chips cfg ->
         (0 <= associated_chip_index cfg tcode_chips <= 1024)%Z)
  /\ (d_code_freq_chips st <= inject_Z (d_fs_in cfg) ->
      - (1) < d_rem_code_phase_samples st < 1 ->
      d_early_late_spc_chips cfg <= 1 # 2 ->
      exists r, update_local_code cfg st = Ok r)
  /\ (exists r, update_local_code_m cfg st = Ok r).
Proof.
  intros Hca Hgen Hlen Hfs Hfreq.
  assert (0 < inject_Z (d_fs_in cfg)) as Hfsq.
  { change 0 with (inject_Z 0). now rewrite <- Zlt_Qlt. }
  split.
  { destruct (seed_ca_code_spec ca_code prn Hca Hgen)
      as (seeded & E & Hl & H0 & H1 & _). eauto. }
  split; [intros st0 st1; apply start_tracking_seeds|].
  split; [exact read_code_Ok|].
  split.
  { intros t Ht. pose proof (associated_chip_index_bounds cfg t).
    pose proof (associated_chip_index_nonneg cfg t Ht). lia. }
  split.
  - intros Hrate [Hlo Hhi] Hels. unfold update_local_code.
    set (step := d_code_freq_chips st / inject_Z (d_fs_in cfg)).
    assert (0 < step) as Hstep0.
    { apply Qlt_shift_div_l; [assumption|]. lra. }
    assert (step <= 1) as Hstep1.
    { apply Qle_shift_div_r; [assumption|]. lra. }
    apply (epl_replicas_total cfg _ _ _ _ _
             (fun t => - (3 # 2) < t - d_early_late_spc_chips cfg)).
    + lra.
    + lra.
    + fold step.
      assert (d_rem_code_phase_samples st * step < 1); [|lra].
      destruct (Qlt_le_dec (d_rem_code_phase_samples st) 0) as [Hneg|Hpos].
      * assert (0 <= (- d_rem_code_phase_samples st) * step)
          by (apply Qmult_le_0_compat; lra). lra.
      * assert (0 <= d_rem_code_phase_samples st * (1 - step))
          by (apply Qmult_le_0_compat; lra). lra.
    + intros t Ht. fold step. rewrite Qred_correct. lra.
    + intros t Ht. rewrite Hlen.
      pose proof (associated_chip_index_bounds cfg t).
      pose proof (associated_chip_index_nonneg cfg t Ht). lia.
  - unfold update_local_code_m.
    apply (epl_replicas_total cfg _ _ _ _ _ (fun _ => True)); try lra; auto.
    intros t _. rewrite Hlen.
    pose proof (associated_chip_index_bounds cfg t).
    destruct (Z.ltb_spec (associated_chip_index cfg t) 0); lia.
Qed.

Lemma C8_code_table_access_in_range_witness :
  (length (replicate 1025 (Cplx 0 0)) = 1025%nat
   /\ length (@gps_l1_ca_code_gen_complex Nominal.externals 1 0) = 1023%nat
   /\ length (d_ca_code (Nominal.locked 8184 false (2 # 5) (- (133 # 5)) 2046 0 0))
      = 1025%nat
   /\ (0 < d_fs_in Nominal.config)%Z
   /\ 0 < d_code_freq_chips (Nominal.locked 8184 false (2 # 5) (- (133 # 5)) 2046 0 0))
  /\ (exists r,
         update_local_code Nominal.config
           (Nominal.locked 8184 false (2 # 5) (- (133 # 5)) 2046 0 0) = Ok r)
  /\ (exists r,
         update_local_code_m Nominal.config
           (Nominal.locked 8184 false (2 # 5) (- (133 # 5)) 2046 0 0) = Ok r).
Proof.
  assert (length (replicate 1025 (Cplx 0 0)) = 1025%nat) as H1
    by (vm_compute; reflexivity).
  assert (length (@gps_l1_ca_code_gen_complex Nominal.externals 1 0) = 1023%nat)
    as H2 by (vm_compute; reflexivity).
  assert (length (d_ca_code (Nominal.locked 8184 false (2 # 5) (- (133 # 5)) 2046 0 0))
          = 1025%nat) as H3 by (vm_compute; reflexivity).
  assert (0 < d_fs_in Nominal.config)%Z as H4 by (simpl; lia).
  assert (0 < d_code_freq_chips (Nominal.locked 8184 false (2 # 5) (- (133 # 5)) 2046 0 0))
    as H5 by reflexivity.
  split; [auto|].
  destruct (C8_code_table_access_in_range Nominal.config
              (Nominal.locked 8184 false (2 # 5) (- (133 # 5)) 2046 0 0)
              (replicate 1025 (Cplx 0 0)) 1 H1 H2 H3 H4 H5)
    as (_ & _ & _ & _ & Hp & Hm).
  split; [|exact Hm].
  apply Hp.
  - vm_compute. discriminate.
  - split; reflexivity.
  - vm_compute. discriminate.
Defined.

(** C8 as stated fails for [update_local_code]: at one sample every three
    chips, a code phase remainder of 0.4 samples (1.2 chips) and an
    early-late spacing of 0.5 chip give the index
    [1 + round(-1.7) = -1] at the first iteration, below the table. *)
Lemma C8_counterexample :
  let st := Nominal.locked 8184 true (2 # 5) (2 # 5) 341 0 0 in
  length (d_ca_code st) = 1025%nat
  /\ - (1) < d_rem_code_phase_samples st < 1
  /\ d_early_late_spc_chips Nominal.undersampled <= 1 # 2
  /\ associated_chip_index Nominal.undersampled
       (- (d_rem_code_phase_samples st
           * (d_code_freq_chips st / inject_Z (d_fs_in Nominal.undersampled))))
     = (-1)%Z
  /\ update_local_code Nominal.undersampled st = Err OutOfRange
  /\ general_work Nominal.undersampled st Nominal.in_phase = Err OutOfRange.
Proof.
  repeat split; try (vm_compute; reflexivity); vm_compute; discriminate.
Qed.

(** ** The steady-state step *)

(** [correlate] only writes the correlator outputs. *)
Lemma correlate_outputs `{Externals} (st : state) (inp : work_input) :
  d_Early (correlate st inp) = Early inp
  /\ d_Prompt (correlate st inp) = Prompt inp
  /\ d_Late (correlate st inp) = Late inp
  /\ (CADLL_init st = false ->
      d_Early_m (correlate st inp) = Early_m inp
      /\ d_Prompt_m (correlate st inp) = Prompt_m inp
      /\ d_Late_m (correlate st inp) = Late_m inp).
Proof.
  unfold correlate. destruct (CADLL_init st); simpl; repeat split; discriminate.
Qed.

Lemma correlate_keeps `{Externals} (st : state) (inp : work_input) :
  CADLL_init (correlate st inp) = CADLL_init st
  /\ d_sample_counter (correlate st inp) = d_sample_counter st
  /\ d_rem_code_phase_samples (correlate st inp) = d_rem_code_phase_samples st
  /\ d_rem_code_phase_samples_m (correlate st inp) = d_rem_code_phase_samples_m st
  /\ d_acc_code_phase_secs (correlate st inp) = d_acc_code_phase_secs st
  /\ d_acq_carrier_doppler_hz (correlate st inp) = d_acq_carrier_doppler_hz st
  /\ d_carrier_loop_filter (correlate st inp) = d_carrier_loop_filter st
  /\ d_code_loop_filter (correlate st inp) = d_code_loop_filter st
  /\ d_code_loop_filter_m (correlate st inp) = d_code_loop_filter_m st
  /\ d_carrier_lock_fail_counter (correlate st inp) = d_carrier_lock_fail_counter st
  /\ d_cn0_estimation_counter (correlate st inp) = d_cn0_estimation_counter st
  /\ d_Prompt_buffer (correlate st inp) = d_Prompt_buffer st
  /\ d_queue (correlate st inp) = d_queue st
  /\ d_enable_tracking (correlate st inp) = d_enable_tracking st
  /\ d_acquisition_gnss_synchro (correlate st inp) = d_acquisition_gnss_synchro st.
Proof.
  unfold correlate. destruct (CADLL_init st) eqn:E; simpl; rewrite ?E; repeat split.
Qed.

Lemma carrier_pll_correlate `{Externals} (st : state) (inp : work_input)
    (prompt : gr_complex) :
  carrier_pll (correlate st inp) prompt = carrier_pll st prompt.
Proof. unfold correlate. destruct (CADLL_init st); reflexivity. Qed.

Lemma amplitude_loops_Ok `{Externals} (st : state) (prompt : gr_complex) (power : Q) :
  (CADLL_init st = false -> ~ real prompt + real (d_Prompt_m st) == 0) ->
  exists amplitude, amplitude_loops st prompt power = Ok amplitude.
Proof.
  intro Ht. unfold amplitude_loops. destruct (CADLL_init st); [eauto|].
  rewrite fdiv_Ok by auto. rewrite bind_Ok. eauto.
Qed.

(** A call with tracking enabled, pull-in done, replicas in range and a
    finite prompt correlator is a steady-state step; it returns when the
    sample rate and the new code frequency are not zero and, in CADLL
    mode, the two prompt correlators do not cancel. *)
Lemma general_work_steady_state `{Externals} (cfg : config) (st : state)
    (inp : work_input) (prompt : gr_complex) (r r_m : replicas) :
  d_enable_tracking st = true -> d_pull_in st = false ->
  Prompt inp = Finite prompt ->
  update_local_code cfg st = Ok r -> update_local_code_m cfg st = Ok r_m ->
  d_fs_in cfg <> 0%Z ->
  ~ pll_code_freq_chips (carrier_pll st prompt) == 0 ->
  (CADLL_init st = false -> ~ real prompt + real (Prompt_m inp) == 0) ->
  exists amplitude last_seg,
    amplitude_loops (correlate st inp) prompt (input_power (correlate st inp) inp)
    = Ok amplitude
    /\ general_work cfg st inp
       = Ok (steady_update cfg (correlate st inp) inp prompt
               (1 / pll_code_freq_chips (carrier_pll st prompt)) amplitude
               ((inject_Z (d_sample_counter st) + d_rem_code_phase_samples st)
                / inject_Z (d_fs_in cfg))
               last_seg).
Proof.
  intros Hen Hpull HP Er Erm Hfs Hcf Ht.
  destruct (correlate_outputs st inp) as (_ & HP' & _ & Hm).
  destruct (correlate_keeps st inp) as (Hinit & Hsc & Hrem & _).
  destruct (amplitude_loops_Ok (correlate st inp) prompt
              (input_power (correlate st inp) inp)) as [amplitude Eamp].
  { rewrite Hinit. intro Hi. destruct (Hm Hi) as (_ & -> & _). auto. }
  exists amplitude. eexists. split; [exact Eamp|].
  unfold general_work. rewrite Hen, Hpull, Er, bind_Ok, Erm, bind_Ok.
  cbv zeta. rewrite HP', HP. unfold steady_state.
  rewrite carrier_pll_correlate. rewrite (fdiv_Ok 1 _ Hcf).
  rewrite bind_Ok, Eamp, bind_Ok.
  assert (~ inject_Z (d_fs_in cfg) == 0) as Hfsq.
  { intro E. unfold Qeq in E. simpl in E. lia. }
  rewrite Hsc, Hrem. rewrite (fdiv_Ok _ _ Hfsq). rewrite bind_Ok.
  unfold second_counter. rewrite idiv_Ok by assumption. rewrite !bind_Ok.
  reflexivity.
Qed.

(** C2 (as the code has it).  On a steady-state step
    [T_prn_samples = GPS_L1_CA_CODE_LENGTH_CHIPS / code_freq_chips * fs_in]
    with the new code frequency,
    [K_blk = T_prn_samples + rem_code_phase_samples + code_error_filt_secs * fs_in],
    [current_prn_length_samples = round(K_blk)] and the new
    [rem_code_phase_samples = K_blk - current_prn_length_samples].  In
    CADLL mode the secondary forms [K_blk_m] in the same way from its own
    [rem_code_phase_samples_m] and [code_error_filt_secs_m] and rounds it
    to its own [current_prn_length_samples_m], but its new remainder is
    taken against the primary length, the number of samples the block
    consumes: [rem_code_phase_samples_m = K_blk_m - current_prn_length_samples].
    During initialization [K_blk_m = K_blk], the two lengths agree, and
    the remainders agree as long as the step does not promote. *)
Theorem C2_code_nco_update `{Externals} (cfg : config) (st : state)
    (inp : work_input) (prompt : gr_complex) (r r_m : replicas) :
  d_enable_tracking st = true -> d_pull_in st = false ->
  Prompt inp = Finite prompt ->
  update_local_code cfg st = Ok r -> update_local_code_m cfg st = Ok r_m ->
  d_fs_in cfg <> 0%Z ->
  ~ pll_code_freq_chips (carrier_pll st prompt) == 0 ->
  (CADLL_init st = false -> ~ real prompt + real (Prompt_m inp) == 0) ->
  exists st' o v,
    general_work cfg st inp = Ok (st', o)
    /\ vars o = Some v
    /\ consumed o = d_current_prn_length_samples st'
    /\ T_prn_samples v
       == GPS_L1_CA_CODE_LENGTH_CHIPS / d_code_freq_chips st' * inject_Z (d_fs_in cfg)
    /\ K_blk_samples v
       == T_prn_samples v + d_rem_code_phase_samples st
          + code_error_filt_secs v * inject_Z (d_fs_in cfg)
    /\ d_current_prn_length_samples st' = round (K_blk_samples v)
    /\ d_rem_code_phase_samples st'
       == K_blk_samples v - inject_Z (d_current_prn_length_samples st')
    /\ d_current_prn_length_samples_m st' = round (K_blk_samples_m v)
    /\ (CADLL_init st = false ->
        exists secs_m,
          code_error_filt_secs_m v = Some secs_m
          /\ secs_m
             == GPS_L1_CA_CODE_PERIOD
                * snd (get_code_nco (d_code_loop_filter_m st)
                         (dll_nc_e_minus_l_normalized (Early_m inp) (Late_m inp)))
                / GPS_L1_CA_CODE_RATE_HZ
          /\ K_blk_samples_m v
             == T_prn_samples v + d_rem_code_phase_samples_m st
                + secs_m * inject_Z (d_fs_in cfg)
          /\ d_rem_code_phase_samples_m st'
             == K_blk_samples_m v - inject_Z (d_current_prn_length_samples st'))
    /\ (CADLL_init st = true ->
        K_blk_samples_m v = K_blk_samples v
        /\ d_current_prn_length_samples_m st' = d_current_prn_length_samples st'
        /\ (CADLL_init st' = true ->
            d_rem_code_phase_samples_m st' = d_rem_code_phase_samples st')).
Proof.
  intros Hen Hpull HP Er Erm Hfs Hcf Ht.
  destruct (general_work_steady_state cfg st inp prompt r r_m
              Hen Hpull HP Er Erm Hfs Hcf Ht) as (amp & seg & _ & E).
  destruct (correlate_keeps st inp)
    as (Hinit & _ & Hrem & Hrem_m & _ & _ & _ & _ & Hfm & _).
  destruct (correlate_outputs st inp) as (_ & _ & _ & Hm).
  unfold steady_update in E. cbv zeta in E.
  rewrite Hinit, Hrem, Hrem_m, Hfm, !carrier_pll_correlate in E.
  eexists _, _, _. split; [exact E|]. split; [reflexivity|].
  cbn -[round fmod carrier_pll].
  split; [reflexivity|].
  split; [unfold GPS_L1_CA_CODE_LENGTH_CHIPS; field; assumption|].
  split; [reflexivity|]. split; [reflexivity|]. split; [reflexivity|].
  split; [reflexivity|].
  split.
  - intro Hi. rewrite Hi. destruct (Hm Hi) as (-> & _ & ->).
    eexists. split; [reflexivity|]. repeat split; reflexivity.
  - intro Hi. rewrite Hi. cbn -[round fmod carrier_pll].
    repeat split.
    destruct (Qltb 1 _); [discriminate | reflexivity].
Qed.

Lemma steady_Ok `{Externals} (r : res (state * work_output))
    (P : state -> work_output -> process_vars -> Prop) :
  steady r P ->
  exists st' o v, r = Ok (st', o) /\ vars o = Some v /\ P st' o v.
Proof.
  unfold steady. intro Hr. apply holds_Ok in Hr as ([st' o] & E & Hv).
  destruct (vars o) as [v|] eqn:Ev; [|contradiction].
  exists st', o, v. auto.
Qed.

(** The nominal states meet the conditions of a steady-state step. *)
Lemma nominal_replicas (st : @state Nominal.externals) :
  st = Nominal.cadll \/ st = Nominal.initializing ->
  (exists r, update_local_code Nominal.config st = Ok r)
  /\ (exists r, update_local_code_m Nominal.config st = Ok r).
Proof.
  intros [-> | ->]; split; eexists; vm_compute; reflexivity.
Defined.

Lemma C2_code_nco_update_witness :
  (d_enable_tracking Nominal.cadll = true
   /\ d_pull_in Nominal.cadll = false
   /\ Prompt Nominal.in_phase = Finite (Cplx 5 0)
   /\ (exists r, update_local_code Nominal.config Nominal.cadll = Ok r)
   /\ (exists r, update_local_code_m Nominal.config Nominal.cadll = Ok r)
   /\ d_fs_in Nominal.config <> 0%Z
   /\ ~ pll_code_freq_chips (carrier_pll Nominal.cadll (Cplx 5 0)) == 0
   /\ (CADLL_init Nominal.cadll = false ->
       ~ real (Cplx 5 0) + real (Prompt_m Nominal.in_phase) == 0))
  /\ exists st' o,
      general_work Nominal.config Nominal.cadll Nominal.in_phase = Ok (st', o)
      /\ consumed o = d_current_prn_length_samples st'.
Proof.
  destruct (nominal_replicas Nominal.cadll (or_introl eq_refl))
    as [[r Er] [r_m Erm]].
  assert (d_fs_in Nominal.config <> 0%Z) as Hfs by (simpl; lia).
  assert (~ pll_code_freq_chips (carrier_pll Nominal.cadll (Cplx 5 0)) == 0)
    as Hcf by (vm_compute; discriminate).
  assert (CADLL_init Nominal.cadll = false ->
          ~ real (Cplx 5 0) + real (Prompt_m Nominal.in_phase) == 0) as Ht
    by (intros _; vm_compute; discriminate).
  split.
  { split; [reflexivity|]. split; [reflexivity|]. split; [reflexivity|].
    split; [exists r; exact Er|]. split; [exists r_m; exact Erm|].
    split; [exact Hfs|]. split; [exact Hcf | exact Ht]. }
  destruct (C2_code_nco_update Nominal.config Nominal.cadll Nominal.in_phase
              (Cplx 5 0) r r_m eq_refl eq_refl eq_refl Er Erm Hfs Hcf Ht)
    as (st' & o & v & E & _ & Hc & _).
  exists st', o. split; assumption.
Defined.

(** C2 as stated fails for the secondary replica: in CADLL mode with the
    secondary 27 samples behind, [K_blk_m = 2019.4] is rounded to the
    secondary length 2019, yet the new [rem_code_phase_samples_m] is
    [2019.4 - 2046 = -26.6] (against the primary length 2046), not
    [2019.4 - 2019 = 0.4]. *)
Lemma C2_counterexample :
  exists st' o v,
    general_work Nominal.config Nominal.cadll Nominal.in_phase = Ok (st', o)
    /\ vars o = Some v
    /\ CADLL_init Nominal.cadll = false
    /\ K_blk_samples_m v == 20194 # 10
    /\ d_current_prn_length_samples st' = 2046%Z
    /\ d_current_prn_length_samples_m st' = 2019%Z
    /\ d_rem_code_phase_samples_m st' == - (133 # 5)
    /\ ~ d_rem_code_phase_samples_m st'
         == K_blk_samples_m v - inject_Z (d_current_prn_length_samples_m st').
Proof.
  apply steady_Ok. vm_compute.
  repeat split; try reflexivity; discriminate.
Qed.

Lemma fs_in_nonzero (cfg : config) :
  d_fs_in cfg <> 0%Z -> ~ inject_Z (d_fs_in cfg) == 0.
Proof. intros Hfs E. unfold Qeq in E. simpl in E. lia. Qed.

(** C4 (as the code has it).  With a non-zero sample rate: the record of
    a steady-state step carries
    [(sample_counter + rem_code_phase_samples) / fs_in] with the values at
    the start of the PRN period; the record of a NaN-skipped block carries
    [(sample_counter + samples_available) / fs_in], the counter after the
    skipped samples and no code phase remainder; with tracking disabled
    the record is the acquisition record as it is, whose timestamp the
    block does not write; the pull-in call writes no record. *)
Theorem C4_tracking_timestamp `{Externals} (cfg : config) (st : state)
    (inp : work_input) (r r_m : replicas) :
  d_fs_in cfg <> 0%Z ->
  (d_enable_tracking st = true -> d_pull_in st = false ->
   update_local_code cfg st = Ok r -> update_local_code_m cfg st = Ok r_m ->
   forall prompt, Prompt inp = Finite prompt ->
     ~ pll_code_freq_chips (carrier_pll st prompt) == 0 ->
     (CADLL_init st = false -> ~ real prompt + real (Prompt_m inp) == 0) ->
     exists st' o record,
       general_work cfg st inp = Ok (st', o) /\ out o = Some record
       /\ Tracking_timestamp_secs record
          == (inject_Z (d_sample_counter st) + d_rem_code_phase_samples st)
             / inject_Z (d_fs_in cfg))
  /\ (d_enable_tracking st = true -> d_pull_in st = false ->
      update_local_code cfg st = Ok r -> update_local_code_m cfg st = Ok r_m ->
      Prompt inp = NotANumber ->
      exists st' o record,
        general_work cfg st inp = Ok (st', o) /\ out o = Some record
        /\ Flag_valid_tracking record = false
        /\ Tracking_timestamp_secs record
           == inject_Z (wrap64 (d_sample_counter st + ninput_items inp))
              / inject_Z (d_fs_in cfg))
  /\ (d_enable_tracking st = false ->
      exists st' o,
        general_work cfg st inp = Ok (st', o)
        /\ out o = Some (d_acquisition_gnss_synchro st))
  /\ (d_enable_tracking st = true -> d_pull_in st = true ->
      d_current_prn_length_samples st <> 0%Z ->
      exists st' o, general_work cfg st inp = Ok (st', o) /\ out o = None).
Proof.
  intro Hfs. pose proof (fs_in_nonzero cfg Hfs) as Hfsq.
  destruct (correlate_keeps st inp)
    as (_ & Hsc & _ & _ & _ & _ & _ & _ & _ & _ & _ & _ & _ & _ & Hacq).
  destruct (correlate_outputs st inp) as (_ & HP' & _).
  repeat split.
  - intros Hen Hpull Er Erm prompt HP Hcf Ht.
    destruct (general_work_steady_state cfg st inp prompt r r_m
                Hen Hpull HP Er Erm Hfs Hcf Ht) as (amp & seg & _ & E).
    eexists _, _, _. split; [exact E|]. split; reflexivity.
  - intros Hen Hpull Er Erm HP.
    unfold general_work. rewrite Hen, Hpull, Er, bind_Ok, Erm, bind_Ok.
    cbv zeta. rewrite HP', HP. unfold nan_block. rewrite Hsc.
    rewrite (fdiv_Ok _ _ Hfsq), bind_Ok.
    eexists _, _, _. split; [reflexivity|]. repeat split; reflexivity.
  - intro Hen. unfold general_work. rewrite Hen. unfold disabled, second_counter.
    rewrite idiv_Ok by assumption. rewrite !bind_Ok.
    eexists _, _. split; reflexivity.
  - intros Hen Hpull Hlen. unfold general_work. rewrite Hen, Hpull.
    unfold pull_in, fmod_checked.
    destruct (Qeq_bool (inject_Z (d_current_prn_length_samples st)) 0) eqn:E.
    + apply Qeq_bool_iff in E. unfold Qeq in E. simpl in E. lia.
    + rewrite bind_Ok. eexists _, _. split; reflexivity.
Qed.

Lemma C4_tracking_timestamp_witness :
  d_fs_in Nominal.config <> 0%Z
  /\ exists st' o record,
      general_work Nominal.config Nominal.cadll Nominal.in_phase = Ok (st', o)
      /\ out o = Some record
      /\ Tracking_timestamp_secs record
         == (inject_Z (d_sample_counter Nominal.cadll)
             + d_rem_code_phase_samples Nominal.cadll)
            / inject_Z (d_fs_in Nominal.config).
Proof.
  destruct (nominal_replicas Nominal.cadll (or_introl eq_refl))
    as [[r Er] [r_m Erm]].
  assert (d_fs_in Nominal.config <> 0%Z) as Hfs by (simpl; lia).
  split; [exact Hfs|].
  destruct (C4_tracking_timestamp Nominal.config Nominal.cadll Nominal.in_phase
              r r_m Hfs) as (Hsteady & _).
  apply (Hsteady eq_refl eq_refl Er Erm (Cplx 5 0) eq_refl).
  - vm_compute. discriminate.
  - intros _. vm_compute. discriminate.
Defined.

(** C4 as stated fails on the two records it names.  One second into the
    stream with a code phase remainder of 0.4 samples, the NaN-skipped
    block (4092 samples available) is stamped
    [(2046000 + 4092) / 2046000], not [(2046000 + 0.4) / 2046000]; and with
    tracking disabled the record keeps the timestamp 0 of the acquisition
    record while [(sample_counter + rem_code_phase_samples) / fs_in] is
    [8184 / 2046000]. *)
Lemma C4_counterexample :
  emits (general_work Nominal.config Nominal.initializing Nominal.not_a_number)
    (fun _ record =>
       Tracking_timestamp_secs record == 2050092 # 2046000
       /\ ~ Tracking_timestamp_secs record
            == (inject_Z (d_sample_counter Nominal.initializing)
                + d_rem_code_phase_samples Nominal.initializing)
               / inject_Z (d_fs_in Nominal.config))
  /\ emits (general_work Nominal.config (Nominal.constructed 8184 true)
              Nominal.in_phase)
       (fun _ record =>
          Tracking_timestamp_secs record == 0
          /\ ~ Tracking_timestamp_secs record
               == (inject_Z (d_sample_counter (Nominal.constructed 8184 true))
                   + d_rem_code_phase_samples (Nominal.constructed 8184 true))
                  / inject_Z (d_fs_in Nominal.config)).
Proof.
  split; vm_compute; split; try reflexivity; discriminate.
Qed.

(** C7 (as the code has it).  On a steady-state step
    [carr_error_hz = pll_cloop_two_quadrant_atan(P) / (2 pi)]: the code
    divides the discriminator output by [GPS_TWO_PI], so with the
    discriminator [atan2(P.imag, P.real) / (2 pi)] of the specification the
    error is [atan2(P.imag, P.real) / (2 pi)^2].  Then
    [carrier_doppler_hz = Acq_doppler_hz + PLL_filter(carr_error_hz)] and
    [code_freq_chips = GPS_L1_CA_CODE_RATE_HZ * (1 + carrier_doppler_hz / GPS_L1_FREQ_HZ)]. *)
Theorem C7_pll_update `{Externals} (cfg : config) (st : state)
    (inp : work_input) (prompt : gr_complex) (r r_m : replicas) :
  d_enable_tracking st = true -> d_pull_in st = false ->
  Prompt inp = Finite prompt ->
  update_local_code cfg st = Ok r -> update_local_code_m cfg st = Ok r_m ->
  d_fs_in cfg <> 0%Z ->
  ~ pll_code_freq_chips (carrier_pll st prompt) == 0 ->
  (CADLL_init st = false -> ~ real prompt + real (Prompt_m inp) == 0) ->
  ~ GPS_L1_FREQ_HZ == 0 ->
  exists st' o v,
    general_work cfg st inp = Ok (st', o)
    /\ vars o = Some v
    /\ pll_cloop_two_quadrant_atan prompt
       == atan2 (imag prompt) (real prompt) / GPS_TWO_PI
    /\ carr_error_hz v == pll_cloop_two_quadrant_atan prompt / GPS_TWO_PI
    /\ carr_error_hz v
       == atan2 (imag prompt) (real prompt) / GPS_TWO_PI / GPS_TWO_PI
    /\ carr_error_filt_hz v
       = snd (get_carrier_nco (d_carrier_loop_filter st) (carr_error_hz v))
    /\ d_carrier_doppler_hz st' = d_acq_carrier_doppler_hz st + carr_error_filt_hz v
    /\ d_code_freq_chips st'
       == GPS_L1_CA_CODE_RATE_HZ * (1 + d_carrier_doppler_hz st' / GPS_L1_FREQ_HZ).
Proof.
  intros Hen Hpull HP Er Erm Hfs Hcf Ht Hfreq.
  destruct (general_work_steady_state cfg st inp prompt r r_m
              Hen Hpull HP Er Erm Hfs Hcf Ht) as (amp & seg & _ & E).
  unfold steady_update in E. cbv zeta in E.
  rewrite !carrier_pll_correlate in E.
  eexists _, _, _. split; [exact E|]. split; [reflexivity|].
  cbn -[round fmod].
  repeat split; try reflexivity.
  field. assumption.
Qed.

Lemma C7_pll_update_witness :
  (d_enable_tracking Nominal.initializing = true
   /\ d_fs_in Nominal.config <> 0%Z
   /\ ~ @GPS_L1_FREQ_HZ Nominal.externals == 0)
  /\ exists st' o v,
      general_work Nominal.config Nominal.initializing Nominal.quadrature
      = Ok (st', o)
      /\ vars o = Some v
      /\ carr_error_hz v
         == @atan2 Nominal.externals 5 0 / @GPS_TWO_PI Nominal.externals
            / @GPS_TWO_PI Nominal.externals.
Proof.
  destruct (nominal_replicas Nominal.initializing (or_intror eq_refl))
    as [[r Er] [r_m Erm]].
  assert (d_fs_in Nominal.config <> 0%Z) as Hfs by (simpl; lia).
  assert (~ @GPS_L1_FREQ_HZ Nominal.externals == 0) as Hfreq
    by (vm_compute; discriminate).
  split; [repeat split; assumption|].
  destruct (C7_pll_update Nominal.config Nominal.initializing Nominal.quadrature
              (Cplx 0 5) r r_m eq_refl eq_refl eq_refl Er Erm Hfs)
    as (st' & o & v & E & Ev & _ & _ & Herr & _).
  - vm_compute. discriminate.
  - intro Hi. discriminate Hi.
  - exact Hfreq.
  - exists st', o, v. repeat split; assumption.
Defined.

(** C7 as stated fails: for a prompt correlator in quadrature,
    [P = (0, 5)], [atan2(5, 0)] is a quarter turn and
    [atan2(P.imag, P.real) / (2 pi)] is 1/4, which is what the discriminator
    of the specification returns; [carr_error_hz] is that value divided by
    [2 pi] once more. *)
Lemma C7_counterexample :
  steady (general_work Nominal.config Nominal.initializing Nominal.quadrature)
    (fun _ _ v =>
       @pll_cloop_two_quadrant_atan Nominal.externals (Cplx 0 5) == 1 # 4
       /\ @atan2 Nominal.externals 5 0 / @GPS_TWO_PI Nominal.externals == 1 # 4
       /\ ~ carr_error_hz v
            == @atan2 Nominal.externals 5 0 / @GPS_TWO_PI Nominal.externals).
Proof.
  vm_compute. repeat split; discriminate.
Qed.




(** In CADLL mode the amplitude loops fail exactly on the zero divisor. *)
Lemma amplitude_loops_division `{Externals} (st : state) (prompt : gr_complex)
    (power : Q) :
  CADLL_init st = false ->
  (real prompt + real (d_Prompt_m st) == 0 ->
   amplitude_loops st prompt power = Err DivisionByZero)
  /\ (~ real prompt + real (d_Prompt_m st) == 0 ->
      exists amplitude, amplitude_loops st prompt power = Ok amplitude).
Proof.
  intro Hi. split.
  - intro Ht. unfold amplitude_loops. rewrite Hi.
    rewrite (fdiv_Err _ _ Ht). reflexivity.
  - intro Ht. apply amplitude_loops_Ok. auto.
Qed.

(** C10.  In CADLL mode the amplitude step divides the input power by
    [t = Prompt.real + Prompt_m.real] without a guard: on a steady-state
    step whose other divisors (sample rate, new code frequency) are not
    zero, [general_work] returns exactly when [t] is not zero and stops
    with [DivisionByZero] when it is; any pair of correlators with
    [Prompt.real = - Prompt_m.real] makes it stop. *)
Theorem C10_amplitude_step_divides_by_t `{Externals} (cfg : config) (st : state)
    (inp : work_input) (prompt : gr_complex) (r r_m : replicas) :
  d_enable_tracking st = true -> d_pull_in st = false ->
  Prompt inp = Finite prompt ->
  update_local_code cfg st = Ok r -> update_local_code_m cfg st = Ok r_m ->
  d_fs_in cfg <> 0%Z ->
  ~ pll_code_freq_chips (carrier_pll st prompt) == 0 ->
  CADLL_init st = false ->
  (real prompt + real (Prompt_m inp) == 0 ->
   general_work cfg st inp = Err DivisionByZero)
  /\ (~ real prompt + real (Prompt_m inp) == 0 ->
      exists st' o, general_work cfg st inp = Ok (st', o))
  /\ (real prompt == - real (Prompt_m inp) ->
      general_work cfg st inp = Err DivisionByZero).
Proof.
  intros Hen Hpull HP Er Erm Hfs Hcf Hi.
  assert (real prompt + real (Prompt_m inp) == 0 ->
          general_work cfg st inp = Err DivisionByZero) as Hzero.
  { intro Ht.
    destruct (correlate_keeps st inp) as (Hinit & _).
    destruct (correlate_outputs st inp) as (_ & HP' & _ & Hm).
    destruct (Hm Hi) as (_ & HPm & _).
    unfold general_work. rewrite Hen, Hpull, Er, bind_Ok, Erm, bind_Ok.
    cbv zeta. rewrite HP', HP. unfold steady_state.
    rewrite carrier_pll_correlate, (fdiv_Ok 1 _ Hcf), bind_Ok.
    destruct (amplitude_loops_division (correlate st inp) prompt
                (input_power (correlate st inp) inp)) as [Herr _];
      [congruence|].
    rewrite Herr; [reflexivity|]. rewrite HPm. exact Ht. }
  split; [exact Hzero|]. split.
  - intro Ht.
    destruct (general_work_steady_state cfg st inp prompt r r_m
                Hen Hpull HP Er Erm Hfs Hcf (fun _ => Ht)) as (amp & seg & _ & E).
    rewrite E. destruct (steady_update _ _ _ _ _ _ _ _) as [st' o]. eauto.
  - intro Ht. apply Hzero. rewrite Ht. ring.
Qed.

Lemma C10_amplitude_step_divides_by_t_witness :
  (d_enable_tracking Nominal.cadll = true
   /\ d_pull_in Nominal.cadll = false
   /\ d_fs_in Nominal.config <> 0%Z
   /\ CADLL_init Nominal.cadll = false
   /\ real (Cplx 5 0) == - real (Prompt_m Nominal.cancelling))
  /\ general_work Nominal.config Nominal.cadll Nominal.cancelling
     = Err DivisionByZero.
Proof.
  destruct (nominal_replicas Nominal.cadll (or_introl eq_refl))
    as [[r Er] [r_m Erm]].
  assert (d_fs_in Nominal.config <> 0%Z) as Hfs by (simpl; lia).
  assert (real (Cplx 5 0) == - real (Prompt_m Nominal.cancelling)) as Ht
    by reflexivity.
  split; [repeat split; assumption|].
  destruct (C10_amplitude_step_divides_by_t Nominal.config Nominal.cadll
              Nominal.cancelling (Cplx 5 0) r r_m eq_refl eq_refl eq_refl
              Er Erm Hfs) as (_ & _ & Hcancel).
  - vm_compute. discriminate.
  - reflexivity.
  - exact (Hcancel Ht).
Defined.

(** ** Loss of lock *)


(** One evaluation: the trip is the counter passing the limit. *)
Lemma loss_of_lock_spec (cfg : config) (failed : bool) (fail_counter : Z)
    (queue : list (Z * Z)) (enable : bool) :
  ((MAXIMUM_LOCK_FAIL_COUNTER < next_fail_counter failed fail_counter)%Z ->
   loss_of_lock cfg failed fail_counter queue enable
   = (0%Z,
      if d_queue_attached cfg then queue ++ [(d_channel cfg, 2%Z)] else queue,
      false))
  /\ ((next_fail_counter failed fail_counter <= MAXIMUM_LOCK_FAIL_COUNTER)%Z ->
      loss_of_lock cfg failed fail_counter queue enable
      = (next_fail_counter failed fail_counter, queue, enable)).
Proof.
  unfold loss_of_lock. cbv zeta.
  destruct (Z.ltb_spec MAXIMUM_LOCK_FAIL_COUNTER
              (next_fail_counter failed fail_counter));
    split; intro; try reflexivity; lia.
Qed.




(** What the lock detector block does to the fail counter, the queue and
    [d_enable_tracking] of an enabled block. *)
Lemma cn0_and_lock_detectors_spec `{Externals} (cfg : config) (st : state)
    (prompt : gr_complex) :
  d_enable_tracking st = true ->
  let lock := cn0_and_lock_detectors cfg st prompt in
  ((d_cn0_estimation_counter st < CN0_ESTIMATION_SAMPLES)%Z ->
   carrier_lock_fail_counter lock = d_carrier_lock_fail_counter st
   /\ queue lock = d_queue st
   /\ enable_tracking lock = true)
  /\ ((CN0_ESTIMATION_SAMPLES <= d_cn0_estimation_counter st)%Z ->
      let failed :=
        lock_failed (carrier_lock_detector (d_Prompt_buffer st) CN0_ESTIMATION_SAMPLES)
          (cn0_svn_estimator (d_Prompt_buffer st) CN0_ESTIMATION_SAMPLES
             (d_fs_in cfg) GPS_L1_CA_CODE_LENGTH_CHIPS) in
      let counter := next_fail_counter failed (d_carrier_lock_fail_counter st) in
      ((MAXIMUM_LOCK_FAIL_COUNTER < counter)%Z ->
       carrier_lock_fail_counter lock = 0%Z
       /\ enable_tracking lock = false
       /\ queue lock
          = if d_queue_attached cfg
            then d_queue st ++ [(d_channel cfg, 2%Z)]
            else d_queue st)
      /\ ((counter <= MAXIMUM_LOCK_FAIL_COUNTER)%Z ->
          carrier_lock_fail_counter lock = counter
          /\ enable_tracking lock = true
          /\ queue lock = d_queue st)).
Proof.
  intros Hen. cbv zeta. unfold cn0_and_lock_detectors. split.
  - intro Hlt. apply Z.ltb_lt in Hlt. rewrite Hlt. simpl. auto.
  - intro Hge. apply Z.ltb_ge in Hge. rewrite Hge.
    cbn [carrier_lock_fail_counter queue enable_tracking].
    set (failed := lock_failed _ _).
    destruct (loss_of_lock_spec cfg failed (d_carrier_lock_fail_counter st)
                (d_queue st) (d_enable_tracking st)) as [Htrip Hkeep].
    split.
    + intro Hc. rewrite (Htrip Hc). simpl. auto.
    + intro Hc. rewrite (Hkeep Hc). simpl. auto.
Qed.


Lemma cn0_and_lock_detectors_correlate `{Externals} (cfg : config) (st : state)
    (inp : work_input) (prompt : gr_complex) :
  cn0_and_lock_detectors cfg (correlate st inp) prompt
  = cn0_and_lock_detectors cfg st prompt.
Proof. unfold correlate. destruct (CADLL_init st); reflexivity. Qed.




End TrackingFacts.

(** * Invariants, lifecycle and successive calls *)

(** A loop whose body keeps an invariant whenever it returns ends, when it
    returns, in a state that satisfies the invariant. *)
Lemma for_loop_preserves {S : Type} (I : nat -> S -> Prop)
    (body : nat -> S -> res S) (n : nat) :
  forall (start : nat) (s s' : S),
    I start s ->
    (forall i s s', (start <= i < start + n)%nat -> I i s -> body i s = Ok s' ->
                    I (Datatypes.S i) s') ->
    for_loop n start body s = Ok s' -> I (start + n)%nat s'.
Proof.
  induction n as [|n IH]; intros start s s' Hs Hbody E; simpl in E.
  - injection E as <-. now rewrite Nat.add_0_r.
  - apply bind_inv in E as (s1 & E1 & E).
    replace (start + Datatypes.S n)%nat with (Datatypes.S start + n)%nat by lia.
    apply (IH (Datatypes.S start) s1 s'); [|intros i t t' Hi; apply Hbody; lia|exact E].
    apply (Hbody start s s1); [lia | assumption | assumption].
Qed.



Lemma fdiv_inv (x y q : Q) : fdiv x y = Ok q -> ~ y == 0 /\ q = x / y.
Proof.
  unfold fdiv. destruct (Qeq_bool y 0) eqn:E; [discriminate|].
  intro H. injection H as <-. split; [|reflexivity].
  intro Hy. apply Qeq_bool_iff in Hy. congruence.
Qed.

Lemma imod_inv (x y r : Z) : imod x y = Ok r -> y <> 0%Z /\ r = (x mod y)%Z.
Proof.
  unfold imod. destruct (Z.eqb_spec y 0); [discriminate|].
  intro H. injection H as <-. auto.
Qed.

Lemma idiv_inv (x y q : Z) : idiv x y = Ok q -> y <> 0%Z /\ q = (x / y)%Z.
Proof.
  unfold idiv. destruct (Z.eqb_spec y 0); [discriminate|].
  intro H. injection H as <-. auto.
Qed.

Lemma fmod_checked_inv (x y r : Q) :
  fmod_checked x y = Ok r -> ~ y == 0 /\ r = fmod x y.
Proof.
  unfold fmod_checked. destruct (Qeq_bool y 0) eqn:E; [discriminate|].
  intro H. injection H as <-. split; [|reflexivity].
  intro Hy. apply Qeq_bool_iff in Hy. congruence.
Qed.

(** ** Acquisition: [init], the state machine and the dwell *)

Module AcquisitionInvariants.
Import Acquisition.

Lemma to_int_id (z : Z) : (- 2 ^ 31 <= z < 2 ^ 31)%Z -> to_int z = z.
Proof. intro Hz. unfold to_int. rewrite Z.mod_small; lia. Qed.

(** The bins the counting loop still adds from [doppler] on. *)
Lemma count_doppler_bins_spec (cfg : config) :
  (0 <= d_doppler_max cfg)%Z -> (0 < d_doppler_step cfg)%Z ->
  (d_doppler_max cfg + d_doppler_step cfg < 2 ^ 31)%Z ->
  forall (fuel : nat) (doppler : Z) (bins : nat),
    (- d_doppler_max cfg <= doppler <= d_doppler_max cfg + d_doppler_step cfg)%Z ->
    (Z.to_nat ((d_doppler_max cfg + d_doppler_step cfg - doppler) / d_doppler_step cfg)
     < fuel)%nat ->
    count_doppler_bins fuel cfg doppler bins
    = Some (bins + Z.to_nat ((d_doppler_max cfg + d_doppler_step cfg - doppler)
                             / d_doppler_step cfg))%nat.
Proof.
  intros Hmax Hstep Hint.
  set (m := d_doppler_max cfg) in *. set (s := d_doppler_step cfg) in *.
  induction fuel as [|fuel IH]; intros doppler bins Hd Hfuel; [lia|].
  simpl. fold m s. rewrite (to_int_id m) by lia.
  destruct (Z.leb_spec doppler m) as [Hle|Hgt].
  - rewrite (to_int_id (doppler + s)) by lia.
    assert ((m + s - doppler) / s = (m + s - (doppler + s)) / s + 1)%Z as Ediv.
    { replace (m + s - doppler)%Z with ((m + s - (doppler + s)) + 1 * s)%Z by lia.
      rewrite Z.div_add by lia. reflexivity. }
    assert (0 <= (m + s - (doppler + s)) / s)%Z by (apply Z.div_pos; lia).
    rewrite IH by lia. f_equal. lia.
  - rewrite Z.div_small by lia. f_equal. simpl. lia.
Qed.

(** X1.  [init] with a positive Doppler step (and no overflow of [int])
    leaves the counting loop after [2 * doppler_max / doppler_step + 1]
    bins.  The frequencies [-doppler_max + doppler_step * k] the search
    loop visits for these bins all lie within [-doppler_max, doppler_max],
    and the next frequency of the grid is beyond [doppler_max]: the grid is
    covered exactly.  [init] also clears the estimate and the
    magnitudes. *)
Theorem X1_init_doppler_grid (cfg : config) (st : state) (fuel : nat) :
  (0 <= d_doppler_max cfg)%Z -> (0 < d_doppler_step cfg)%Z ->
  (d_doppler_max cfg + d_doppler_step cfg < 2 ^ 31)%Z ->
  (Z.to_nat (2 * d_doppler_max cfg / d_doppler_step cfg + 1) < fuel)%nat ->
  exists cfg' st',
    init fuel cfg st = Some (cfg', st')
    /\ Z.of_nat (d_num_doppler_bins cfg')
       = (2 * d_doppler_max cfg / d_doppler_step cfg + 1)%Z
    /\ d_doppler_max cfg' = d_doppler_max cfg
    /\ d_doppler_step cfg' = d_doppler_step cfg
    /\ (forall k, (k < d_num_doppler_bins cfg')%nat ->
          (- d_doppler_max cfg
           <= - d_doppler_max cfg + d_doppler_step cfg * Z.of_nat k
           <= d_doppler_max cfg)%Z)
    /\ (d_doppler_max cfg
        < - d_doppler_max cfg
          + d_doppler_step cfg * Z.of_nat (d_num_doppler_bins cfg'))%Z
    /\ d_mag st' = 0 /\ d_mag_2nd_highest st' = 0 /\ d_input_power st' = 0
    /\ Acq_delay_samples (d_gnss_synchro st') = 0
    /\ Acq_doppler_hz (d_gnss_synchro st') = 0
    /\ Acq_samplestamp_samples (d_gnss_synchro st') = 0%Z
    /\ d_state st' = d_state st /\ d_active st' = d_active st.
Proof.
  intros Hmax Hstep Hint Hfuel.
  set (m := d_doppler_max cfg) in *. set (s := d_doppler_step cfg) in *.
  assert ((m + s - - m) / s = 2 * m / s + 1)%Z as Ediv.
  { replace (m + s - - m)%Z with (2 * m + 1 * s)%Z by lia.
    rewrite Z.div_add by lia. reflexivity. }
  assert (0 <= 2 * m / s)%Z as Hq by (apply Z.div_pos; lia).
  unfold init. fold m. rewrite (to_int_id (- m)) by lia.
  rewrite (count_doppler_bins_spec cfg Hmax Hstep Hint fuel (- m) 0);
    fold m s; [|lia|rewrite Ediv; lia].
  rewrite Ediv. simpl.
  eexists _, _. split; [reflexivity|]. simpl.
  pose proof (Z.mul_div_le (2 * m) s Hstep) as Hlo.
  pose proof (Z.mul_succ_div_gt (2 * m) s Hstep) as Hhi.
  repeat split; try reflexivity; try lia; nia.
Qed.

Lemma X1_init_doppler_grid_witness :
  exists cfg' st',
    init 100 (Capture.config 1 false) Capture.dwelling = Some (cfg', st')
    /\ d_num_doppler_bins cfg' = 1%nat.
Proof.
  assert (0 <= d_doppler_max (Capture.config 1 false))%Z as H1 by (simpl; lia).
  assert (0 < d_doppler_step (Capture.config 1 false))%Z as H2 by (simpl; lia).
  assert (d_doppler_max (Capture.config 1 false)
          + d_doppler_step (Capture.config 1 false) < 2 ^ 31)%Z as H3
    by (simpl; lia).
  assert (Z.to_nat (2 * d_doppler_max (Capture.config 1 false)
                    / d_doppler_step (Capture.config 1 false) + 1) < 100)%nat as H4
    by (vm_compute; lia).
  destruct (X1_init_doppler_grid (Capture.config 1 false) Capture.dwelling 100
              H1 H2 H3 H4) as (cfg' & st' & E & Hn & _).
  exists cfg', st'. split; [exact E|]. apply Nat2Z.inj. rewrite Hn. reflexivity.
Defined.

Lemma count_doppler_bins_zero_step (cfg : config) :
  (0 <= d_doppler_max cfg < 2 ^ 31)%Z -> d_doppler_step cfg = 0%Z ->
  forall (fuel : nat) (bins : nat),
    count_doppler_bins fuel cfg (- d_doppler_max cfg) bins = None.
Proof.
  intros Hmax Hstep. induction fuel as [|fuel IH]; intro bins; [reflexivity|].
  simpl. rewrite Hstep, Z.add_0_r.
  rewrite (to_int_id (d_doppler_max cfg)), (to_int_id (- d_doppler_max cfg)) by lia.
  destruct (Z.leb_spec (- d_doppler_max cfg) (d_doppler_max cfg)); [apply IH | lia].
Qed.

(** X2.  With a Doppler step of zero the counting loop of [init] never
    leaves: [doppler] stays at [-doppler_max], which is not above
    [doppler_max], so no number of iterations ends the loop and [init] does
    not return. *)
Theorem X2_init_zero_step_never_returns (cfg : config) (st : state) (fuel : nat) :
  (0 <= d_doppler_max cfg < 2 ^ 31)%Z -> d_doppler_step cfg = 0%Z ->
  init fuel cfg st = None.
Proof.
  intros Hmax Hstep. unfold init.
  rewrite (to_int_id (- d_doppler_max cfg)) by lia.
  now rewrite count_doppler_bins_zero_step.
Qed.

Lemma X2_init_zero_step_never_returns_witness :
  init 1000
    {| d_fft_size := 4; d_samples_per_code := 4; d_max_dwells := 2;
       d_doppler_max := 5000; d_doppler_step := 0; d_num_doppler_bins := 0;
       d_threshold := 2; d_bit_transition_flag := false; d_peak := 1 |}
    Capture.dwelling = None.
Proof.
  apply X2_init_zero_step_never_returns; simpl; [lia | reflexivity].
Defined.

(** ** One call of [general_work], case by case *)

(** A code phase of the block either leaves [peaks] as it is or enters it
    under its normalized magnitude. *)
Lemma collect_peak_inv (cfg : config) (st : state) (d_magnitude : nat -> Q)
    (threshold_spoofing : Q) (doppler : Z) (i : nat) (peaks peaks' : peak_map) :
  collect_peak cfg st d_magnitude threshold_spoofing doppler i peaks = Ok peaks' ->
  peaks' = peaks
  \/ (threshold_spoofing < d_magnitude i
      /\ ~ normalization cfg == 0
      /\ d_samples_per_code cfg <> 0%Z
      /\ peaks' = peaks_insert (d_magnitude i / normalization cfg)
                    (mkPeak (Z.of_nat i mod d_samples_per_code cfg) doppler
                       (d_sample_counter st)) peaks).
Proof.
  unfold collect_peak. fold (normalization cfg).
  destruct (Qltb threshold_spoofing (d_magnitude i)) eqn:E.
  - apply Qltb_true in E. intro H.
    apply bind_inv in H as (tmp & Htmp & H). apply fdiv_inv in Htmp as [Hn ->].
    apply bind_inv in H as (phase & Hphase & H). apply imod_inv in Hphase as [Hs ->].
    injection H as <-. right. auto.
  - intro H. injection H as <-. now left.
Qed.

(** A Doppler bin runs the collection loop and then leaves the state as it
    is, or records a new maximum, with or without a new estimate. *)
Lemma doppler_bin_inv (cfg : config) (inp : work_input) (threshold_spoofing : Q)
    (k : nat) (st st' : state) (peaks peaks' : peak_map) :
  doppler_bin cfg inp threshold_spoofing k (st, peaks) = Ok (st', peaks') ->
  let doppler := (- d_doppler_max cfg + d_doppler_step cfg * Z.of_nat k)%Z in
  let indext := volk_32f_index_max (magnitude_grid inp k) (Z.to_nat (d_fft_size cfg)) in
  let magt := bin_maximum cfg inp k / normalization cfg in
  for_loop (Z.to_nat (d_fft_size cfg)) 0
    (collect_peak cfg st (magnitude_grid inp k) threshold_spoofing doppler) peaks
  = Ok peaks'
  /\ ~ normalization cfg == 0
  /\ ((magt <= d_mag st /\ st' = st)
      \/ (d_mag st < magt
          /\ ~ d_input_power st == 0
          /\ ((Qltb (d_test_statistics st) (magt / d_input_power st)
               || negb (d_bit_transition_flag cfg) = false
               /\ st' = set_mag st magt (d_mag st))
              \/ (Qltb (d_test_statistics st) (magt / d_input_power st)
                  || negb (d_bit_transition_flag cfg) = true
                  /\ d_samples_per_code cfg <> 0%Z
                  /\ st' = set_estimate (set_mag st magt (d_mag st))
                             (inject_Z (Z.of_nat indext mod d_samples_per_code cfg))
                             (inject_Z doppler) (d_sample_counter st)
                             (magt / d_input_power st))))).
Proof.
  unfold doppler_bin. fold (bin_maximum cfg inp k). fold (normalization cfg).
  intro H. cbv zeta.
  apply bind_inv in H as (magt & Hmagt & H). apply fdiv_inv in Hmagt as [Hn ->].
  apply bind_inv in H as (peaks1 & Hloop & H).
  destruct (Qltb (d_mag st) (bin_maximum cfg inp k / normalization cfg)) eqn:E.
  - apply Qltb_true in E.
    apply bind_inv in H as (stat & Hstat & H). simpl in Hstat.
    apply fdiv_inv in Hstat as [Hp ->]. simpl in H.
    destruct (Qltb (d_test_statistics st)
                (bin_maximum cfg inp k / normalization cfg / d_input_power st)
              || negb (d_bit_transition_flag cfg)) eqn:Eupd.
    + apply bind_inv in H as (phase & Hphase & H).
      apply imod_inv in Hphase as [Hs ->]. injection H as <- <-.
      split; [assumption|]. split; [assumption|]. right.
      split; [assumption|]. split; [assumption|]. right. auto.
    + injection H as <- <-.
      split; [assumption|]. split; [assumption|]. right.
      split; [assumption|]. split; [assumption|]. left. auto.
  - apply Qltb_false in E. injection H as <- <-.
    split; [assumption|]. split; [assumption|]. left. auto.
Qed.

(** The members a Doppler bin does not write. *)
Lemma doppler_bin_frame (cfg : config) (inp : work_input) (threshold_spoofing : Q)
    (k : nat) (st st' : state) (peaks peaks' : peak_map) :
  doppler_bin cfg inp threshold_spoofing k (st, peaks) = Ok (st', peaks') ->
  d_sample_counter st' = d_sample_counter st
  /\ d_active st' = d_active st
  /\ d_state st' = d_state st
  /\ d_well_count st' = d_well_count st
  /\ d_input_power st' = d_input_power st
  /\ d_channel_internal_queue st' = d_channel_internal_queue st
  /\ PRN (d_gnss_synchro st') = PRN (d_gnss_synchro st).
Proof.
  intro H. apply doppler_bin_inv in H as (_ & _ & H). cbv zeta in H.
  destruct H as [[_ ->]|(_ & _ & [[_ ->]|(_ & _ & ->)])]; repeat split.
Qed.

Lemma search_inv (cfg : config) (st st1 : state) (inp : work_input) (peaks : peak_map) :
  search cfg st inp = Ok (st1, peaks) ->
  let st0 :=
    {| d_sample_counter := wrap64 (d_sample_counter st + d_fft_size cfg);
       d_active := d_active st;
       d_state := d_state st;
       d_well_count := wrap32 (d_well_count st + 1);
       d_mag := 0;
       d_mag_2nd_highest := 0;
       d_input_power :=
         accumulate_power (in_samples inp) (Z.to_nat (d_fft_size cfg))
         / inject_Z (d_fft_size cfg);
       d_test_statistics := d_test_statistics st;
       d_gnss_synchro := d_gnss_synchro st;
       d_channel_internal_queue := d_channel_internal_queue st |} in
  d_fft_size cfg <> 0%Z
  /\ for_loop (d_num_doppler_bins cfg) 0
       (doppler_bin cfg inp
          (d_threshold cfg * d_input_power st0 * normalization cfg))
       (st0, []) = Ok (st1, peaks).
Proof.
  unfold search. intro H. cbv zeta.
  apply bind_inv in H as (power & Hpower & H).
  apply fdiv_inv in Hpower as [HN ->].
  split; [|exact H].
  intro E. apply HN. now rewrite E.
Qed.

(** The members the search loop does not write, and the three it writes
    before it starts. *)
Lemma search_frame (cfg : config) (st st1 : state) (inp : work_input) (peaks : peak_map) :
  search cfg st inp = Ok (st1, peaks) ->
  d_sample_counter st1 = wrap64 (d_sample_counter st + d_fft_size cfg)
  /\ d_active st1 = d_active st
  /\ d_state st1 = d_state st
  /\ d_well_count st1 = wrap32 (d_well_count st + 1)
  /\ d_input_power st1
     = accumulate_power (in_samples inp) (Z.to_nat (d_fft_size cfg))
       / inject_Z (d_fft_size cfg)
  /\ d_channel_internal_queue st1 = d_channel_internal_queue st
  /\ PRN (d_gnss_synchro st1) = PRN (d_gnss_synchro st).
Proof.
  intro H. apply search_inv in H as [_ H]. cbv zeta in H.
  set (st0 := mkState _ _ _ _ _ _ _ _ _ _) in H.
  apply (for_loop_preserves
           (fun _ (s : state * peak_map) =>
              d_sample_counter (fst s) = d_sample_counter st0
              /\ d_active (fst s) = d_active st0
              /\ d_state (fst s) = d_state st0
              /\ d_well_count (fst s) = d_well_count st0
              /\ d_input_power (fst s) = d_input_power st0
              /\ d_channel_internal_queue (fst s) = d_channel_internal_queue st0
              /\ PRN (d_gnss_synchro (fst s)) = PRN (d_gnss_synchro st0))) in H.
  - exact H.
  - simpl. repeat split.
  - intros i [s p] [s' p'] _ Hs E. simpl in *.
    apply doppler_bin_frame in E.
    destruct Hs as (<- & <- & <- & <- & <- & <- & <-). exact E.
Qed.

Lemma auxiliary_peak_inv (cfg : config) (st st2 : state) (peaks : peak_map)
    (found : bool) :
  auxiliary_peak cfg st peaks = Ok (st2, found) ->
  (found = false /\ st2 = st)
  \/ (found = true /\ (1 < d_peak cfg)%Z /\ ~ d_input_power st == 0
      /\ exists magnitude values,
          select_peak cfg (reverse peaks) 0 ∅ = Some (magnitude, values)
          /\ st2 = set_estimate st (inject_Z (code_phase values))
                     (inject_Z (doppler values)) (sample_counter values)
                     (magnitude / d_input_power st)).
Proof.
  unfold auxiliary_peak. destruct (Z.ltb_spec 1 (d_peak cfg)) as [Hp|Hp].
  - destruct (select_peak cfg (reverse peaks) 0 ∅) as [[magnitude values]|] eqn:E.
    + intro H. apply bind_inv in H as (stat & Hstat & H).
      apply fdiv_inv in Hstat as [Hpow ->]. injection H as <- <-.
      right. repeat split; try assumption. eauto.
    + intro H. injection H as <- <-. now left.
  - intro H. injection H as <- <-. now left.
Qed.

Lemma auxiliary_peak_frame (cfg : config) (st st2 : state) (peaks : peak_map)
    (found : bool) :
  auxiliary_peak cfg st peaks = Ok (st2, found) ->
  d_sample_counter st2 = d_sample_counter st
  /\ d_active st2 = d_active st
  /\ d_state st2 = d_state st
  /\ d_well_count st2 = d_well_count st
  /\ d_mag st2 = d_mag st
  /\ d_input_power st2 = d_input_power st
  /\ d_channel_internal_queue st2 = d_channel_internal_queue st
  /\ PRN (d_gnss_synchro st2) = PRN (d_gnss_synchro st).
Proof.
  intro H. apply auxiliary_peak_inv in H
    as [[_ ->]|(_ & _ & _ & magnitude & values & _ & ->)]; repeat split.
Qed.

(** [case 1] taken apart. *)
Lemma dwell_inv (cfg : config) (st st' : state) (inp : work_input) (n : Z) :
  d_state st = 1%Z -> general_work cfg st inp = Ok (st', n) ->
  n = 1%Z
  /\ exists st1 peaks st2 found,
      search cfg st inp = Ok (st1, peaks)
      /\ auxiliary_peak cfg st1 peaks = Ok (st2, found)
      /\ st' = set_state st2 (decide_state cfg st2 found).
Proof.
  intros Hst H. unfold general_work in H. rewrite Hst in H. simpl in H.
  apply bind_inv in H as (st'' & Hd & H). injection H as <- <-.
  split; [reflexivity|]. unfold dwell in Hd.
  apply bind_inv in Hd as ([st1 peaks] & E1 & Hd).
  apply bind_inv in Hd as ([st2 found] & E2 & Hd). injection Hd as <-.
  exists st1, peaks, st2, found. auto.
Qed.

(** X3.  The messages of the acquisition engine.  A call that returns
    pushes exactly one message, 1 (ACQ_SUCCESS), when it starts in state 2
    and exactly one message, 2 (ACQ_FAIL), when it starts in state 3; in
    both cases it goes back to state 0 and clears [d_active].  A call that
    starts in any other state (idle, or a whole dwell with its Doppler
    search and auxiliary-peak resolution) pushes nothing and leaves
    [d_active] as it is. *)
Theorem X3_acquisition_messages (cfg : config) (st st' : state)
    (inp : work_input) (n : Z) :
  general_work cfg st inp = Ok (st', n) ->
  (d_state st = 2%Z ->
   d_channel_internal_queue st' = d_channel_internal_queue st ++ [1%Z]
   /\ d_state st' = 0%Z /\ d_active st' = false)
  /\ (d_state st = 3%Z ->
      d_channel_internal_queue st' = d_channel_internal_queue st ++ [2%Z]
      /\ d_state st' = 0%Z /\ d_active st' = false)
  /\ (d_state st <> 2%Z -> d_state st <> 3%Z ->
      d_channel_internal_queue st' = d_channel_internal_queue st
      /\ d_active st' = d_active st).
Proof.
  intro H.
  destruct (Z.eq_dec (d_state st) 1%Z) as [E1|N1].
  { destruct (dwell_inv cfg st st' inp n E1 H)
      as (_ & st1 & peaks & st2 & found & Hs & Ha & ->).
    apply search_frame in Hs as (_ & Hact & _ & _ & _ & Hq & _).
    apply auxiliary_peak_frame in Ha as (_ & Hact2 & _ & _ & _ & _ & Hq2 & _).
    repeat split; intros; try congruence; simpl; congruence. }
  unfold general_work in H.
  destruct (Z.eqb_spec (d_state st) 0%Z) as [E0|N0].
  { injection H as <- <-. unfold idle.
    repeat split; intros; try congruence; destruct (d_active st) eqn:Ea; simpl; congruence. }
  destruct (Z.eqb_spec (d_state st) 1%Z) as [E1|_]; [contradiction|].
  destruct (Z.eqb_spec (d_state st) 2%Z) as [E2|N2].
  { injection H as <- <-. repeat split; intros; try congruence; reflexivity. }
  destruct (Z.eqb_spec (d_state st) 3%Z) as [E3|N3].
  { injection H as <- <-. repeat split; intros; try congruence; reflexivity. }
  injection H as <- <-. repeat split; intros; congruence.
Qed.

Lemma X3_acquisition_messages_witness :
  exists st' n,
    general_work (Capture.config 1 false) (set_state Capture.dwelling 2%Z)
      Capture.single_peak = Ok (st', n)
    /\ d_channel_internal_queue st' = [1%Z].
Proof.
  eexists _, _. split; [reflexivity|].
  apply (X3_acquisition_messages (Capture.config 1 false)
           (set_state Capture.dwelling 2%Z) _ Capture.single_peak _ eq_refl).
  reflexivity.
Defined.

(** X4.  The sample counter follows the stream.  The input items are
    blocks of [d_fft_size] samples: a dwell consumes one item, the other
    three states consume all the items available, and in each of the four
    states [d_sample_counter] advances by [d_fft_size] times the number of
    items consumed (the product formed in 32 bits, the sum in 64).  In any
    other state the call consumes nothing and changes nothing. *)
Theorem X4_acquisition_sample_counter (cfg : config) (st st' : state)
    (inp : work_input) (n : Z) :
  (0 <= d_fft_size cfg < 2 ^ 32)%Z ->
  general_work cfg st inp = Ok (st', n) ->
  ((0 <= d_state st <= 3)%Z ->
   d_sample_counter st'
   = wrap64 (d_sample_counter st + wrap32 (d_fft_size cfg * n)))
  /\ (d_state st = 1%Z -> n = 1%Z)
  /\ (d_state st = 0%Z \/ d_state st = 2%Z \/ d_state st = 3%Z ->
      n = ninput_items inp)
  /\ (~ (0 <= d_state st <= 3)%Z -> st' = st /\ n = 0%Z).
Proof.
  intros HN H.
  destruct (Z.eq_dec (d_state st) 1%Z) as [E1|N1].
  { destruct (dwell_inv cfg st st' inp n E1 H)
      as (-> & st1 & peaks & st2 & found & Hs & Ha & ->).
    apply search_frame in Hs as (Hsc & _).
    apply auxiliary_peak_frame in Ha as (Hsc2 & _).
    repeat split; try lia. intros _. simpl. rewrite Hsc2, Hsc.
    unfold wrap32. rewrite Z.mul_1_r, Z.mod_small by lia. reflexivity. }
  unfold general_work in H.
  destruct (Z.eqb_spec (d_state st) 0%Z) as [E0|N0].
  { injection H as <- <-. unfold idle.
    repeat split; try lia. intros _. destruct (d_active st); reflexivity. }
  destruct (Z.eqb_spec (d_state st) 1%Z) as [E1|_]; [contradiction|].
  destruct (Z.eqb_spec (d_state st) 2%Z) as [E2|N2].
  { injection H as <- <-. repeat split; try lia. }
  destruct (Z.eqb_spec (d_state st) 3%Z) as [E3|N3].
  { injection H as <- <-. repeat split; try lia. }
  injection H as <- <-. repeat split; lia.
Qed.

Lemma X4_acquisition_sample_counter_witness :
  exists st' n,
    general_work (Capture.config 1 false) Capture.dwelling Capture.single_peak
    = Ok (st', n)
    /\ n = 1%Z /\ d_sample_counter st' = 4%Z.
Proof.
  assert (0 <= d_fft_size (Capture.config 1 false) < 2 ^ 32)%Z as HN
    by (simpl; lia).
  assert (holds (general_work (Capture.config 1 false) Capture.dwelling
                   Capture.single_peak) (fun _ => True)) as Hr
    by (vm_compute; exact I).
  apply holds_Ok in Hr as ([st' n] & E & _).
  destruct (X4_acquisition_sample_counter _ _ _ _ _ HN E) as (Hsc & Hn & _).
  exists st', n. split; [exact E|].
  assert (n = 1%Z) as -> by (apply Hn; reflexivity).
  split; [reflexivity|]. rewrite Hsc by (simpl; lia). reflexivity.
Defined.

(** ** The map of peaks *)

Lemma peaks_insert_Forall (P : Q * peak_values -> Prop) (k : Q) (v : peak_values)
    (m : peak_map) :
  (forall k', k' == k -> P (k', v)) ->
  Forall P m -> Forall P (peaks_insert k v m).
Proof.
  intros Hk. induction 1 as [|[k' v'] m' Hhd Htl IH]; simpl.
  - constructor; [apply Hk; reflexivity | constructor].
  - destruct (Qltb k k') eqn:E1.
    + constructor; [apply Hk; reflexivity|]. now constructor.
    + destruct (Qltb k' k) eqn:E2.
      * now constructor.
      * apply Qltb_false in E1, E2. constructor; [|assumption].
        apply Hk. now apply Qle_antisym.
Qed.

(** [peaks] keeps its keys in strictly ascending order. *)
Lemma peaks_insert_sorted (k : Q) (v : peak_values) (m : peak_map) :
  StronglySorted (fun a b => fst a < fst b) m ->
  StronglySorted (fun a b => fst a < fst b) (peaks_insert k v m).
Proof.
  induction 1 as [|[k' v'] m' Hs IH Hall]; simpl.
  - repeat constructor.
  - destruct (Qltb k k') eqn:E1.
    + apply Qltb_true in E1. constructor.
      * now constructor.
      * constructor; [exact E1|].
        eapply Forall_impl; [exact Hall|]. intros [k2 v2]. simpl. lra.
    + destruct (Qltb k' k) eqn:E2.
      * apply Qltb_true in E2. constructor; [exact IH|].
        apply peaks_insert_Forall; [|exact Hall].
        intros k2 Hk2. simpl. lra.
      * constructor; assumption.
Qed.

(** In a list in ascending order every entry before the last is below the
    last: the reverse iteration starts at the largest key. *)
Lemma reverse_sorted_head (m : peak_map) (h e : Q * peak_values)
    (rest : list (Q * peak_values)) :
  StronglySorted (fun a b => fst a < fst b) m ->
  reverse m = h :: rest -> e ∈ rest -> fst e < fst h.
Proof.
  intros Hs Hr He.
  assert (m = reverse rest ++ [h]) as ->.
  { rewrite <- (reverse_involutive m), Hr. now rewrite reverse_cons. }
  apply (StronglySorted_app_1_elem_of _ _ _ _ _ Hs);
    [now apply elem_of_reverse | now apply list_elem_of_singleton].
Qed.

(** The peak [select_peak] returns is an entry of the list; it is not the
    first entry while entries are still being set aside as higher peaks. *)
Lemma select_peak_elem_of (cfg : config) (rits : list (Q * peak_values)) :
  forall (i : Z) (higher_peaks : gset (Z * Z)) (e : Q * peak_values),
    select_peak cfg rits i higher_peaks = Some e ->
    e ∈ rits
    /\ ((i < d_peak cfg)%Z ->
        exists h rest, rits = h :: rest /\ e ∈ rest).
Proof.
  induction rits as [|[magnitude values] rest IH]; intros i hp e H; simpl in H.
  - discriminate.
  - destruct (Z.ltb_spec i (d_peak cfg)) as [Hi|Hi].
    + apply IH in H as [Hin _]. split; [now apply list_elem_of_further|].
      intros _. eauto.
    + destruct (use_this_peak cfg hp values).
      * injection H as <-. split; [apply list_elem_of_here | lia].
      * apply IH in H as [Hin _]. split; [now apply list_elem_of_further | lia].
Qed.


(** An entry of [peaks]: a value of bin [j] above the spoofing threshold,
    under its normalized magnitude, with its code phase, Doppler and the
    sample counter of the dwell. *)
Lemma search_peaks (cfg : config) (st st1 : state) (inp : work_input)
    (peaks : peak_map) :
  search cfg st inp = Ok (st1, peaks) ->
  StronglySorted (fun a b => fst a < fst b) peaks
  /\ Forall (fun e =>
       exists j i,
         (j < d_num_doppler_bins cfg)%nat /\ (i < Z.to_nat (d_fft_size cfg))%nat
         /\ fst e == magnitude_grid inp j i / normalization cfg
         /\ d_threshold cfg * d_input_power st1 * normalization cfg
            < magnitude_grid inp j i
         /\ d_samples_per_code cfg <> 0%Z
         /\ snd e = mkPeak (Z.of_nat i mod d_samples_per_code cfg)
                      (- d_doppler_max cfg + d_doppler_step cfg * Z.of_nat j)
                      (d_sample_counter st1)) peaks.
Proof.
  intro H. pose proof (search_frame cfg st st1 inp peaks H) as (Hsc & _ & _ & _ & Hp & _).
  apply search_inv in H as [_ H]. cbv zeta in H.
  set (st0 := mkState _ _ _ _ _ _ _ _ _ _) in H.
  rewrite Hsc, Hp.
  change (wrap64 (d_sample_counter st + d_fft_size cfg)) with (d_sample_counter st0).
  change (accumulate_power (in_samples inp) (Z.to_nat (d_fft_size cfg))
          / inject_Z (d_fft_size cfg)) with (d_input_power st0).
  set (thr := d_threshold cfg * d_input_power st0 * normalization cfg) in *.
  set (ok := fun (k : nat) (e : Q * peak_values) =>
       exists j i,
         (j < k)%nat /\ (i < Z.to_nat (d_fft_size cfg))%nat
         /\ fst e == magnitude_grid inp j i / normalization cfg
         /\ thr < magnitude_grid inp j i
         /\ d_samples_per_code cfg <> 0%Z
         /\ snd e = mkPeak (Z.of_nat i mod d_samples_per_code cfg)
                      (- d_doppler_max cfg + d_doppler_step cfg * Z.of_nat j)
                      (d_sample_counter st0)).
  apply (for_loop_preserves
           (fun k (s : state * peak_map) =>
              d_sample_counter (fst s) = d_sample_counter st0
              /\ StronglySorted (fun a b => fst a < fst b) (snd s)
              /\ Forall (ok k) (snd s))) in H.
  - destruct H as (_ & Hs & Hall). split; assumption.
  - simpl. repeat constructor.
  - intros k [s p] [s' p'] _ (Hc & Hs & Hall) E. simpl in Hc, Hs, Hall. simpl.
    pose proof (doppler_bin_frame _ _ _ _ _ _ _ _ E) as (Hc' & _).
    apply doppler_bin_inv in E as (Hloop & _ & _). cbv zeta in Hloop.
    split; [congruence|].
    assert (Forall (ok (S k)) p) as Hall'.
    { eapply Forall_impl; [exact Hall|].
      intros e (j & i & Hj & Hrest). exists j, i. split; [lia | exact Hrest]. }
    apply (for_loop_preserves
             (fun i (q : peak_map) =>
                StronglySorted (fun a b => fst a < fst b) q
                /\ Forall (ok (S k)) q)) in Hloop.
    + exact Hloop.
    + split; assumption.
    + intros i q q' Hi [Hq1 Hq2] Ei.
      apply collect_peak_inv in Ei as [->|(Hthr & Hn & Hspc & ->)]; [auto|].
      split; [now apply peaks_insert_sorted|].
      apply peaks_insert_Forall; [|assumption].
      intros k' Hk'. exists k, i. simpl. rewrite Hc.
      repeat split; try assumption; lia.
Qed.

(** ** The estimate and the test statistic of a dwell *)

Lemma accumulate_power_nonneg (src : nat -> gr_complex) (n : nat) :
  0 <= accumulate_power src n.
Proof.
  induction n as [|n IH]; simpl; [lra|].
  unfold magnitude_squared.
  assert (0 <= real (src n) * real (src n)) by nra.
  assert (0 <= imag (src n) * imag (src n)) by nra.
  lra.
Qed.

(** The input power of a block that is not empty and not all zero. *)
Lemma input_power_pos (cfg : config) (inp : work_input) :
  (0 < d_fft_size cfg)%Z ->
  ~ accumulate_power (in_samples inp) (Z.to_nat (d_fft_size cfg)) == 0 ->
  0 < accumulate_power (in_samples inp) (Z.to_nat (d_fft_size cfg))
      / inject_Z (d_fft_size cfg).
Proof.
  intros HN Hacc.
  pose proof (accumulate_power_nonneg (in_samples inp) (Z.to_nat (d_fft_size cfg))).
  assert (0 < inject_Z (d_fft_size cfg)) as Hq.
  { change 0 with (inject_Z 0). now rewrite <- Zlt_Qlt. }
  apply Qlt_shift_div_l; [assumption|]. lra.
Qed.


(** The test statistic after the search loop of a block of positive
    power.  [d_mag] starts at zero and only grows.  While it is zero,
    nothing was recorded.  Once it is positive: without
    [bit_transition_flag] the statistic is [d_mag / d_input_power]; with
    it the statistic is the larger of that value and the statistic the
    dwell started with. *)
Lemma search_statistic (cfg : config) (st st1 : state) (inp : work_input)
    (peaks : peak_map) :
  search cfg st inp = Ok (st1, peaks) ->
  0 < d_input_power st1 ->
  0 <= d_mag st1
  /\ (d_mag st1 == 0 ->
      d_test_statistics st1 = d_test_statistics st
      /\ d_gnss_synchro st1 = d_gnss_synchro st)
  /\ (0 < d_mag st1 ->
      (d_bit_transition_flag cfg = false ->
       d_test_statistics st1 == d_mag st1 / d_input_power st1)
      /\ (d_bit_transition_flag cfg = true ->
          d_test_statistics st <= d_test_statistics st1
          /\ d_mag st1 / d_input_power st1 <= d_test_statistics st1
          /\ (d_test_statistics st1 = d_test_statistics st
              \/ d_test_statistics st1 == d_mag st1 / d_input_power st1))).
Proof.
  intros H Hpos.
  pose proof (search_frame cfg st st1 inp peaks H) as (_ & _ & _ & _ & Hp & _).
  apply search_inv in H as [_ H]. cbv zeta in H.
  rewrite Hp in *. clear Hp.
  set (P := accumulate_power (in_samples inp) (Z.to_nat (d_fft_size cfg))
            / inject_Z (d_fft_size cfg)) in *.
  set (ts0 := d_test_statistics st).
  apply (for_loop_preserves
           (fun _ (s : state * peak_map) =>
              d_input_power (fst s) = P
              /\ 0 <= d_mag (fst s)
              /\ ((d_mag (fst s) == 0
                   /\ d_test_statistics (fst s) = ts0
                   /\ d_gnss_synchro (fst s) = d_gnss_synchro st)
                  \/ (0 < d_mag (fst s)
                      /\ (d_bit_transition_flag cfg = false ->
                          d_test_statistics (fst s) == d_mag (fst s) / P)
                      /\ (d_bit_transition_flag cfg = true ->
                          ts0 <= d_test_statistics (fst s)
                          /\ d_mag (fst s) / P <= d_test_statistics (fst s)
                          /\ (d_test_statistics (fst s) = ts0
                              \/ d_test_statistics (fst s) == d_mag (fst s) / P)))))) in H.
  - destruct H as (_ & Hge & Hcases). simpl in Hge, Hcases.
    split; [assumption|]. split.
    + intro H0. destruct Hcases as [(_ & Hts & Hsyn)|(Hlt & _)]; [auto|].
      exfalso. rewrite H0 in Hlt. now apply (Qlt_irrefl 0).
    + intro Hlt. destruct Hcases as [(H0 & _)|(_ & Hrest)]; [|exact Hrest].
      exfalso. rewrite H0 in Hlt. now apply (Qlt_irrefl 0).
  - simpl. split; [reflexivity|]. split; [apply Qle_refl|].
    left. repeat split; reflexivity.
  - intros k [s p] [s' p'] _ (HP & Hge & Hcases) E. simpl in HP, Hge, Hcases. simpl.
    pose proof (doppler_bin_frame _ _ _ _ _ _ _ _ E) as (_ & _ & _ & _ & HP' & _).
    split; [congruence|].
    apply doppler_bin_inv in E as (_ & _ & E). cbv zeta in E.
    set (magt := bin_maximum cfg inp k / normalization cfg) in *.
    rewrite HP in E.
    assert (forall a b, a < b -> a / P < b / P) as Hdiv.
    { intros a b Hab. unfold Qdiv. apply Qmult_lt_compat_r; [|assumption].
      now apply Qinv_lt_0_compat. }
    assert (d_bit_transition_flag cfg = true -> ts0 <= d_test_statistics s) as Hmono.
    { intro Eb. destruct Hcases as [(_ & -> & _)|(_ & _ & Hb)]; [apply Qle_refl|].
      now destruct (Hb Eb). }
    destruct E as [[_ ->]|(Hlt & _ & [[Ec ->]|(Ec & _ & ->)])].
    + split; assumption.
    + apply orb_false_iff in Ec as [Ets Eb]. apply negb_false_iff in Eb.
      apply Qltb_false in Ets. simpl.
      split; [lra|]. right. split; [lra|].
      split; [intro Eb'; congruence|]. intros _.
      split; [now apply Hmono|]. split; [assumption|].
      destruct Hcases as [(_ & -> & _)|(_ & _ & Hb)]; [now left|].
      destruct (Hb Eb) as (_ & _ & [->|Heq]); [now left|].
      exfalso. specialize (Hdiv _ _ Hlt). lra.
    + simpl. split; [lra|]. right. split; [lra|].
      split; [intros _; reflexivity|]. intro Eb.
      rewrite Eb, orb_false_r in Ec. apply Qltb_true in Ec.
      specialize (Hmono Eb).
      split; [lra|]. split; [apply Qle_refl|]. right. reflexivity.
Qed.



Lemma decide_state_positive (cfg : config) (st : state) (found : bool) :
  d_state st = 1%Z -> (1 < d_peak cfg)%Z ->
  decide_state cfg st found = 2%Z ->
  found = true /\ d_threshold cfg < d_test_statistics st.
Proof.
  intros Hst Hp. unfold decide_state. rewrite Hst.
  apply Z.ltb_lt in Hp. rewrite Hp.
  destruct found; simpl;
    destruct (d_bit_transition_flag cfg); simpl;
    destruct (Qltb (d_threshold cfg) (d_test_statistics st)) eqn:Ets;
    destruct (d_well_count st =? d_max_dwells cfg)%Z;
    intro H; try discriminate H; apply Qltb_true in Ets; auto.
Qed.




(** X7.  An auxiliary peak is weaker than the main peak.  In
    auxiliary-peak mode, with either setting of [bit_transition_flag], a
    dwell that ends in POSITIVE acquisition has selected an auxiliary
    peak: its test statistic is above the threshold and strictly below
    [d_mag / d_input_power], the statistic of the strongest correlation
    of the dwell, because the iteration from the largest key of [peaks]
    downward sets the first [d_peak] entries aside. *)
Theorem X7_auxiliary_peak_below_main_peak (cfg : config) (st : state)
    (inp : work_input) :
  d_state st = 1%Z -> (1 < d_peak cfg)%Z ->
  (0 < d_fft_size cfg)%Z -> d_samples_per_code cfg <> 0%Z ->
  ~ accumulate_power (in_samples inp) (Z.to_nat (d_fft_size cfg)) == 0 ->
  exists st',
    general_work cfg st inp = Ok (st', 1%Z)
    /\ (d_state st' = 2%Z ->
        d_threshold cfg < d_test_statistics st'
        /\ d_test_statistics st' < d_mag st' / d_input_power st').
Proof.
  intros Hst Hp HN Hspc Hacc.
  destruct (AcquisitionFacts.dwell_spec cfg st inp Hst HN Hspc Hacc)
    as (st1 & peaks & st2 & found & E1 & E2 & E & Hs2 & _).
  destruct (AcquisitionFacts.search_spec cfg st inp HN Hspc Hacc)
    as (st1' & peaks' & E1' & _ & _ & _ & _ & _ & Hmax & _).
  rewrite E1 in E1'. injection E1' as <- <-.
  pose proof (search_frame _ _ _ _ _ E1) as (_ & _ & _ & _ & Hpow & _).
  pose proof (input_power_pos cfg inp HN Hacc) as Hpos. rewrite <- Hpow in Hpos.
  pose proof (search_peaks _ _ _ _ _ E1) as [Hsorted Hall].
  pose proof (AcquisitionFacts.normalization_pos cfg HN) as Hn.
  eexists. split; [exact E|]. simpl. intro Hpositive.
  apply (decide_state_positive cfg st2 found Hs2 Hp) in Hpositive as [-> Hthr].
  split; [exact Hthr|].
  apply auxiliary_peak_inv in E2
    as [[Hf _]|(_ & _ & _ & magnitude & values & Hsel & ->)]; [discriminate|].
  simpl.
  apply select_peak_elem_of in Hsel as [_ Hrest].
  destruct Hrest as (h & rest & Hrev & Hin); [lia|].
  pose proof (reverse_sorted_head peaks h (magnitude, values) rest Hsorted Hrev Hin)
    as Hlt. simpl in Hlt.
  assert (h ∈ peaks) as Hh.
  { rewrite <- elem_of_reverse, Hrev. apply list_elem_of_here. }
  rewrite Forall_forall in Hall.
  destruct (Hall _ Hh) as (j & i & Hj & Hi & Hkey & _).
  assert (fst h <= d_mag st1) as Hle.
  { rewrite Hkey.
    apply Qle_trans with (bin_maximum cfg inp j / normalization cfg);
      [|now apply Hmax].
    apply Qdiv_le_compat_r; [|assumption].
    now apply AcquisitionFacts.volk_32f_index_max_spec. }
  unfold Qdiv. apply Qmult_lt_compat_r; [now apply Qinv_lt_0_compat | lra].
Qed.

Lemma X7_auxiliary_peak_below_main_peak_witness :
  exists st',
    general_work (Capture.config 2 false) Capture.dwelling Capture.three_peaks
    = Ok (st', 1%Z)
    /\ d_test_statistics st' < d_mag st' / d_input_power st'.
Proof.
  assert (d_state Capture.dwelling = 1%Z) as H1 by reflexivity.
  assert (1 < d_peak (Capture.config 2 false))%Z as H3 by (simpl; lia).
  assert (0 < d_fft_size (Capture.config 2 false))%Z as H4 by (simpl; lia).
  assert (d_samples_per_code (Capture.config 2 false) <> 0%Z) as H5
    by (simpl; lia).
  assert (~ accumulate_power (in_samples Capture.three_peaks)
              (Z.to_nat (d_fft_size (Capture.config 2 false))) == 0) as H6
    by (vm_compute; discriminate).
  destruct (X7_auxiliary_peak_below_main_peak (Capture.config 2 false)
              Capture.dwelling Capture.three_peaks H1 H3 H4 H5 H6)
    as (st' & E & Hpos).
  exists st'. split; [exact E|].
  apply Hpos.
  assert (holds (general_work (Capture.config 2 false) Capture.dwelling
                   Capture.three_peaks) (fun r => d_state (fst r) = 2%Z)) as Hr
    by (vm_compute; reflexivity).
  rewrite E in Hr. exact Hr.
Defined.

(** X8.  The test statistic of a dwell without auxiliary-peak mode, on a
    non-empty block of non-zero power.  [d_mag] is never negative.  When
    no Doppler bin has a positive maximum, [d_mag] stays zero and the
    dwell keeps both the test statistic and the estimate it started with.
    Otherwise, without [bit_transition_flag] the statistic is
    [d_mag / d_input_power] of this dwell; with it the statistic is the
    larger of [d_mag / d_input_power] and the statistic the dwell started
    with, that is the maximum over the dwells of the attempt. *)
Theorem X8_test_statistic (cfg : config) (st : state) (inp : work_input) :
  d_state st = 1%Z -> (d_peak cfg <= 1)%Z ->
  (0 < d_fft_size cfg)%Z -> d_samples_per_code cfg <> 0%Z ->
  ~ accumulate_power (in_samples inp) (Z.to_nat (d_fft_size cfg)) == 0 ->
  exists st',
    general_work cfg st inp = Ok (st', 1%Z)
    /\ 0 <= d_mag st'
    /\ (d_mag st' == 0 ->
        d_test_statistics st' = d_test_statistics st
        /\ d_gnss_synchro st' = d_gnss_synchro st)
    /\ (0 < d_mag st' ->
        (d_bit_transition_flag cfg = false ->
         d_test_statistics st' == d_mag st' / d_input_power st')
        /\ (d_bit_transition_flag cfg = true ->
            d_test_statistics st <= d_test_statistics st'
            /\ d_mag st' / d_input_power st' <= d_test_statistics st'
            /\ (d_test_statistics st' = d_test_statistics st
                \/ d_test_statistics st' == d_mag st' / d_input_power st'))).
Proof.
  intros Hst Hp HN Hspc Hacc.
  destruct (AcquisitionFacts.dwell_spec cfg st inp Hst HN Hspc Hacc)
    as (st1 & peaks & st2 & found & E1 & E2 & E & _ & _ & _ & _ & Hnf & Hoff).
  rewrite (Hnf (Hoff Hp)) in E.
  pose proof (search_frame _ _ _ _ _ E1) as (_ & _ & _ & _ & Hpow & _).
  pose proof (input_power_pos cfg inp HN Hacc) as Hpos. rewrite <- Hpow in Hpos.
  eexists. split; [exact E|]. simpl.
  exact (search_statistic cfg st st1 inp peaks E1 Hpos).
Qed.

Lemma X8_test_statistic_witness :
  exists st',
    general_work (Capture.config 1 false) Capture.dwelling Capture.single_peak
    = Ok (st', 1%Z)
    /\ 0 <= d_mag st'.
Proof.
  assert (d_state Capture.dwelling = 1%Z) as H1 by reflexivity.
  assert (d_peak (Capture.config 1 false) <= 1)%Z as H3 by (simpl; lia).
  assert (0 < d_fft_size (Capture.config 1 false))%Z as H4 by (simpl; lia).
  assert (d_samples_per_code (Capture.config 1 false) <> 0%Z) as H5
    by (simpl; lia).
  assert (~ accumulate_power (in_samples Capture.single_peak)
              (Z.to_nat (d_fft_size (Capture.config 1 false))) == 0) as H6
    by (vm_compute; discriminate).
  destruct (X8_test_statistic (Capture.config 1 false) Capture.dwelling
              Capture.single_peak H1 H3 H4 H5 H6) as (st' & E & Hge & _).
  exists st'. split; [exact E | exact Hge].
Defined.

(** ** Successive calls *)

(** An engine that is idle and not active stays so, call after call; only
    the sample counter moves. *)
Lemma run_idle (cfg : config) (inputs : list work_input) :
  forall st : state,
    d_state st = 0%Z -> d_active st = false ->
    exists st',
      run cfg st inputs = Ok st'
      /\ d_state st' = 0%Z /\ d_active st' = false
      /\ d_channel_internal_queue st' = d_channel_internal_queue st
      /\ d_gnss_synchro st' = d_gnss_synchro st
      /\ d_test_statistics st' = d_test_statistics st
      /\ d_mag st' = d_mag st.
Proof.
  induction inputs as [|inp rest IH]; intros st Hst Hact; simpl.
  - exists st. repeat split; assumption.
  - unfold general_work. rewrite Hst. simpl. unfold idle. rewrite Hact.
    set (st1 := mkState _ _ _ _ _ _ _ _ _ _).
    destruct (IH st1) as (st' & E & H1 & H2 & H3 & H4 & H5 & H6);
      [exact Hst | reflexivity |].
    exists st'. repeat split; assumption.
Qed.

(** X9.  A decision is declared exactly once.  From state 2 or 3, any
    non-empty sequence of calls returns and leaves on the channel queue
    the one message of the decision (1 after state 2, 2 after state 3)
    and nothing else; the engine ends idle and inactive, with the
    estimate and the test statistic of the decision untouched.  An engine
    that is idle and inactive pushes nothing, however many calls
    follow. *)
Theorem X9_decision_declared_once (cfg : config) (st : state)
    (inp : work_input) (rest : list work_input) :
  d_state st = 2%Z \/ d_state st = 3%Z \/ (d_state st = 0%Z /\ d_active st = false) ->
  exists st',
    run cfg st (inp :: rest) = Ok st'
    /\ d_channel_internal_queue st'
       = d_channel_internal_queue st
         ++ (if (d_state st =? 2)%Z then [1%Z]
             else if (d_state st =? 3)%Z then [2%Z] else [])
    /\ d_state st' = 0%Z /\ d_active st' = false
    /\ d_gnss_synchro st' = d_gnss_synchro st
    /\ d_test_statistics st' = d_test_statistics st.
Proof.
  intros [Hst|[Hst|[Hst Hact]]].
  - simpl. unfold general_work. rewrite Hst. simpl.
    destruct (run_idle cfg rest (declare cfg st inp 1))
      as (st' & E & H1 & H2 & H3 & H4 & H5 & _); try reflexivity.
    exists st'. repeat split; assumption.
  - simpl. unfold general_work. rewrite Hst. simpl.
    destruct (run_idle cfg rest (declare cfg st inp 2))
      as (st' & E & H1 & H2 & H3 & H4 & H5 & _); try reflexivity.
    exists st'. repeat split; assumption.
  - destruct (run_idle cfg (inp :: rest) st Hst Hact)
      as (st' & E & H1 & H2 & H3 & H4 & H5 & _).
    exists st'. rewrite Hst. simpl. rewrite app_nil_r. repeat split; assumption.
Qed.

Lemma X9_decision_declared_once_witness :
  exists st',
    run (Capture.config 1 false) (set_state Capture.dwelling 3%Z)
      [Capture.single_peak; Capture.three_peaks; Capture.single_peak] = Ok st'
    /\ d_channel_internal_queue st' = [2%Z].
Proof.
  destruct (X9_decision_declared_once (Capture.config 1 false)
              (set_state Capture.dwelling 3%Z) Capture.single_peak
              [Capture.three_peaks; Capture.single_peak])
    as (st' & E & Hq & _); [right; left; reflexivity|].
  exists st'. split; [exact E | exact Hq].
Defined.




End AcquisitionInvariants.

(** ** Tracking: the paths of [general_work], [start_tracking], [stop_tracking] *)

Module TrackingInvariants.
Import Tracking.

(** ** One call of [general_work], path by path *)

Lemma general_work_inv `{Externals} (cfg : config) (st st' : state)
    (inp : work_input) (o : work_output) :
  general_work cfg st inp = Ok (st', o) ->
  (d_enable_tracking st = false /\ disabled cfg st = Ok (st', o))
  \/ (d_enable_tracking st = true /\ d_pull_in st = true
      /\ pull_in cfg st = Ok (st', o))
  \/ (d_enable_tracking st = true /\ d_pull_in st = false
      /\ (exists r, update_local_code cfg st = Ok r)
      /\ (exists r_m, update_local_code_m cfg st = Ok r_m)
      /\ ((Prompt inp = NotANumber
           /\ nan_block cfg (correlate st inp) inp = Ok (st', o))
          \/ (exists prompt,
                Prompt inp = Finite prompt
                /\ steady_state cfg (correlate st inp) inp prompt = Ok (st', o)))).
Proof.
  unfold general_work. intro E.
  destruct (d_enable_tracking st); [|now left].
  destruct (d_pull_in st); [right; left; auto|].
  right. right.
  apply bind_inv in E as (r & Er & E). apply bind_inv in E as (r_m & Erm & E).
  cbv zeta in E.
  destruct (TrackingFacts.correlate_outputs st inp) as (_ & HP & _).
  rewrite HP in E.
  split; [reflexivity|]. split; [reflexivity|]. split; [eauto|]. split; [eauto|].
  destruct (Prompt inp) as [prompt|]; [right; eauto | left; auto].
Qed.

Lemma steady_state_inv `{Externals} (cfg : config) (st st' : state)
    (inp : work_input) (prompt : gr_complex) (o : work_output) :
  steady_state cfg st inp prompt = Ok (st', o) ->
  d_fs_in cfg <> 0%Z
  /\ ~ pll_code_freq_chips (carrier_pll st prompt) == 0
  /\ exists amplitude last_seg,
      amplitude_loops st prompt (input_power st inp) = Ok amplitude
      /\ (st', o)
         = steady_update cfg st inp prompt
             (1 / pll_code_freq_chips (carrier_pll st prompt)) amplitude
             ((inject_Z (d_sample_counter st) + d_rem_code_phase_samples st)
              / inject_Z (d_fs_in cfg))
             last_seg.
Proof.
  unfold steady_state. intro E.
  apply bind_inv in E as (T & HT & E). apply fdiv_inv in HT as [Hcf ->].
  apply bind_inv in E as (amp & Hamp & E).
  apply bind_inv in E as (ts & Hts & E). apply fdiv_inv in Hts as [Hfs ->].
  apply bind_inv in E as (seg & Hseg & E).
  unfold second_counter in Hseg. apply bind_inv in Hseg as (q & Hq & _).
  apply idiv_inv in Hq as [Hfs' _].
  injection E as <- <-.
  split; [assumption|]. split; [assumption|]. eauto.
Qed.

(** What a steady-state step writes, member by member. *)
Lemma steady_update_code `{Externals} (cfg : config) (st : state)
    (inp : work_input) (prompt : gr_complex) (T : Q)
    (amplitude : Q * Q * Tracking_ALL_filter * Tracking_ALL_filter)
    (timestamp : Q) (last_seg : Z) :
  let r := steady_update cfg st inp prompt T amplitude timestamp last_seg in
  exists v,
    vars (snd r) = Some v
    /\ consumed (snd r) = round (K_blk_samples v)
    /\ d_current_prn_length_samples (fst r) = round (K_blk_samples v)
    /\ d_rem_code_phase_samples (fst r)
       = K_blk_samples v - inject_Z (round (K_blk_samples v))
    /\ d_sample_counter (fst r)
       = wrap64 (d_sample_counter st + round (K_blk_samples v))
    /\ K_blk_samples v
       = T_prn_samples v + d_rem_code_phase_samples st
         + code_error_filt_secs v * inject_Z (d_fs_in cfg)
    /\ T_prn_samples v = T * GPS_L1_CA_CODE_LENGTH_CHIPS * inject_Z (d_fs_in cfg)
    /\ d_code_freq_chips (fst r) = pll_code_freq_chips (carrier_pll st prompt)
    /\ d_ca_code (fst r) = d_ca_code st
    /\ d_pull_in (fst r) = d_pull_in st
    /\ out (snd r) <> None.
Proof.
  cbv zeta. eexists. split; [reflexivity|].
  repeat split; try reflexivity. discriminate.
Qed.


Lemma steady_update_detectors `{Externals} (cfg : config) (st : state)
    (inp : work_input) (prompt : gr_complex) (T : Q)
    (amplitude : Q * Q * Tracking_ALL_filter * Tracking_ALL_filter)
    (timestamp : Q) (last_seg : Z) :
  let r := steady_update cfg st inp prompt T amplitude timestamp last_seg in
  let lock := cn0_and_lock_detectors cfg st prompt in
  d_cn0_estimation_counter (fst r) = cn0_estimation_counter lock
  /\ d_Prompt_buffer (fst r) = Prompt_buffer lock
  /\ d_carrier_lock_fail_counter (fst r) = carrier_lock_fail_counter lock
  /\ d_queue (fst r) = queue lock
  /\ d_enable_tracking (fst r) = enable_tracking lock.
Proof. repeat split; reflexivity. Qed.

(** The paths other than the steady-state step write the sample
    counters, [d_pull_in], [d_last_seg] and the correlator outputs, and
    nothing else. *)
Lemma set_stream_keeps `{Externals} (st : state) (sample_counter sample_counter_m : Z)
    (pull_in : bool) (last_seg : Z) (E : gr_complex) (P : correlation)
    (L E_m P_m L_m : gr_complex) :
  let st' := set_stream st sample_counter sample_counter_m pull_in last_seg
               E P L E_m P_m L_m in
  d_rem_code_phase_samples st' = d_rem_code_phase_samples st
  /\ d_rem_code_phase_samples_m st' = d_rem_code_phase_samples_m st
  /\ d_rem_carr_phase_rad st' = d_rem_carr_phase_rad st
  /\ d_acc_carrier_phase_rad st' = d_acc_carrier_phase_rad st
  /\ d_cn0_estimation_counter st' = d_cn0_estimation_counter st
  /\ d_Prompt_buffer st' = d_Prompt_buffer st
  /\ d_carrier_lock_fail_counter st' = d_carrier_lock_fail_counter st
  /\ d_ca_code st' = d_ca_code st
  /\ d_queue st' = d_queue st
  /\ d_enable_tracking st' = d_enable_tracking st
  /\ d_code_freq_chips st' = d_code_freq_chips st
  /\ d_acquisition_gnss_synchro st' = d_acquisition_gnss_synchro st
  /\ d_current_prn_length_samples st' = d_current_prn_length_samples st
  /\ d_current_prn_length_samples_m st' = d_current_prn_length_samples_m st
  /\ CADLL_init st' = CADLL_init st
  /\ d_sample_counter st' = sample_counter
  /\ d_sample_counter_m st' = sample_counter_m
  /\ d_pull_in st' = pull_in.
Proof. repeat split. Qed.

Lemma correlate_set_stream `{Externals} (st : state) (inp : work_input) :
  exists E P L E_m P_m L_m,
    correlate st inp
    = set_stream st (d_sample_counter st) (d_sample_counter_m st) (d_pull_in st)
        (d_last_seg st) E P L E_m P_m L_m.
Proof. unfold correlate. destruct (CADLL_init st); eauto 10. Qed.

(** A call that is not a steady-state step: the state is the old one up
    to the members [set_stream] writes. *)
Lemma other_paths `{Externals} (cfg : config) (st st' : state)
    (inp : work_input) (o : work_output) :
  general_work cfg st inp = Ok (st', o) ->
  (exists sample_counter_m pull_in last_seg E P L E_m P_m L_m,
      st' = set_stream st (wrap64 (d_sample_counter st + consumed o))
              sample_counter_m pull_in last_seg E P L E_m P_m L_m
      /\ vars o = None
      /\ (out o = None <-> d_enable_tracking st = true /\ d_pull_in st = true)
      /\ (d_enable_tracking st = true -> d_pull_in st = true ->
          pull_in = false
          /\ sample_counter_m = wrap64 (d_sample_counter st + consumed o))
      /\ (d_pull_in st = false -> pull_in = false))
  \/ (d_enable_tracking st = true /\ d_pull_in st = false
      /\ (exists r, update_local_code cfg st = Ok r)
      /\ (exists r_m, update_local_code_m cfg st = Ok r_m)
      /\ exists prompt,
          Prompt inp = Finite prompt
          /\ steady_state cfg (correlate st inp) inp prompt = Ok (st', o)).
Proof.
  intro E. apply general_work_inv in E
    as [[Hen E]|[(Hen & Hpull & E)|(Hen & Hpull & Hr & Hrm & [[HP E]|E])]].
  - left. unfold disabled in E. apply bind_inv in E as (seg & _ & E).
    injection E as <- <-. do 9 eexists. split; [reflexivity|].
    split; [reflexivity|]. rewrite Hen. simpl.
    split; [split; [discriminate | intros [? _]; discriminate]|].
    split; [intro; discriminate | auto].
  - left. unfold pull_in in E. apply bind_inv in E as (shift & _ & E).
    injection E as <- <-. do 9 eexists. split; [reflexivity|].
    split; [reflexivity|]. simpl. split; [tauto|]. auto.
  - left. unfold nan_block in E. apply bind_inv in E as (ts & _ & E).
    injection E as <- <-.
    destruct (correlate_set_stream st inp) as (E0 & P0 & L0 & Em & Pm & Lm & ->).
    do 9 eexists. split; [reflexivity|]. split; [reflexivity|]. simpl.
    rewrite Hen, Hpull.
    split; [split; [discriminate | intros [_ ?]; discriminate]|].
    split; [intros _ ?; discriminate | auto].
  - right. auto.
Qed.

(** X10.  The sample counter follows the stream on every path.  Whatever
    a call of [general_work] does (pull-in, NaN block, steady-state step,
    tracking disabled), when it returns [d_sample_counter] has advanced by
    exactly the number of samples the call consumed (modulo 2^64), and a
    record is written on every path but pull-in.  After pull-in the
    secondary counter equals the primary one and [d_pull_in] is clear. *)
Theorem X10_tracking_sample_counter `{Externals} (cfg : config) (st st' : state)
    (inp : work_input) (o : work_output) :
  general_work cfg st inp = Ok (st', o) ->
  d_sample_counter st' = wrap64 (d_sample_counter st + consumed o)
  /\ (out o = None <-> d_enable_tracking st = true /\ d_pull_in st = true)
  /\ (d_enable_tracking st = true -> d_pull_in st = true ->
      d_sample_counter_m st' = d_sample_counter st' /\ d_pull_in st' = false)
  /\ (d_pull_in st = false -> d_pull_in st' = false).
Proof.
  intro E. apply other_paths in E
    as [(scm & pull & seg & E0 & P0 & L0 & Em & Pm & Lm & -> & _ & Hout & Hpi & Hnp)
       |(Hen & Hpull & _ & _ & prompt & HP & E)].
  - split; [reflexivity|]. split; [exact Hout|]. split.
    + intros Hen Hpull. destruct (Hpi Hen Hpull) as [-> ->]. split; reflexivity.
    + exact Hnp.
  - apply steady_state_inv in E as (_ & _ & amp & seg & _ & E).
    pose proof (steady_update_code cfg (correlate st inp) inp prompt
                  (1 / pll_code_freq_chips (carrier_pll (correlate st inp) prompt))
                  amp
                  ((inject_Z (d_sample_counter (correlate st inp))
                    + d_rem_code_phase_samples (correlate st inp))
                   / inject_Z (d_fs_in cfg)) seg) as Hc.
    cbv zeta in Hc. rewrite <- E in Hc. simpl fst in Hc. simpl snd in Hc.
    destruct Hc as (v & _ & Hcons & _ & _ & Hsc & _ & _ & _ & _ & Hpi & Hout).
    destruct (TrackingFacts.correlate_keeps st inp) as (_ & Hsc0 & _).
    rewrite Hsc, Hcons, Hsc0. split; [reflexivity|].
    split; [split; [intro; contradiction | intros [_ ?]; congruence]|].
    split; [intros _ ?; congruence|].
    intros _. rewrite Hpi.
    destruct (correlate_set_stream st inp) as (E0 & P0 & L0 & Em & Pm & Lm & ->).
    exact Hpull.
Qed.

Lemma X10_tracking_sample_counter_witness :
  exists st' o,
    general_work Nominal.config Nominal.cadll Nominal.in_phase = Ok (st', o)
    /\ d_sample_counter st' = wrap64 (d_sample_counter Nominal.cadll + consumed o).
Proof.
  assert (holds (general_work Nominal.config Nominal.cadll Nominal.in_phase)
            (fun _ => True)) as Hr by (vm_compute; exact I).
  apply holds_Ok in Hr as ([st' o] & E & _).
  exists st', o. split; [exact E|].
  exact (proj1 (X10_tracking_sample_counter _ _ _ _ _ E)).
Defined.


(** ** The ranges of the loop members *)







(** ** Successive calls *)

Lemma run_inv `{Externals} (cfg : config) (st st'' : state) (inp : work_input)
    (rest : list work_input) (outputs : list work_output) :
  run cfg st (inp :: rest) = Ok (st'', outputs) ->
  exists st' o outputs',
    general_work cfg st inp = Ok (st', o)
    /\ run cfg st' rest = Ok (st'', outputs')
    /\ outputs = o :: outputs'.
Proof.
  simpl. intro E.
  apply bind_inv in E as ([st' o] & E1 & E).
  apply bind_inv in E as ([st2 outs] & E2 & E).
  injection E as <- <-. eauto 10.
Qed.




(** ** The steady-state step from a state in range *)




(** ** Messages and the end of tracking *)

(** One call: the queue and [d_enable_tracking] stay as they are, or the
    lock detector trips. *)
Lemma general_work_queue `{Externals} (cfg : config) (st st' : state)
    (inp : work_input) (o : work_output) :
  general_work cfg st inp = Ok (st', o) ->
  (d_queue st' = d_queue st /\ d_enable_tracking st' = d_enable_tracking st)
  \/ (d_enable_tracking st = true /\ d_pull_in st = false
      /\ d_enable_tracking st' = false
      /\ d_carrier_lock_fail_counter st' = 0%Z
      /\ d_queue st'
         = if d_queue_attached cfg then d_queue st ++ [(d_channel cfg, 2%Z)]
           else d_queue st).
Proof.
  intro E. apply other_paths in E
    as [(scm & pull & seg & E0 & P0 & L0 & Em & Pm & Lm & -> & _)
       |(Hen & Hpull & _ & _ & prompt & HP & E)].
  - left. split; reflexivity.
  - apply steady_state_inv in E as (_ & _ & amp & seg & _ & E).
    match type of E with
    | _ = steady_update ?c ?s ?i ?p ?T ?a ?t ?g =>
        pose proof (steady_update_detectors c s i p T a t g) as Hd
    end.
    cbv zeta in Hd. rewrite <- E in Hd. simpl fst in Hd.
    destruct Hd as (_ & _ & Hfail & Hq & Hen').
    rewrite TrackingFacts.cn0_and_lock_detectors_correlate in Hfail, Hq, Hen'.
    pose proof (TrackingFacts.cn0_and_lock_detectors_spec cfg st prompt Hen) as Hspec.
    cbv zeta in Hspec. destruct Hspec as [Hfill Heval].
    destruct (Z.lt_ge_cases (d_cn0_estimation_counter st) CN0_ESTIMATION_SAMPLES)
      as [Hlt|Hge].
    + destruct (Hfill Hlt) as (_ & Hq1 & Hen1). left. split; congruence.
    + destruct (Heval Hge) as [Htrip Hkeep].
      match type of Htrip with
      | (_ < ?c)%Z -> _ =>
          destruct (Z.lt_ge_cases MAXIMUM_LOCK_FAIL_COUNTER c) as [Hc|Hc]
      end.
      * destruct (Htrip Hc) as (Hf1 & Hen1 & Hq1). right.
        repeat split; congruence.
      * destruct (Hkeep Hc) as (_ & Hen1 & Hq1). left. split; congruence.
Qed.

(** With tracking disabled every call returns, passes the acquisition
    record on and leaves the loops, the queue and [d_enable_tracking] as
    they are. *)
Lemma run_disabled `{Externals} (cfg : config) (inputs : list work_input) :
  d_fs_in cfg <> 0%Z ->
  forall st : state,
    d_enable_tracking st = false ->
    exists st' outputs,
      run cfg st inputs = Ok (st', outputs)
      /\ d_enable_tracking st' = false
      /\ d_queue st' = d_queue st
      /\ length outputs = length inputs
      /\ Forall (fun o => out o = Some (d_acquisition_gnss_synchro st)
                          /\ vars o = None
                          /\ consumed o = d_current_prn_length_samples st) outputs
      /\ d_code_freq_chips st' = d_code_freq_chips st
      /\ d_carrier_doppler_hz st' = d_carrier_doppler_hz st
      /\ d_rem_code_phase_samples st' = d_rem_code_phase_samples st
      /\ d_rem_carr_phase_rad st' = d_rem_carr_phase_rad st
      /\ d_carrier_lock_fail_counter st' = d_carrier_lock_fail_counter st
      /\ d_acquisition_gnss_synchro st' = d_acquisition_gnss_synchro st
      /\ d_current_prn_length_samples st' = d_current_prn_length_samples st.
Proof.
  intro Hfs. induction inputs as [|inp rest IH]; intros st Hen.
  - exists st, []. simpl. repeat split; try reflexivity; auto.
  - simpl. unfold general_work. rewrite Hen. unfold disabled, second_counter.
    rewrite idiv_Ok by assumption. rewrite !bind_Ok.
    match goal with
    | |- context [run cfg ?s rest] =>
        destruct (IH s) as (st' & outs & E & H1 & H2 & H3 & H4 & H5 & H6 & H7
                            & H8 & H9 & H10 & H11); [exact Hen|]
    end.
    rewrite E, bind_Ok. exists st', (mkOutput (Some (d_acquisition_gnss_synchro st))
                                        (d_current_prn_length_samples st) None :: outs).
    split; [reflexivity|]. simpl in *.
    repeat split; try assumption; try congruence.
    constructor; [repeat split | exact H4].
Qed.

(** X13.  At most one loss-of-lock message.  Over any sequence of calls
    of [general_work] that returns, either the queue and
    [d_enable_tracking] end as they started, or tracking was enabled, the
    lock detector tripped once, exactly one control message
    [(d_channel, 2)] was handed to the queue (none without a queue) and
    tracking ends disabled.  Nothing else is ever posted, and nothing in
    [general_work] enables tracking again. *)
Theorem X13_at_most_one_message `{Externals} (cfg : config)
    (inputs : list work_input) (st st' : state) (outputs : list work_output) :
  d_fs_in cfg <> 0%Z ->
  run cfg st inputs = Ok (st', outputs) ->
  (d_queue st' = d_queue st /\ d_enable_tracking st' = d_enable_tracking st)
  \/ (d_enable_tracking st = true
      /\ d_enable_tracking st' = false
      /\ d_queue st'
         = if d_queue_attached cfg then d_queue st ++ [(d_channel cfg, 2%Z)]
           else d_queue st).
Proof.
  intro Hfs. revert st st' outputs.
  induction inputs as [|inp rest IH]; intros st st' outputs E.
  - injection E as <- <-. left. auto.
  - apply run_inv in E as (st1 & o & outs & E1 & E2 & ->).
    apply general_work_queue in E1
      as [[Hq Hen]|(Hen & _ & Hen1 & _ & Hq)].
    + destruct (IH st1 st' outs E2) as [[Hq' Hen']|(Hen1 & Hen' & Hq')].
      * left. split; congruence.
      * right. rewrite <- Hen, <- Hq. auto.
    + destruct (run_disabled cfg rest Hfs st1 Hen1)
        as (st2 & outs2 & E2' & Hen2 & Hq2 & _).
      rewrite E2 in E2'. injection E2' as <- <-.
      right. split; [assumption|]. split; [assumption|]. congruence.
Qed.

Lemma X13_at_most_one_message_witness :
  exists st' outputs,
    run Nominal.config (Nominal.evaluating 50) [Nominal.in_phase; Nominal.in_phase]
    = Ok (st', outputs)
    /\ d_queue st' = [(0%Z, 2%Z)].
Proof.
  assert (d_fs_in Nominal.config <> 0%Z) as Hfs by (simpl; lia).
  assert (holds (run Nominal.config (Nominal.evaluating 50)
                   [Nominal.in_phase; Nominal.in_phase])
            (fun r => d_enable_tracking (fst r) = false)) as Hr
    by (vm_compute; reflexivity).
  apply holds_Ok in Hr as ([st' outputs] & E & Hoff).
  exists st', outputs. split; [exact E|].
  destruct (X13_at_most_one_message Nominal.config _ _ _ _ Hfs E)
    as [[_ Hen]|(_ & _ & Hq)].
  - simpl in Hoff. rewrite Hoff in Hen. discriminate Hen.
  - exact Hq.
Defined.

(** X14.  [stop_tracking] ends tracking for good.  It hands one control
    message [(d_channel, 2)] to the queue when one is attached and clears
    [d_enable_tracking]; from then on, with a non-zero sample rate, every
    call of [general_work] returns, consumes [d_current_prn_length_samples]
    samples and writes the acquisition record as it is, and no sequence of
    calls posts another message, enables tracking again or moves the code
    and carrier loops. *)
Theorem X14_stop_tracking `{Externals} (cfg : config) (st : state)
    (inputs : list work_input) :
  d_fs_in cfg <> 0%Z ->
  exists st' outputs,
    run cfg (stop_tracking cfg st) inputs = Ok (st', outputs)
    /\ d_enable_tracking st' = false
    /\ d_queue st'
       = (if d_queue_attached cfg then d_queue st ++ [(d_channel cfg, 2%Z)]
          else d_queue st)
    /\ length outputs = length inputs
    /\ Forall (fun o => out o = Some (d_acquisition_gnss_synchro st)
                        /\ vars o = None
                        /\ consumed o = d_current_prn_length_samples st) outputs
    /\ d_code_freq_chips st' = d_code_freq_chips st
    /\ d_carrier_doppler_hz st' = d_carrier_doppler_hz st
    /\ d_rem_code_phase_samples st' = d_rem_code_phase_samples st
    /\ d_rem_carr_phase_rad st' = d_rem_carr_phase_rad st.
Proof.
  intro Hfs.
  destruct (run_disabled cfg inputs Hfs (stop_tracking cfg st) eq_refl)
    as (st' & outs & E & H1 & H2 & H3 & H4 & H5 & H6 & H7 & H8 & _).
  exists st', outs. repeat split; assumption.
Qed.

Lemma X14_stop_tracking_witness :
  exists st' outputs,
    run Nominal.config (stop_tracking Nominal.config Nominal.cadll)
      [Nominal.in_phase; Nominal.quadrature] = Ok (st', outputs)
    /\ d_queue st' = [(0%Z, 2%Z)].
Proof.
  assert (d_fs_in Nominal.config <> 0%Z) as Hfs by (simpl; lia).
  destruct (X14_stop_tracking Nominal.config Nominal.cadll
              [Nominal.in_phase; Nominal.quadrature] Hfs)
    as (st' & outputs & E & _ & Hq & _).
  exists st', outputs. split; [exact E | exact Hq].
Defined.

(** ** Pull-in *)




(** ** [start_tracking] *)



(** ** The local replicas *)








(** ** Timestamps and amplitudes *)

Lemma steady_update_record `{Externals} (cfg : config) (st : state)
    (inp : work_input) (prompt : gr_complex) (T : Q)
    (amplitude : Q * Q * Tracking_ALL_filter * Tracking_ALL_filter)
    (timestamp : Q) (last_seg : Z) :
  let r := steady_update cfg st inp prompt T amplitude timestamp last_seg in
  exists record,
    out (snd r) = Some record
    /\ Tracking_timestamp_secs record = timestamp
    /\ a1 (fst r) = fst (fst (fst amplitude))
    /\ a2 (fst r) = snd (fst (fst amplitude))
    /\ d_amplitude_loop_filter (fst r) = snd (fst amplitude)
    /\ d_amplitude_loop_filter_m (fst r) = snd amplitude.
Proof. cbv zeta. eexists. repeat split; reflexivity. Qed.

(** A call that leaves process variables behind is a steady-state step. *)
Lemma steady_step_inv `{Externals} (cfg : config) (st st' : state)
    (inp : work_input) (o : work_output) (v : process_vars) :
  general_work cfg st inp = Ok (st', o) -> vars o = Some v ->
  d_enable_tracking st = true /\ d_pull_in st = false
  /\ d_fs_in cfg <> 0%Z
  /\ exists prompt amplitude last_seg,
      Prompt inp = Finite prompt
      /\ amplitude_loops (correlate st inp) prompt
           (input_power (correlate st inp) inp) = Ok amplitude
      /\ (st', o)
         = steady_update cfg (correlate st inp) inp prompt
             (1 / pll_code_freq_chips (carrier_pll st prompt)) amplitude
             ((inject_Z (d_sample_counter st) + d_rem_code_phase_samples st)
              / inject_Z (d_fs_in cfg))
             last_seg.
Proof.
  intros E Hv. apply other_paths in E
    as [(scm & pull & seg & E0 & P0 & L0 & Em & Pm & Lm & _ & Hnone & _)
       |(Hen & Hpull & _ & _ & prompt & HP & E)]; [congruence|].
  apply steady_state_inv in E as (Hfs & _ & amp & seg & Hamp & E).
  rewrite TrackingFacts.carrier_pll_correlate in E.
  destruct (TrackingFacts.correlate_keeps st inp) as (_ & Hsc & Hrem & _).
  rewrite Hsc, Hrem in E.
  repeat split; try assumption. eauto 10.
Qed.

(** X18.  The timestamps follow the code NCO, not the block lengths.  Of
    two consecutive steady-state steps (the sample counter not wrapping in
    between), the second stamps its record with the timestamp of the first
    plus [K_blk_samples / fs_in - rem_code_phase_samples / fs_in], that is
    plus the Doppler-corrected code period [T_prn_samples / fs_in] and the
    filtered code error [code_error_filt_secs] of the first step: the
    rounding of the block length to whole samples is carried in the code
    phase remainder and does not add up in the timestamps. *)
Theorem X18_timestamps_follow_code_nco `{Externals} (cfg : config)
    (st st1 st2 : state) (inp inp2 : work_input) (o1 o2 : work_output)
    (v1 v2 : process_vars) (record1 record2 : Gnss_Synchro) :
  general_work cfg st inp = Ok (st1, o1) ->
  vars o1 = Some v1 -> out o1 = Some record1 ->
  general_work cfg st1 inp2 = Ok (st2, o2) ->
  vars o2 = Some v2 -> out o2 = Some record2 ->
  (0 <= d_sample_counter st + consumed o1 < 2 ^ 64)%Z ->
  Tracking_timestamp_secs record2
  == Tracking_timestamp_secs record1
     + T_prn_samples v1 / inject_Z (d_fs_in cfg) + code_error_filt_secs v1
  /\ Tracking_timestamp_secs record2
     == (inject_Z (d_sample_counter st) + K_blk_samples v1)
        / inject_Z (d_fs_in cfg).
Proof.
  intros E1 Hv1 Ho1 E2 Hv2 Ho2 Hwrap.
  destruct (steady_step_inv cfg st st1 inp o1 v1 E1 Hv1)
    as (_ & _ & Hfs & p1 & amp1 & seg1 & _ & _ & Eu1).
  destruct (steady_step_inv cfg st1 st2 inp2 o2 v2 E2 Hv2)
    as (_ & _ & _ & p2 & amp2 & seg2 & _ & _ & Eu2).
  pose proof (TrackingFacts.fs_in_nonzero cfg Hfs) as Hfsq.
  match type of Eu1 with
  | _ = steady_update ?c ?s ?i ?p ?T ?a ?t ?g =>
      pose proof (steady_update_code c s i p T a t g) as Hc1;
      pose proof (steady_update_record c s i p T a t g) as Hr1
  end.
  match type of Eu2 with
  | _ = steady_update ?c ?s ?i ?p ?T ?a ?t ?g =>
      pose proof (steady_update_record c s i p T a t g) as Hr2
  end.
  cbv zeta in Hc1, Hr1, Hr2. rewrite <- Eu1 in Hc1, Hr1. rewrite <- Eu2 in Hr2.
  simpl fst in Hc1, Hr1, Hr2. simpl snd in Hc1, Hr1, Hr2.
  destruct Hc1 as (v & Hv & Hcons & _ & Hrem & Hsc & HK & _).
  rewrite Hv1 in Hv. injection Hv as <-.
  destruct Hr1 as (r1 & Hrec1 & Hts1 & _). rewrite Ho1 in Hrec1. injection Hrec1 as <-.
  destruct Hr2 as (r2 & Hrec2 & Hts2 & _). rewrite Ho2 in Hrec2. injection Hrec2 as <-.
  destruct (TrackingFacts.correlate_keeps st inp) as (_ & Hsc0 & Hrem0 & _).
  rewrite Hsc0 in Hsc. rewrite Hrem0 in HK.
  rewrite Hts2, Hts1, Hsc, Hrem, <- Hcons.
  unfold wrap64. rewrite Z.mod_small by exact Hwrap.
  rewrite inject_Z_plus, HK.
  split; field; assumption.
Qed.

Lemma X18_timestamps_follow_code_nco_witness :
  exists st1 o1 st2 o2 record1 record2,
    general_work Nominal.config Nominal.cadll Nominal.in_phase = Ok (st1, o1)
    /\ general_work Nominal.config st1 Nominal.in_phase = Ok (st2, o2)
    /\ out o1 = Some record1 /\ out o2 = Some record2
    /\ Tracking_timestamp_secs record2
       == Tracking_timestamp_secs record1 + (1 # 1000).
Proof.
  assert (holds (run Nominal.config Nominal.cadll [Nominal.in_phase; Nominal.in_phase])
            (fun r =>
               match snd r with
               | [o1; o2] =>
                   match vars o1, out o1, vars o2, out o2 with
                   | Some v1, Some _, Some _, Some _ =>
                       T_prn_samples v1 / inject_Z (d_fs_in Nominal.config)
                       + code_error_filt_secs v1 == 1 # 1000
                       /\ (0 <= d_sample_counter Nominal.cadll + consumed o1 < 2 ^ 64)%Z
                   | _, _, _, _ => False
                   end
               | _ => False
               end)) as Hr.
  { vm_compute. split; [reflexivity|]. split; [discriminate | reflexivity]. }
  apply holds_Ok in Hr as ([st2 outs] & E & Hr).
  apply run_inv in E as (st1 & o1 & outs1 & E1 & E & ->).
  apply run_inv in E as (st2' & o2 & outs3 & E2 & E & ->).
  injection E as <- <-. simpl in Hr.
  destruct (vars o1) as [v1|] eqn:Hv1; [|contradiction Hr].
  destruct (out o1) as [record1|] eqn:Ho1; [|contradiction Hr].
  destruct (vars o2) as [v2|] eqn:Hv2; [|contradiction Hr].
  destruct (out o2) as [record2|] eqn:Ho2; [|contradiction Hr].
  destruct Hr as [Hperiod Hwrap].
  exists st1, o1, st2', o2, record1, record2.
  destruct (X18_timestamps_follow_code_nco Nominal.config _ _ _ _ _ _ _ _ _ _ _
              E1 Hv1 Ho1 E2 Hv2 Ho2 Hwrap) as [Hts _].
  split; [exact E1|]. split; [exact E2|]. split; [exact Ho1|].
  split; [exact Ho2|].
  rewrite Hts, <- Qplus_assoc. apply Qplus_comp; [reflexivity | exact Hperiod].
Defined.

(** X19.  The amplitude estimates of a steady-state step.  During
    initialization the input of the amplitude filter is the constant
    [1 / 0.99] (the power [corr] keeps its initial value 1: the plain
    correlator does not write it), [a2] is [a1 / 1.284025416687741] and
    the secondary amplitude filter is not run.  In CADLL mode the measured
    power [corr] is split between the two replicas in proportion to the
    real parts of their prompt correlators: the inputs of the two filters
    add up to [corr / 0.99], and [a1], [a2] are the two filter outputs. *)
Theorem X19_amplitude_estimates `{Externals} (cfg : config) (st st' : state)
    (inp : work_input) (o : work_output) (v : process_vars) :
  general_work cfg st inp = Ok (st', o) -> vars o = Some v ->
  (CADLL_init st = true ->
   a1 st' = snd (get_amplitude_nco (d_amplitude_loop_filter st) (1 / (99 # 100)))
   /\ a2 st' = a1 st' / (1284025416687741 # 1000000000000000)
   /\ d_amplitude_loop_filter st'
      = fst (get_amplitude_nco (d_amplitude_loop_filter st) (1 / (99 # 100)))
   /\ d_amplitude_loop_filter_m st' = d_amplitude_loop_filter_m st)
  /\ (CADLL_init st = false ->
      exists prompt a1_ a2_,
        Prompt inp = Finite prompt
        /\ ~ real prompt + real (Prompt_m inp) == 0
        /\ a1_ + a2_ == corr inp / (99 # 100)
        /\ a1_ * real (Prompt_m inp) == a2_ * real prompt
        /\ a1 st' = snd (get_amplitude_nco (d_amplitude_loop_filter st) a1_)
        /\ a2 st' = snd (get_amplitude_nco (d_amplitude_loop_filter_m st) a2_)
        /\ d_amplitude_loop_filter st'
           = fst (get_amplitude_nco (d_amplitude_loop_filter st) a1_)
        /\ d_amplitude_loop_filter_m st'
           = fst (get_amplitude_nco (d_amplitude_loop_filter_m st) a2_)).
Proof.
  intros E Hv.
  destruct (steady_step_inv cfg st st' inp o v E Hv)
    as (_ & _ & _ & prompt & amp & seg & HP & Hamp & Eu).
  match type of Eu with
  | _ = steady_update ?c ?s ?i ?p ?T ?a ?t ?g =>
      pose proof (steady_update_record c s i p T a t g) as Hr
  end.
  cbv zeta in Hr. rewrite <- Eu in Hr. simpl fst in Hr. simpl snd in Hr.
  destruct Hr as (record & _ & _ & Ha1 & Ha2 & Hf & Hfm).
  destruct (TrackingFacts.correlate_keeps st inp) as (Hinit & _).
  destruct (TrackingFacts.correlate_outputs st inp) as (_ & _ & _ & Hm).
  assert (d_amplitude_loop_filter (correlate st inp) = d_amplitude_loop_filter st
          /\ d_amplitude_loop_filter_m (correlate st inp)
             = d_amplitude_loop_filter_m st) as [Hf0 Hfm0].
  { destruct (correlate_set_stream st inp) as (E0 & P0 & L0 & Em & Pm & Lm & ->).
    split; reflexivity. }
  unfold amplitude_loops, input_power in Hamp.
  rewrite Hinit, Hf0, Hfm0 in Hamp.
  split.
  - intro Hi. rewrite Hi in Hamp. injection Hamp as <-. simpl in Ha1, Ha2, Hf, Hfm.
    rewrite Ha2, Ha1, Hf, Hfm. repeat split; reflexivity.
  - intro Hi. rewrite Hi in Hamp. destruct (Hm Hi) as (_ & HPm & _).
    rewrite HPm in Hamp.
    apply bind_inv in Hamp as (d & Hd & Hamp). apply fdiv_inv in Hd as [Ht ->].
    injection Hamp as <-. simpl in Ha1, Ha2, Hf, Hfm.
    eexists prompt, _, _. split; [exact HP|]. split; [exact Ht|].
    split; [|split; [|split; [exact Ha1|split; [exact Ha2|split; [exact Hf|exact Hfm]]]]].
    + field. exact Ht.
    + field. exact Ht.
Qed.

Lemma X19_amplitude_estimates_witness :
  exists st' o,
    general_work Nominal.config Nominal.initializing Nominal.in_phase = Ok (st', o)
    /\ a2 st' = a1 st' / (1284025416687741 # 1000000000000000).
Proof.
  assert (holds (general_work Nominal.config Nominal.initializing Nominal.in_phase)
            (fun r => vars (snd r) <> None)) as Hr
    by (vm_compute; discriminate).
  apply holds_Ok in Hr as ([st' o] & E & Hv). simpl in Hv.
  destruct (vars o) as [v|] eqn:Ev; [|contradiction].
  destruct (X19_amplitude_estimates Nominal.config _ _ _ _ _ E Ev) as [Hinit _].
  exists st', o. split; [exact E|]. apply Hinit. reflexivity.
Defined.

(** ** The prompt buffer *)

(** A steady-state step that finds the buffer not full stores its prompt
    correlator at the counter and moves the counter on; one that finds it
    full evaluates the detectors on the buffer and stores nothing. *)
Lemma steady_step_buffer `{Externals} (cfg : config) (st st' : state)
    (inp : work_input) (o : work_output) (v : process_vars) :
  general_work cfg st inp = Ok (st', o) -> vars o = Some v ->
  exists prompt,
    Prompt inp = Finite prompt
    /\ ((d_cn0_estimation_counter st < CN0_ESTIMATION_SAMPLES)%Z ->
        d_cn0_estimation_counter st' = (d_cn0_estimation_counter st + 1)%Z
        /\ d_Prompt_buffer st'
           = <[ Z.to_nat (d_cn0_estimation_counter st) := prompt ]> (d_Prompt_buffer st)
        /\ d_CN0_SNV_dB_Hz st' = d_CN0_SNV_dB_Hz st
        /\ d_carrier_lock_test st' = d_carrier_lock_test st)
    /\ ((CN0_ESTIMATION_SAMPLES <= d_cn0_estimation_counter st)%Z ->
        d_cn0_estimation_counter st' = 0%Z
        /\ d_Prompt_buffer st' = d_Prompt_buffer st
        /\ d_CN0_SNV_dB_Hz st'
           = cn0_svn_estimator (d_Prompt_buffer st) CN0_ESTIMATION_SAMPLES
               (d_fs_in cfg) GPS_L1_CA_CODE_LENGTH_CHIPS
        /\ d_carrier_lock_test st'
           = carrier_lock_detector (d_Prompt_buffer st) CN0_ESTIMATION_SAMPLES).
Proof.
  intros E Hv.
  destruct (steady_step_inv cfg st st' inp o v E Hv)
    as (_ & _ & _ & prompt & amp & seg & HP & _ & Eu).
  exists prompt. split; [exact HP|].
  assert (d_cn0_estimation_counter st'
          = cn0_estimation_counter (cn0_and_lock_detectors cfg st prompt)
          /\ d_Prompt_buffer st'
             = Prompt_buffer (cn0_and_lock_detectors cfg st prompt)
          /\ d_CN0_SNV_dB_Hz st'
             = CN0_SNV_dB_Hz (cn0_and_lock_detectors cfg st prompt)
          /\ d_carrier_lock_test st'
             = carrier_lock_test (cn0_and_lock_detectors cfg st prompt))
    as (-> & -> & -> & ->).
  { rewrite <- (TrackingFacts.cn0_and_lock_detectors_correlate cfg st inp prompt).
    change st' with (fst (st', o)). rewrite Eu. repeat split; reflexivity. }
  unfold cn0_and_lock_detectors. split.
  - intro Hlt. apply Z.ltb_lt in Hlt. rewrite Hlt. repeat split; reflexivity.
  - intro Hge. apply Z.ltb_ge in Hge. rewrite Hge. repeat split; reflexivity.
Qed.

(** The buffer while it fills: the entries from the counter at the start
    on hold the prompt correlators of the steps, in order. *)
Lemma run_fills_buffer `{Externals} (cfg : config) (inputs : list work_input) :
  forall (st st' : state) (outputs : list work_output) (prompts : list gr_complex),
    run cfg st inputs = Ok (st', outputs) ->
    Forall (fun o => vars o <> None) outputs ->
    Forall2 (fun inp prompt => Prompt inp = Finite prompt) inputs prompts ->
    (0 <= d_cn0_estimation_counter st)%Z ->
    (d_cn0_estimation_counter st + Z.of_nat (length inputs)
     <= Z.of_nat (length (d_Prompt_buffer st)))%Z ->
    length (d_Prompt_buffer st) = Z.to_nat CN0_ESTIMATION_SAMPLES ->
    d_cn0_estimation_counter st'
    = (d_cn0_estimation_counter st + Z.of_nat (length inputs))%Z
    /\ d_Prompt_buffer st'
       = take (Z.to_nat (d_cn0_estimation_counter st)) (d_Prompt_buffer st)
         ++ prompts
         ++ drop (Z.to_nat (d_cn0_estimation_counter st) + length inputs)
              (d_Prompt_buffer st)
    /\ d_CN0_SNV_dB_Hz st' = d_CN0_SNV_dB_Hz st
    /\ d_carrier_lock_test st' = d_carrier_lock_test st.
Proof.
  induction inputs as [|inp rest IH];
    intros st st' outputs prompts E Hsteady Hprompts Hc Hlen Hbuf.
  - injection E as <- <-. apply Forall2_nil_inv_l in Hprompts as ->.
    simpl. rewrite Z.add_0_r, Nat.add_0_r, take_drop. auto.
  - apply run_inv in E as (st1 & o & outs & E1 & E2 & ->).
    apply Forall_cons in Hsteady as [Hv Hsteady].
    apply Forall2_cons_inv_l in Hprompts as (p & ps & HP & Hps & ->).
    destruct (vars o) as [v|] eqn:Ev; [|contradiction].
    destruct (steady_step_buffer cfg st st1 inp o v E1 Ev)
      as (p' & HP' & Hfill & _).
    rewrite HP in HP'. injection HP' as <-.
    simpl length in *.
    destruct Hfill as (Hc1 & Hb1 & Hcn0 & Hlock).
    { unfold CN0_ESTIMATION_SAMPLES in *. lia. }
    destruct (IH st1 st' outs ps E2 Hsteady Hps) as (Hc' & Hb' & Hcn0' & Hlock').
    + lia.
    + rewrite Hc1, Hb1, length_insert. lia.
    + rewrite Hb1, length_insert. exact Hbuf.
    + split; [lia|]. split; [|split; congruence].
      rewrite Hb', Hc1, Hb1.
      set (c := Z.to_nat (d_cn0_estimation_counter st)).
      replace (Z.to_nat (d_cn0_estimation_counter st + 1)) with (S c) by lia.
      assert (c < length (d_Prompt_buffer st))%nat as Hlt by lia.
      rewrite (take_S_r _ c p) by (apply list_lookup_insert_eq; exact Hlt).
      rewrite take_insert_ge by lia.
      rewrite drop_insert_lt by lia.
      rewrite <- app_assoc. simpl.
      replace (c + S (length rest))%nat with (S (c + length rest))%nat by lia.
      reflexivity.
Qed.

(** X20.  The prompt buffer and the detectors.  Twenty consecutive
    steady-state steps that start with the counter at zero fill the
    20-entry buffer with their prompt correlators, in order, and leave the
    CN0 estimate and the carrier lock test as they were.  The
    steady-state step after them finds the buffer full: it evaluates both
    detectors on exactly these twenty values, resets the counter and
    does not store its own prompt correlator, so every 21st prompt
    correlator never reaches the detectors. *)
Theorem X20_prompt_buffer `{Externals} (cfg : config) (st st' st'' : state)
    (inputs : list work_input) (outputs : list work_output)
    (prompts : list gr_complex) (inp : work_input) (o : work_output)
    (v : process_vars) :
  d_cn0_estimation_counter st = 0%Z ->
  length (d_Prompt_buffer st) = Z.to_nat CN0_ESTIMATION_SAMPLES ->
  length inputs = Z.to_nat CN0_ESTIMATION_SAMPLES ->
  Forall2 (fun inp prompt => Prompt inp = Finite prompt) inputs prompts ->
  run cfg st inputs = Ok (st', outputs) ->
  Forall (fun o => vars o <> None) outputs ->
  general_work cfg st' inp = Ok (st'', o) -> vars o = Some v ->
  d_Prompt_buffer st' = prompts
  /\ d_cn0_estimation_counter st' = CN0_ESTIMATION_SAMPLES
  /\ d_CN0_SNV_dB_Hz st' = d_CN0_SNV_dB_Hz st
  /\ d_carrier_lock_test st' = d_carrier_lock_test st
  /\ d_Prompt_buffer st'' = prompts
  /\ d_cn0_estimation_counter st'' = 0%Z
  /\ d_CN0_SNV_dB_Hz st''
     = cn0_svn_estimator prompts CN0_ESTIMATION_SAMPLES (d_fs_in cfg)
         GPS_L1_CA_CODE_LENGTH_CHIPS
  /\ d_carrier_lock_test st'' = carrier_lock_detector prompts CN0_ESTIMATION_SAMPLES.
Proof.
  intros Hc Hbuf Hlen Hprompts E Hsteady E' Hv.
  assert (0 <= d_cn0_estimation_counter st)%Z as H0 by lia.
  assert (d_cn0_estimation_counter st + Z.of_nat (length inputs)
          <= Z.of_nat (length (d_Prompt_buffer st)))%Z as H20
    by (rewrite Hc, Hbuf, Hlen; lia).
  destruct (run_fills_buffer cfg inputs st st' outputs prompts E Hsteady Hprompts
              H0 H20 Hbuf) as (Hc' & Hb' & Hcn0 & Hlock).
  rewrite Hc in Hc', Hb'. simpl in Hb'.
  rewrite drop_ge, app_nil_r in Hb' by lia.
  rewrite Hlen in Hc'. change (0 + Z.of_nat (Z.to_nat CN0_ESTIMATION_SAMPLES))%Z
    with CN0_ESTIMATION_SAMPLES in Hc'.
  destruct (steady_step_buffer cfg st' st'' inp o v E' Hv)
    as (p & _ & _ & Heval).
  destruct Heval as (H1 & H2 & H3 & H4); [lia|].
  rewrite Hb' in H2, H3, H4.
  repeat split; assumption.
Qed.

Lemma run_app `{Externals} (cfg : config) (l1 l2 : list work_input) :
  forall (st st'' : state) (outputs : list work_output),
    run cfg st (l1 ++ l2) = Ok (st'', outputs) ->
    exists st' outputs1 outputs2,
      run cfg st l1 = Ok (st', outputs1)
      /\ run cfg st' l2 = Ok (st'', outputs2)
      /\ outputs = outputs1 ++ outputs2.
Proof.
  induction l1 as [|inp l1 IH]; intros st st'' outputs E.
  - exists st, [], outputs. auto.
  - change ((inp :: l1) ++ l2) with (inp :: (l1 ++ l2)) in E.
    apply run_inv in E as (st1 & o & outs & E1 & E & ->).
    apply IH in E as (st' & outs1 & outs2 & E2 & E3 & ->).
    exists st', (o :: outs1), outs2. simpl. rewrite E1, bind_Ok, E2, bind_Ok. auto.
Qed.

Lemma X20_prompt_buffer_witness :
  let cfg :=
    {| d_fs_in := 8000; d_early_late_spc_chips := 1 # 2; d_channel := 0;
       d_queue_attached := true |} in
  let st := Nominal.locked 0 false 0 0 8 0 0 in
  exists st' outputs st'' o,
    run cfg st (replicate 20 Nominal.in_phase) = Ok (st', outputs)
    /\ general_work cfg st' Nominal.in_phase = Ok (st'', o)
    /\ d_Prompt_buffer st'' = replicate 20 (Cplx 5 0)
    /\ d_cn0_estimation_counter st'' = 0%Z.
Proof.
  intros cfg st.
  assert (holds (run cfg st (replicate 20 Nominal.in_phase ++ [Nominal.in_phase]))
            (fun r =>
               forallb (fun o => match vars o with Some _ => true | None => false end)
                 (snd r) = true)) as Hr
    by (vm_compute; reflexivity).
  apply holds_Ok in Hr as ([st2 outs] & E & Hsteady). simpl in Hsteady.
  apply run_app in E as (st' & outs1 & outs2 & E1 & E2 & ->).
  apply run_inv in E2 as (st'' & o & outs3 & E2 & E3 & ->).
  injection E3 as <- <-.
  rewrite forallb_app in Hsteady. apply andb_prop in Hsteady as [Hs1 Hs2].
  simpl in Hs2. destruct (vars o) as [v|] eqn:Hv; [|discriminate Hs2].
  assert (Forall (fun o => vars o <> None) outs1) as Hall.
  { apply Forall_forall. intros o' Ho'.
    rewrite forallb_forall in Hs1. apply list_elem_of_In in Ho'.
    specialize (Hs1 o' Ho'). destruct (vars o'); [discriminate | discriminate Hs1]. }
  assert (Forall2 (fun inp prompt => Prompt inp = Finite prompt)
            (replicate 20 Nominal.in_phase) (replicate 20 (Cplx 5 0))) as Hp
    by (repeat constructor).
  destruct (X20_prompt_buffer cfg st st' st'' (replicate 20 Nominal.in_phase) outs1
              (replicate 20 (Cplx 5 0)) Nominal.in_phase o v
              eq_refl eq_refl eq_refl Hp E1 Hall E2 Hv)
    as (_ & _ & _ & _ & Hb & Hc & _).
  exists st', outs1, st'', o. auto.
Defined.

End TrackingInvariants.
